(** * Rosttatime: the progress-submission engine

    A shallow embedding of [addProgress.ts] (identifier utilities, the three
    GraphQL operations, the replay/fallback submission strategy and
    [processAllProgress]) and of the [handleProcessSelected] handler of
    [components/TimeForm.tsx], together with the properties the specification
    states about them.

    Conventions.
    - A JavaScript string is the list of its UTF-16 code units.
    - Values typed [any] in the source are modelled by [jsval]; values with a
      declared TypeScript interface are records.
    - Platform built-ins and external collaborators (fetch, session storage,
      tab scripting, clock, random source, JSON.parse, String.prototype
      methods) are fields of a [World]; every interaction is recorded, with
      its answer, in a trace of [event]s. *)

From Stdlib Require Import List NArith ZArith QArith_base String Ascii Bool Lia.
From Stdlib Require DecimalString.
Import ListNotations.
Close Scope Q_scope.

Set Implicit Arguments.
Set Warnings "-register-all".

(** ** JavaScript strings *)

Definition jsstring := list N.

Definition js (s : string) : jsstring :=
  map N_of_ascii (list_ascii_of_string s).

Fixpoint jsstring_eqb (a b : jsstring) : bool :=
  match a, b with
  | [], [] => true
  | x :: a', y :: b' => (x =? y)%N && jsstring_eqb a' b'
  | _, _ => false
  end.

(** ** Identifier utilities: [titleToSlug] *)

Module Slug.

Definition dash : N := 45.

(** the class of combining diacritical marks, U+0300 to U+036F *)
Definition is_combining (c : N) : bool := ((768 <=? c) && (c <=? 879))%N.

Definition is_lower (c : N) : bool := ((97 <=? c) && (c <=? 122))%N.
Definition is_digit (c : N) : bool := ((48 <=? c) && (c <=? 57))%N.

(** [[a-z0-9]] *)
Definition is_alnum (c : N) : bool := is_lower c || is_digit c.

(** [.replace(/[U+0300-U+036F]/g, '')]: drop the combining marks. *)
Definition remove_accents (s : jsstring) : jsstring :=
  filter (fun c => negb (is_combining c)) s.

(** [.replace(/[^a-z0-9]+/g, '-')]: every maximal run of code units outside
    [[a-z0-9]] becomes one dash.  [in_run] tells that the previous code unit
    already belonged to the run being replaced. *)
Fixpoint dash_runs (in_run : bool) (s : jsstring) : jsstring :=
  match s with
  | [] => []
  | c :: r =>
      if is_alnum c then c :: dash_runs false r
      else if in_run then dash_runs true r
      else dash :: dash_runs true r
  end.

(** [.replace(/^-|-$/g, '')]: the global scan removes a dash at index 0 and
    a dash at the last index of what follows it. *)
Definition trim_front (s : jsstring) : jsstring :=
  match s with
  | c :: r => if (c =? dash)%N then r else s
  | [] => []
  end.

Fixpoint trim_back (s : jsstring) : jsstring :=
  match s with
  | [] => []
  | c :: r =>
      match r with
      | [] => if (c =? dash)%N then [] else [c]
      | _ :: _ => c :: trim_back r
      end
  end.

Definition trim_dashes (s : jsstring) : jsstring := trim_back (trim_front s).

Section TitleToSlug.
(** [String.prototype.toLowerCase] and [String.prototype.normalize('NFD')]. *)
Variable toLowerCase : jsstring -> jsstring.
Variable normalizeNFD : jsstring -> jsstring.

Definition titleToSlug (title : jsstring) : jsstring :=
  trim_dashes
    (dash_runs false
       (remove_accents (normalizeNFD (toLowerCase title)))).
End TitleToSlug.

(** *** The shape of a slug *)

Definition slug_char (c : N) : bool := is_alnum c || (c =? dash)%N.

Definition starts_with_dash (s : jsstring) : bool :=
  match s with
  | c :: _ => (c =? dash)%N
  | [] => false
  end.

Fixpoint ends_with_dash (s : jsstring) : bool :=
  match s with
  | [] => false
  | c :: r =>
      match r with
      | [] => (c =? dash)%N
      | _ :: _ => ends_with_dash r
      end
  end.

Fixpoint has_double_dash (s : jsstring) : bool :=
  match s with
  | [] => false
  | c :: r => ((c =? dash)%N && starts_with_dash r) || has_double_dash r
  end.

Record slug_shape (s : jsstring) : Prop := {
  shape_chars : forall c, In c s ->
      is_lower c = true \/ is_digit c = true \/ c = dash;
  shape_single : has_double_dash s = false;
  shape_front : starts_with_dash s = false;
  shape_back : ends_with_dash s = false
}.

(** *** The Latin-1 fragment of the two built-ins, for running examples.
    On strings of code units below U+0100 these agree with the platform's
    [toLowerCase] and canonical decomposition; other code units are left
    as they are. *)

Definition lower_unit (c : N) : N :=
  if ((65 <=? c) && (c <=? 90))%N then (c + 32)%N
  else if ((192 <=? c) && (c <=? 222) && negb (c =? 215))%N then (c + 32)%N
  else c.

Definition toLowerCase_latin1 (s : jsstring) : jsstring := map lower_unit s.

(** Canonical decompositions of the upper-case letters of U+00C0..U+00DD. *)
Definition decompose_upper (c : N) : option (N * N) :=
  match c with
  | 192 => Some (65, 768) | 193 => Some (65, 769) | 194 => Some (65, 770)
  | 195 => Some (65, 771) | 196 => Some (65, 776) | 197 => Some (65, 778)
  | 199 => Some (67, 807)
  | 200 => Some (69, 768) | 201 => Some (69, 769) | 202 => Some (69, 770)
  | 203 => Some (69, 776)
  | 204 => Some (73, 768) | 205 => Some (73, 769) | 206 => Some (73, 770)
  | 207 => Some (73, 776)
  | 209 => Some (78, 771)
  | 210 => Some (79, 768) | 211 => Some (79, 769) | 212 => Some (79, 770)
  | 213 => Some (79, 771) | 214 => Some (79, 776)
  | 217 => Some (85, 768) | 218 => Some (85, 769) | 219 => Some (85, 770)
  | 220 => Some (85, 776)
  | 221 => Some (89, 769)
  | _ => None
  end%N.

Definition decompose_unit (c : N) : jsstring :=
  match decompose_upper c with
  | Some (b, m) => [b; m]
  | None =>
      if (c =? 255)%N then [121; 776]%N
      else if ((224 <=? c) && (c <=? 253))%N then
        match decompose_upper (c - 32) with
        | Some (b, m) => [(b + 32)%N; m]
        | None => [c]
        end
      else [c]
  end.

Definition normalizeNFD_latin1 (s : jsstring) : jsstring :=
  flat_map decompose_unit s.

(** The code units up to [z]. *)
Definition plain_units : list N := map N.of_nat (seq 0 123).

Definition titleToSlug_latin1 : jsstring -> jsstring :=
  titleToSlug toLowerCase_latin1 normalizeNFD_latin1.

End Slug.

(** ** JavaScript values *)

(** The values the program handles under the type [any]: what [JSON.parse],
    [Response.json] and the extension APIs hand back.  A number is a finite
    double, given by its exact rational value (NaN and the infinities do not
    occur in JSON).  An object is the list of its own enumerable properties in
    enumeration order. *)
Inductive jsval : Type :=
| JUndef
| JNull
| JBool (b : bool)
| JNum (q : Q)
| JStr (s : jsstring)
| JArr (items : list jsval)
| JObj (props : list (jsstring * jsval)).

(** What a [throw] carries.  [JsError] is [new Error(msg)] for a literal
    message; the two templated messages keep their interpolated parts. *)
Inductive exn : Type :=
| TypeError
| SyntaxError
| JsError (msg : string)
| HttpError (status : Z) (text : jsstring)
| GraphQLError (errors : jsval)
| Thrown (v : jsval).

Inductive outcome (A : Type) : Type :=
| Ret (a : A)
| Throw (e : exn).
Arguments Throw {A} e.

Definition is_ret {A} (o : outcome A) : bool :=
  match o with Ret _ => true | Throw _ => false end.

Module JS.

Definition num (n : nat) : jsval := JNum (inject_Z (Z.of_nat n)).
Definition str (s : string) : jsval := JStr (js s).

(** ToBoolean *)
Definition truthy (v : jsval) : bool :=
  match v with
  | JUndef | JNull => false
  | JBool b => b
  | JNum q => negb (Qnum q =? 0)%Z
  | JStr s => match s with [] => false | _ :: _ => true end
  | JArr _ | JObj _ => true
  end.

Definition nullish (v : jsval) : bool :=
  match v with JUndef | JNull => true | _ => false end.

Definition Array_isArray (v : jsval) : bool :=
  match v with JArr _ => true | _ => false end.

Fixpoint lookup (k : jsstring) (ps : list (jsstring * jsval)) : jsval :=
  match ps with
  | [] => JUndef
  | (k', v) :: r => if jsstring_eqb k k' then v else lookup k r
  end.

(** [v.k] for the property names this program reads: none of them is
    inherited from a prototype, and [length] is the only one that arrays
    and strings own.  Reading a property of [null] or [undefined] throws. *)
Definition get_prop (v : jsval) (k : string) : outcome jsval :=
  match v with
  | JUndef | JNull => Throw TypeError
  | JObj ps => Ret (lookup (js k) ps)
  | JArr l => Ret (if String.eqb k "length" then num (List.length l) else JUndef)
  | JStr s => Ret (if String.eqb k "length" then num (List.length s) else JUndef)
  | JBool _ | JNum _ => Ret JUndef
  end.

(** [v?.k] *)
Definition opt_prop (v : jsval) (k : string) : jsval :=
  match get_prop v k with
  | Ret x => x
  | Throw _ => JUndef
  end.

(** [v?.[0]] *)
Definition opt_first (v : jsval) : jsval :=
  match v with
  | JArr l => nth 0 l JUndef
  | JObj ps => lookup (js "0") ps
  | JStr (c :: _) => JStr [c]
  | _ => JUndef
  end.

(** [v === 0] *)
Definition is_zero (v : jsval) : bool :=
  match v with JNum q => (Qnum q =? 0)%Z | _ => false end.

(** [v === s] for a string [s] *)
Definition strict_eq_string (v : jsval) (s : jsstring) : bool :=
  match v with JStr t => jsstring_eqb t s | _ => false end.

Fixpoint set_prop (ps : list (jsstring * jsval)) (k : jsstring) (v : jsval)
  : list (jsstring * jsval) :=
  match ps with
  | [] => [(k, v)]
  | (k', v') :: r =>
      if jsstring_eqb k k' then (k, v) :: r else (k', v') :: set_prop r k v
  end.

Definition set_props (ps kvs : list (jsstring * jsval)) :=
  fold_left (fun acc kv => set_prop acc (fst kv) (snd kv)) kvs ps.

(** [o.k = v] in strict-mode code (ES modules): writing a property of a
    primitive throws.  An array accepts the write as an expando property,
    which neither [JSON.stringify] nor this program reads back. *)
Definition assign_prop (o : jsval) (k : string) (v : jsval) : outcome jsval :=
  match o with
  | JObj ps => Ret (JObj (set_prop ps (js k) v))
  | JArr l => Ret (JArr l)
  | _ => Throw TypeError
  end.

Definition index_key (i : nat) : jsstring :=
  js (DecimalString.NilZero.string_of_uint (Nat.to_uint i)).

Fixpoint indexed {A} (f : A -> jsval) (i : nat) (l : list A)
  : list (jsstring * jsval) :=
  match l with
  | [] => []
  | x :: r => (index_key i, f x) :: indexed f (S i) r
  end.

(** The own enumerable properties copied by the spread [{...v}]. *)
Definition spread (v : jsval) : list (jsstring * jsval) :=
  match v with
  | JObj ps => ps
  | JArr l => indexed (fun x => x) 0 l
  | JStr s => indexed (fun c => JStr [c]) 0 s
  | _ => []
  end.

Definition is_high_surrogate (c : N) : bool := ((55296 <=? c) && (c <=? 56319))%N.
Definition is_low_surrogate (c : N) : bool := ((56320 <=? c) && (c <=? 57343))%N.

(** The string iterator yields code points. *)
Fixpoint code_points (s : jsstring) : list jsval :=
  match s with
  | [] => []
  | c :: r =>
      match r with
      | d :: r' =>
          if is_high_surrogate c && is_low_surrogate d
          then JStr [c; d] :: code_points r'
          else JStr [c] :: code_points r
      | [] => [JStr [c]]
      end
  end.

(** The items a [for (const x of v)] loop visits. *)
Definition iterate (v : jsval) : outcome (list jsval) :=
  match v with
  | JArr l => Ret l
  | JStr s => Ret (code_points s)
  | _ => Throw TypeError
  end.

(** [xs.find(x => x.activityId === id)] *)
Fixpoint find_activity (xs : list jsval) (id : jsstring) : outcome jsval :=
  match xs with
  | [] => Ret JUndef
  | a :: r =>
      match get_prop a "activityId" with
      | Throw e => Throw e
      | Ret v => if strict_eq_string v id then Ret a else find_activity r id
      end
  end.

End JS.

(** ** The environment: collaborators and their trace *)

(** The [Response] of [fetch]: its status and what reading the body as text
    gives (the read may reject).  [ok] is derived from the status as the Fetch
    standard defines it. *)
Record Response : Type := {
  res_status : Z;
  res_text : outcome jsstring
}.

Definition res_ok (r : Response) : bool :=
  ((200 <=? res_status r) && (res_status r <=? 299))%Z.

(** Modelled from the spec: the [Request] type of [lib/request.ts], which is
    not among the sources.  Section 6 gives its shape, url, method, headers
    and body, the body being a JSON string; the body is optional here because
    the program tests it for presence before use. *)
Record Request : Type := {
  url : jsstring;
  method : jsstring;
  headers : jsval;
  body : option jsstring
}.

(** What reaches [fetch]: the GraphQL envelope, recorded before
    [JSON.stringify] serialises it, and the fixed headers. *)
Record GraphQLBody : Type := {
  operationName : string;
  variables : jsval;
  query : string
}.

Record FetchInit : Type := {
  init_method : string;
  init_headers : list (string * string);
  init_body : GraphQLBody
}.

(** The request handed to the in-page function, recorded before
    serialisation: the stored request with its body replaced. *)
Record PageRequest : Type := {
  page_url : jsstring;
  page_method : jsstring;
  page_headers : jsval;
  page_body : jsval
}.

Inductive console_level : Type := Log | Debug | Warn | ConsoleError.

Inductive log_part : Type :=
| LText (s : string)
| LStr (s : jsstring)
| LVal (v : jsval)
| LNat (n : nat)
| LExn (e : exn).

(** One entry per interaction with the outside, with the answer received.
    [EvEnter] and [EvLeave] are bookkeeping: they bracket every call of
    [addProgressForActivity], also one that fails its argument check, and
    [EvLeave] tells whether the call returned ([true]) or threw. *)
Inductive event : Type :=
| EvFetch (target : string) (init : FetchInit) (answer : outcome Response)
| EvStorageGet (key : string) (answer : outcome (option Request))
| EvGetTab (answer : outcome jsval)
| EvExecuteScript (tabId : jsval) (req : PageRequest) (answer : outcome jsval)
| EvRandom (r : N)
| EvClock (t : jsstring)
| EvConsole (level : console_level) (parts : list log_part)
| EvOnError (e : exn)
| EvEnter (courseId sequenceId activityId activityStepId score : jsval)
| EvLeave (returned : bool).

(** Every collaborator answers as a function of the interactions so far. *)
Record World : Type := {
  String_toLowerCase : jsstring -> jsstring;
  String_normalize_NFD : jsstring -> jsstring;
  (** [JSON.parse]; [None] is the [SyntaxError] *)
  JSON_parse : jsstring -> option jsval;
  navigator_userAgent : jsstring;
  (** [Math.random() * 16 | 0] *)
  Math_random_16 : list event -> N;
  (** [new Date().toISOString()] *)
  Date_now_iso : list event -> jsstring;
  fetch : list event -> string -> FetchInit -> outcome Response;
  storage_session_get : list event -> string -> outcome (option Request);
  getTab : list event -> outcome jsval;
  scripting_executeScript : list event -> jsval -> PageRequest -> outcome jsval
}.

(** [JSON.parse(s)] *)
Definition parse (W : World) (s : jsstring) : outcome jsval :=
  match JSON_parse W s with
  | Some v => Ret v
  | None => Throw SyntaxError
  end.

(** [res.json()]: the body text, parsed. *)
Definition res_json (W : World) (r : Response) : outcome jsval :=
  match res_text r with
  | Ret t => parse W t
  | Throw e => Throw e
  end.

(** ** Computations that interact with the world

    An [IO] computation reads the history and returns its outcome with the
    events it added. *)
Definition IO (A : Type) : Type := list event -> outcome A * list event.

Module IOMonad.

Definition ret {A} (a : A) : IO A := fun _ => (Ret a, []).

Definition throw {A} (e : exn) : IO A := fun _ => (Throw e, []).

Definition bind {A B} (m : IO A) (k : A -> IO B) : IO B :=
  fun h =>
    match m h with
    | (Ret a, e1) => let (r, e2) := k a (h ++ e1) in (r, e1 ++ e2)
    | (Throw e, e1) => (Throw e, e1)
    end.

(** [try { m } catch (e) { handler e }] *)
Definition try_catch {A} (m : IO A) (handler : exn -> IO A) : IO A :=
  fun h =>
    match m h with
    | (Ret a, e1) => (Ret a, e1)
    | (Throw e, e1) => let (r, e2) := handler e (h ++ e1) in (r, e1 ++ e2)
    end.

Definition of_outcome {A} (o : outcome A) : IO A := fun _ => (o, []).

Definition emit (e : event) : IO unit := fun _ => (Ret tt, [e]).

Definition console (lvl : console_level) (parts : list log_part) : IO unit :=
  emit (EvConsole lvl parts).

Fixpoint for_each {A} (xs : list A) (bodyf : A -> IO unit) : IO unit :=
  match xs with
  | [] => ret tt
  | x :: r => bind (bodyf x) (fun _ => for_each r bodyf)
  end.

Fixpoint map_io {A B} (f : A -> IO B) (xs : list A) : IO (list B) :=
  match xs with
  | [] => ret []
  | x :: r => bind (f x) (fun y => bind (map_io f r) (fun ys => ret (y :: ys)))
  end.

(** Every event a computation adds satisfies [P]. *)
Definition emits (P : event -> bool) {A} (m : IO A) : Prop :=
  forall h, forallb P (snd (m h)) = true.

(** A computation that always returns. *)
Definition total {A} (m : IO A) : Prop := forall h, is_ret (fst (m h)) = true.

End IOMonad.

Declare Scope io_scope.
Delimit Scope io_scope with io.
Notation "x <- m ;; k" := (IOMonad.bind m (fun x => k))
  (at level 61, m at next level, right associativity) : io_scope.
Notation "m ;; k" := (IOMonad.bind m (fun _ => k))
  (at level 61, right associativity) : io_scope.

(** ** Reading a trace *)

Module Trace.

(** The arguments of one call of [addProgressForActivity]. *)
Record submission : Type := {
  sub_course : jsval;
  sub_sequence : jsval;
  sub_activity : jsval;
  sub_step : jsval;
  sub_score : jsval
}.

Definition submission_of (e : event) : list submission :=
  match e with
  | EvEnter c s a st sc =>
      [{| sub_course := c; sub_sequence := s; sub_activity := a;
          sub_step := st; sub_score := sc |}]
  | _ => []
  end.

(** The submission attempts of a trace, in order. *)
Definition submissions (evs : list event) : list submission :=
  flat_map submission_of evs.

Definition returned_of (e : event) : nat :=
  match e with
  | EvLeave true => 1
  | _ => 0
  end.

(** How many of them returned rather than threw. *)
Definition returned (evs : list event) : nat :=
  list_sum (map returned_of evs).

Definition bookkeeping (e : event) : bool :=
  match e with
  | EvEnter _ _ _ _ _ | EvLeave _ => true
  | _ => false
  end.

(** Random and clock reads. *)
Definition local_only (e : event) : bool :=
  match e with
  | EvRandom _ | EvClock _ => true
  | _ => false
  end.

Definition is_fetch (e : event) : bool :=
  match e with
  | EvFetch _ _ _ => true
  | _ => false
  end.

Definition is_storage_read (e : event) : bool :=
  match e with
  | EvStorageGet _ _ => true
  | _ => false
  end.

Definition is_execution (e : event) : bool :=
  match e with
  | EvExecuteScript _ _ _ => true
  | _ => false
  end.

(** What a query or a submission adds to the trace: no call of [onError],
    and on the console nothing but debug lines. *)
Definition backstage (e : event) : bool :=
  match e with
  | EvOnError _ => false
  | EvConsole Debug _ => true
  | EvConsole _ _ => false
  | _ => true
  end.

Definition not_a_report (e : event) : bool :=
  match e with
  | EvOnError _ => false
  | _ => true
  end.

(** The errors handed to [onError], in order. *)
Definition reported (evs : list event) : list exn :=
  flat_map (fun e => match e with
                     | EvOnError x => [x]
                     | _ => []
                     end) evs.

(** The requests [fetch] was called with, in order. *)
Definition requests (evs : list event) : list FetchInit :=
  flat_map (fun e => match e with
                     | EvFetch _ init _ => [init]
                     | _ => []
                     end) evs.

(** The in-page execution ran and handed back a result. *)
Definition exec_returned (e : event) : bool :=
  match e with
  | EvExecuteScript _ _ (Ret _) => true
  | _ => false
  end.

(** The results the in-page executions of a trace handed back. *)
Definition exec_results (evs : list event) : list jsval :=
  flat_map (fun e => match e with
                     | EvExecuteScript _ _ (Ret results) => [results]
                     | _ => []
                     end) evs.

(** The failures of the replay path that the trace shows: the storage read
    threw, nothing is stored, what is stored has no body or a body that
    does not parse, the tab lookup threw, or the [executeScript] call
    threw. *)
Definition replay_failure (W : World) (e : event) : bool :=
  match e with
  | EvStorageGet _ (Throw _) => true
  | EvStorageGet _ (Ret None) => true
  | EvStorageGet _ (Ret (Some req)) =>
      match body req with
      | Some (c :: text) =>
          match JSON_parse W (c :: text) with
          | Some _ => false
          | None => true
          end
      | _ => true
      end
  | EvGetTab (Throw _) => true
  | EvExecuteScript _ _ (Throw _) => true
  | _ => false
  end.

(** The events of a replay attempt that is still on its way to the in-page
    execution: a stored request with a body that parses, the random and
    clock reads of the rewrite, and a tab lookup that answered. *)
Definition replay_going (W : World) (e : event) : bool :=
  match e with
  | EvStorageGet _ _ => negb (replay_failure W e)
  | EvRandom _ | EvClock _ => true
  | EvGetTab (Ret _) => true
  | _ => false
  end.

(** The events of a replay attempt that did not get a result back. *)
Definition replay_stopped (e : event) : bool :=
  match e with
  | EvStorageGet _ _ | EvRandom _ | EvClock _ | EvGetTab _ => true
  | EvExecuteScript _ _ (Throw _) => true
  | _ => false
  end.

(** Between the replay attempt and the direct request: the debug line of
    the [catch], and the random and clock reads of the new message. *)
Definition before_direct (e : event) : bool :=
  match e with
  | EvConsole Debug _ | EvRandom _ | EvClock _ => true
  | _ => false
  end.

(** What the caller of the direct request gets for a given answer of
    [fetch]: the HTTP and GraphQL error taxonomy. *)
Definition direct_outcome (W : World) (answer : outcome Response) : outcome jsval :=
  match answer with
  | Throw e => Throw e
  | Ret res =>
      if negb (res_ok res) then
        match res_text res with
        | Ret t => Throw (HttpError (res_status res) t)
        | Throw e => Throw e
        end
      else
        match res_json W res with
        | Throw e => Throw e
        | Ret data =>
            match JS.get_prop data "errors" with
            | Throw e => Throw e
            | Ret errors =>
                if JS.truthy errors then Throw (GraphQLError errors)
                else Ret data
            end
        end
  end.

End Trace.

(** ** [addProgress.ts] *)

Module AddProgress.
Import IOMonad JS.
Local Open Scope string_scope.
Local Open Scope list_scope.
Local Open Scope io_scope.

Definition GRAPHQL_ENDPOINT : string := "https://gaia-server.rosettastone.com/graphql".
Definition YOUR_AUTH_TOKEN : string := "b4e31b36-a3c0-4f6f-9953-17bf3090e4fb".
Definition STORAGE_KEY : string := "fluency_builder_time_request".
Definition FALLBACK_USER_ID : string := "8c1694c1-cea8-404a-acc6-5f2f629942b8".

Definition graphql_headers : list (string * string) :=
  [ ("Content-Type", "application/json");
    ("Accept", "application/json");
    ("Authorization", ("Bearer " ++ YOUR_AUTH_TOKEN)%string);
    ("Origin", "https://learn.rosettastone.com") ].

Definition QUERY_getCoursesAndProgress : string :=
"query getCoursesAndProgress($locale: String) {
  assignedCourses {
    ...CoursesDetails
    __typename
  }
  progress {
    id
    courseId
    countOfSequencesInCourse
    sequences {
      id
      percentComplete
      __typename
    }
    __typename
  }
}

fragment CoursesDetails on Course {
  id
  courseId
  productId
  learningLanguage
  title(locale: $locale)
  cefr
  description(locale: $locale)
  images {
    ...Images
    __typename
  }
  topics {
    id
    color
    localizations {
      id
      locale
      text
      __typename
    }
    images {
      ...Images
      __typename
    }
    __typename
  }
  sequences {
    id
    title(locale: $locale)
    interaction
    images {
      ...Images
      __typename
    }
    numberOfActivities
    __typename
  }
  __typename
}

fragment Images on ImageArray {
  id
  type
  images {
    id
    type
    media_uri
    __typename
  }
  __typename
}
".

Definition QUERY_getSequence : string :=
"query getSequence($courseId: String!, $sequenceId: String, $sequenceSlug: String, $locale: String) {
  sequence(courseId: $courseId, sequenceId: $sequenceId, slug: $sequenceSlug, locale: $locale) {
    id
    sequenceId
    title(locale: $locale)
    version
    activities
    __typename
  }
}".

Definition QUERY_AddProgress : string :=
"mutation AddProgress($userId: String!, $messages: [ProgressMessage!]!) {
  progress(userId: $userId, messages: $messages) {
    id
    __typename
  }
}".

(** The escape [\n] of the two log lines that start with it. *)
Definition newline : string := String (ascii_of_nat 10) EmptyString.

Definition UUID_TEMPLATE : jsstring := js "xxxxxxxx-xxxx-4xxx-yxxx-xxxxxxxxxxxx".

(** [v.toString(16)] for [v] in 0..15 *)
Definition hex_digit (v : N) : N := if (v <? 10)%N then (48 + v)%N else (87 + v)%N.

(** [[0-9a-f]] *)
Definition is_hex (c : N) : bool :=
  Slug.is_digit c || ((97 <=? c) && (c <=? 102))%N.

(** The canonical text of a version-4 UUID, read by position: dashes at 8,
    13, 18 and 23, the version digit 4 at 14, one of 8, 9, a, b at 19, and
    lower-case hexadecimal digits elsewhere; 36 code units in all. *)
Definition uuid_v4_unit (i : nat) (c : N) : bool :=
  match i with
  | 8 | 13 | 18 | 23 => (c =? 45)%N
  | 14 => (c =? 52)%N
  | 19 => ((c =? 56) || (c =? 57) || (c =? 97) || (c =? 98))%N
  | _ => is_hex c
  end.

Fixpoint uuid_v4_from (i : nat) (s : jsstring) : bool :=
  match s with
  | [] => true
  | c :: r => uuid_v4_unit i c && uuid_v4_from (S i) r
  end.

Definition is_uuid_v4 (s : jsstring) : bool :=
  (List.length s =? 36)%nat && uuid_v4_from 0 s.

(** What the replacement callback can put in place of one code unit of a
    template. *)
Definition unit_of (t c : N) : bool :=
  if (t =? 120)%N then is_hex c
  else if (t =? 121)%N then ((c =? 56) || (c =? 57) || (c =? 97) || (c =? 98))%N
  else (c =? t)%N.

Fixpoint units_of (template s : jsstring) : bool :=
  match template, s with
  | [], [] => true
  | t :: template', c :: s' => unit_of t c && units_of template' s'
  | _, _ => false
  end.

Definition is_uuid_value (v : jsval) : bool :=
  match v with JStr s => is_uuid_v4 s | _ => false end.

Definition is_string_value (v : jsval) : bool :=
  match v with JStr _ => true | _ => false end.

(** The message has two attempt identifiers in the layout of a version-4
    UUID and a string as its end timestamp. *)
Definition freshly_stamped (msg : jsval) : Prop :=
  is_uuid_value (opt_prop msg "activityAttemptId") = true
  /\ is_uuid_value (opt_prop msg "activityStepAttemptId") = true
  /\ is_string_value (opt_prop msg "endTimestamp") = true.

(** The message names the given step, with the given score. *)
Definition aimed_at (courseId sequenceId activityId activityStepId score
                     msg : jsval) : Prop :=
  opt_prop msg "courseId" = courseId
  /\ opt_prop msg "sequenceId" = sequenceId
  /\ opt_prop msg "activityId" = activityId
  /\ opt_prop msg "activityStepId" = activityStepId
  /\ opt_prop msg "score" = score.

(** The property names [update_message] writes, and the ones
    [refresh_message] writes. *)
Definition UPDATED_KEYS : list jsstring :=
  map js ["courseId"; "sequenceId"; "activityId"; "activityStepId"; "score";
          "activityAttemptId"; "activityStepAttemptId"; "endTimestamp"].

Definition REFRESHED_KEYS : list jsstring :=
  map js ["activityAttemptId"; "activityStepAttemptId"; "endTimestamp";
          "durationMs"].

(** [new] has every property of [old] outside [keys] as [old] has it. *)
Definition keeps_outside (keys : list jsstring) (old new : jsval) : Prop :=
  forall k, ~ In k keys -> lookup k (spread new) = lookup k (spread old).

(** [new] is [old] aimed at the given step: the target and the stamps are
    written, the rest is kept. *)
Definition retargeted (courseId sequenceId activityId activityStepId score
                       old new : jsval) : Prop :=
  aimed_at courseId sequenceId activityId activityStepId score new
  /\ freshly_stamped new
  /\ keeps_outside UPDATED_KEYS old new.

(** [new] is [old] with fresh stamps and the fixed duration. *)
Definition refreshed (old new : jsval) : Prop :=
  freshly_stamped new
  /\ opt_prop new "durationMs" = num 745
  /\ keeps_outside REFRESHED_KEYS old new.

(** A parsed body that is an object whose [variables] is an object, or is
    absent or falsy. *)
Definition plain_variables (bodyObj : jsval) : bool :=
  match bodyObj with
  | JObj bps =>
      match lookup (js "variables") bps with
      | JObj _ => true
      | v => negb (truthy v)
      end
  | _ => false
  end.

(** The messages a parsed body carries. *)
Definition messages_of (bodyObj : jsval) : list jsval :=
  match opt_prop (opt_prop bodyObj "variables") "messages" with
  | JArr ms => ms
  | _ => []
  end.

(** The parsed body carries a list of messages. *)
Definition has_message_list (bodyObj : jsval) : bool :=
  match opt_prop (opt_prop bodyObj "variables") "messages" with
  | JArr _ => true
  | _ => false
  end.

(** The four identifiers pass the argument check of
    [addProgressForActivity]. *)
Definition args_ok (courseId sequenceId activityId activityStepId : jsval) : bool :=
  JS.truthy courseId && JS.truthy sequenceId
  && JS.truthy activityId && JS.truthy activityStepId.

Section WithWorld.
Variable W : World.

(** *** Calls to the collaborators *)

Definition call_fetch (init : FetchInit) : IO Response :=
  fun h =>
    let a := fetch W h GRAPHQL_ENDPOINT init in
    (a, [EvFetch GRAPHQL_ENDPOINT init a]).

Definition call_storage_get (key : string) : IO (option Request) :=
  fun h =>
    let a := storage_session_get W h key in
    (a, [EvStorageGet key a]).

Definition call_getTab : IO jsval :=
  fun h => let a := getTab W h in (a, [EvGetTab a]).

Definition call_executeScript (tabId : jsval) (req : PageRequest) : IO jsval :=
  fun h =>
    let a := scripting_executeScript W h tabId req in
    (a, [EvExecuteScript tabId req a]).

Definition random_16 : IO N :=
  fun h => let r := (Math_random_16 W h mod 16)%N in (Ret r, [EvRandom r]).

Definition now_iso : IO jsstring :=
  fun h => let t := Date_now_iso W h in (Ret t, [EvClock t]).

(** *** Identifier utilities *)

(** The callback of [.replace(/[xy]/g, ...)] on one code unit of the
    template; the other code units are copied. *)
Definition uuid_unit (c : N) : IO N :=
  if ((c =? 120) || (c =? 121))%N then
    r <- random_16 ;;
    let v := if (c =? 120)%N then r else N.lor (N.land r 3) 8 in
    ret (hex_digit v)
  else ret c.

Definition generateUUID : IO jsstring := map_io uuid_unit UUID_TEMPLATE.

Definition titleToSlug (title : jsstring) : jsstring :=
  Slug.titleToSlug (String_toLowerCase W) (String_normalize_NFD W) title.

(** [titleToSlug] reached with a value that need not be a string:
    [title.toLowerCase] is only callable on strings. *)
Definition titleToSlug_any (title : jsval) : outcome jsstring :=
  match title with
  | JStr s => Ret (titleToSlug s)
  | _ => Throw TypeError
  end.

(** *** Remote query layer *)

(** The tail the three operations share: POST the envelope, then apply
    the HTTP and GraphQL error taxonomy to the response. *)
Definition checked_response (res : Response) : IO jsval :=
  if negb (res_ok res) then
    t <- of_outcome (res_text res) ;;
    throw (HttpError (res_status res) t)
  else
    data <- of_outcome (res_json W res) ;;
    errors <- of_outcome (get_prop data "errors") ;;
    if truthy errors then throw (GraphQLError errors) else ret data.

Definition init_of (b : GraphQLBody) : FetchInit :=
  {| init_method := "POST"; init_headers := graphql_headers; init_body := b |}.

Definition post_graphql (b : GraphQLBody) : IO jsval :=
  res <- call_fetch (init_of b) ;;
  checked_response res.

Definition token_missing : bool := String.eqb YOUR_AUTH_TOKEN "".

Definition getCoursesAndProgress (locale : jsval) : IO jsval :=
  if negb (truthy locale) then throw (JsError "locale is required")
  else if token_missing then throw (JsError "Authentication token is missing.")
  else
    post_graphql {| operationName := "getCoursesAndProgress";
                    variables := JObj [(js "locale", locale)];
                    query := QUERY_getCoursesAndProgress |}.

Definition getSequence (courseId sequenceSlug locale : jsval) : IO jsval :=
  if negb (truthy courseId) || negb (truthy sequenceSlug) || negb (truthy locale)
  then throw (JsError "courseId, sequenceSlug, and locale are required")
  else if token_missing then throw (JsError "Authentication token is missing.")
  else
    post_graphql {| operationName := "getSequence";
                    variables := JObj [ (js "courseId", courseId);
                                        (js "sequenceSlug", sequenceSlug);
                                        (js "locale", locale) ];
                    query := QUERY_getSequence |}.

(** *** Request-forgery strategy *)

(** Lines 180-189, the function the tab runs: what it returns for the
    response the page's own [fetch] got.  The status is copied, not
    tested. *)
Definition in_page_function (res : Response) : outcome jsval :=
  match res_text res with
  | Ret text =>
      Ret (JObj [ (js "status", JNum (inject_Z (res_status res)));
                  (js "ok", JBool (res_ok res));
                  (js "text", JStr text) ])
  | Throw e => Throw e
  end.

(** What [scripting.executeScript] resolves to for a frame in which the
    function ran: the entry of the frame holds under [result] what the
    function returned, and has no [result] when the function threw. *)
Definition frame_of (returned : outcome jsval) : jsval :=
  match returned with
  | Ret r => JObj [ (js "frameId", num 0); (js "result", r) ]
  | Throw _ => JObj [ (js "frameId", num 0) ]
  end.

Section Submission.
(** The five parameters; [score] is the value after its default, 1,
    has been applied (every caller in the program passes 1). *)
Variables courseId sequenceId activityId activityStepId score : jsval.

(** The callback of [messages.map]: the stored message with the target
    identifiers, score, fresh attempt identifiers and end timestamp
    written over it. *)
Definition update_message (msg : jsval) : IO jsval :=
  attempt <- generateUUID ;;
  stepAttempt <- generateUUID ;;
  stamp <- now_iso ;;
  ret (JObj (set_props (spread msg)
         [ (js "courseId", courseId);
           (js "sequenceId", sequenceId);
           (js "activityId", activityId);
           (js "activityStepId", activityStepId);
           (js "score", score);
           (js "activityAttemptId", JStr attempt);
           (js "activityStepAttemptId", JStr stepAttempt);
           (js "endTimestamp", JStr stamp) ])).

(** The message literal both the replay path (when the stored body has
    no messages) and the fallback build. *)
Definition new_message (agent : jsval) : IO jsval :=
  attempt <- generateUUID ;;
  stepAttempt <- generateUUID ;;
  stamp <- now_iso ;;
  ret (JObj [ (js "userAgent", agent);
              (js "courseId", courseId);
              (js "sequenceId", sequenceId);
              (js "version", num 1);
              (js "activityId", activityId);
              (js "activityAttemptId", JStr attempt);
              (js "activityStepId", activityStepId);
              (js "activityStepAttemptId", JStr stepAttempt);
              (js "answers", JArr []);
              (js "score", score);
              (js "skip", JBool false);
              (js "durationMs", num 745);
              (js "endTimestamp", JStr stamp) ]).

(** Lines 138-170: [bodyObj] after its messages are rewritten.  The
    nested object is mutated in place in the source; here the new
    [variables] is written back into [bodyObj]. *)
Definition rewrite_body (bodyObj : jsval) : IO jsval :=
  vars <- of_outcome (get_prop bodyObj "variables") ;;
  match opt_prop vars "messages" with
  | JArr (m :: ms) =>
      mapped <- map_io update_message (m :: ms) ;;
      vars' <- of_outcome (assign_prop vars "messages" (JArr mapped)) ;;
      of_outcome (assign_prop bodyObj "variables" vars')
  | _ =>
      let vars0 := if truthy vars then vars else JObj [] in
      bodyObj1 <- of_outcome (assign_prop bodyObj "variables" vars0) ;;
      msg <- new_message (JStr (navigator_userAgent W)) ;;
      vars1 <- of_outcome (assign_prop vars0 "messages" (JArr [msg])) ;;
      of_outcome (assign_prop bodyObj1 "variables" vars1)
  end.

(** The body of the [try] at lines 131-193.  [Some v] is the early
    [return v]; [None] is leaving the block without returning. *)
Definition replay : IO (option jsval) :=
  stored <- call_storage_get STORAGE_KEY ;;
  match stored with
  | Some storedReq =>
      match body storedReq with
      | Some (c :: text) =>
          bodyObj <- of_outcome (parse W (c :: text)) ;;
          newBody <- rewrite_body bodyObj ;;
          tab <- call_getTab ;;
          tabId <- of_outcome (get_prop tab "id") ;;
          results <- call_executeScript tabId
                       {| page_url := url storedReq;
                          page_method := method storedReq;
                          page_headers := headers storedReq;
                          page_body := newBody |} ;;
          ret (Some (opt_prop (opt_first results) "result"))
      | _ => ret None
      end
  | None => ret None
  end.

(** Lines 199-248: the direct request. *)
Definition direct_fallback : IO jsval :=
  let agent := if truthy (JStr (navigator_userAgent W))
               then JStr (navigator_userAgent W) else str "Mozilla/5.0" in
  msg <- new_message agent ;;
  post_graphql {| operationName := "AddProgress";
                  variables := JObj [ (js "userId", str FALLBACK_USER_ID);
                                      (js "messages", JArr [msg]) ];
                  query := QUERY_AddProgress |}.

Definition addProgressForActivity_body : IO jsval :=
  if negb (truthy courseId) || negb (truthy sequenceId)
     || negb (truthy activityId) || negb (truthy activityStepId)
  then throw (JsError "courseId, sequenceId, activityId, and activityStepId are required")
  else if token_missing then throw (JsError "Authentication token is missing.")
  else
    returned <- try_catch replay
                  (fun e =>
                     console Debug
                       [LText "Failed to use stored request, falling back to direct fetch";
                        LExn e] ;;
                     ret None) ;;
    match returned with
    | Some v => ret v
    | None => direct_fallback
    end.

(** The call, bracketed by its two bookkeeping events. *)
Definition addProgressForActivity : IO jsval :=
  fun h =>
    let enter := EvEnter courseId sequenceId activityId activityStepId score in
    let (r, evs) := addProgressForActivity_body (h ++ [enter]) in
    (r, enter :: evs ++ [EvLeave (is_ret r)]).
End Submission.

(** The call made the direct request, and the answer to that request
    decides its outcome. *)
Definition decided_by_direct_request (x : outcome jsval * list event) : Prop :=
  exists b ans,
    In (EvFetch GRAPHQL_ENDPOINT (init_of b) ans) (snd x)
    /\ operationName b = "AddProgress"
    /\ fst x = Trace.direct_outcome W ans.

(** *** [processAllProgress] *)

(** Lines 323-332, one turn of the step loop. *)
Definition walk_step (courseId sequence activity step : jsval) : IO unit :=
  sequenceId <- of_outcome (get_prop sequence "sequenceId") ;;
  activityId <- of_outcome (get_prop activity "activityId") ;;
  stepId <- of_outcome (get_prop step "activityStepId") ;;
  _ <- addProgressForActivity courseId sequenceId activityId stepId (num 1) ;;
  console Log [LText "      ✓ Added progress for step: "; LVal stepId].

(** Lines 335-342, the activity submitted as its own step. *)
Definition walk_whole (courseId sequence activity : jsval) : IO unit :=
  sequenceId <- of_outcome (get_prop sequence "sequenceId") ;;
  activityId <- of_outcome (get_prop activity "activityId") ;;
  _ <- addProgressForActivity courseId sequenceId activityId activityId (num 1) ;;
  console Log [LText "      ✓ Added progress for activity: "; LVal activityId].

(** Lines 320-343, the body of the per-activity [try].  The step loop is
    entered when [activity.steps] is a non-empty array. *)
Definition submit_activity (courseId sequence activity : jsval) : IO unit :=
  steps <- of_outcome (get_prop activity "steps") ;;
  match steps with
  | JArr (s0 :: rest) =>
      for_each (s0 :: rest) (walk_step courseId sequence activity)
  | _ => walk_whole courseId sequence activity
  end.

(** The line the [catch] of an activity writes. *)
Definition activity_failed_line (activityId : jsval) (e : exn) : event :=
  EvConsole ConsoleError
    [LText "      ✗ Failed to add progress for activity ";
     LVal activityId; LText ":"; LExn e].

(** The line the [catch] of a sequence writes. *)
Definition sequence_failed_line (sequenceSlug : jsstring) (e : exn) : event :=
  EvConsole ConsoleError
    [LText "  ✗ Failed to process sequence "; LStr sequenceSlug;
     LText ":"; LExn e].

(** Lines 317-346, one turn of the activity loop. *)
Definition walk_activity (courseId sequence : jsval) (total : nat)
    (turn : nat * jsval) : IO unit :=
  let (i, activity) := turn in
  activityId <- of_outcome (get_prop activity "activityId") ;;
  console Log [LText "    Step 3: Processing activity "; LNat (i + 1);
               LText "/"; LNat total; LText ": "; LVal activityId] ;;
  try_catch (submit_activity courseId sequence activity)
    (fun activityError => emit (activity_failed_line activityId activityError)).

(** Lines 296-306: [activities] after the optional parse. *)
Definition decode_activities (activities : jsval) : IO jsval :=
  match activities with
  | JStr s =>
      try_catch (of_outcome (parse W s))
        (fun e =>
           console Warn [LText "    Could not parse activities JSON:"; LExn e] ;;
           ret (JArr []))
  | _ => ret activities
  end.

(** Lines 287-347, the body of the per-sequence [try]. *)
Definition fetch_and_walk_sequence (locale courseId : jsval)
    (sequenceSlug : jsstring) : IO unit :=
  console Log [LText "Step 2: Fetching sequence details..."] ;;
  sequenceData <- getSequence courseId (JStr sequenceSlug) locale ;;
  let sequence := opt_prop (opt_prop sequenceData "data") "sequence" in
  if negb (truthy sequence) then
    console Log [LText "    No sequence data found for "; LStr sequenceSlug]
  else
    raw <- of_outcome (get_prop sequence "activities") ;;
    activities <- decode_activities raw ;;
    match activities with
    | JArr (a0 :: rest) =>
        let total := List.length (a0 :: rest) in
        console Log [LText "    Found "; LNat total; LText " activities"] ;;
        for_each (combine (seq 0 total) (a0 :: rest))
                 (walk_activity courseId sequence total)
    | _ =>
        console Log [LText "    No activities found for sequence ";
                     LStr sequenceSlug]
    end.

(** Lines 283-350, one turn of the sequence loop. *)
Definition walk_sequence (locale courseId : jsval) (sq : jsval) : IO unit :=
  title <- of_outcome (get_prop sq "title") ;;
  sequenceSlug <- of_outcome (titleToSlug_any title) ;;
  console Log [LText "  Processing sequence: "; LVal title; LText " (";
               LStr sequenceSlug; LText ")"] ;;
  try_catch (fetch_and_walk_sequence locale courseId sequenceSlug)
    (fun sequenceError => emit (sequence_failed_line sequenceSlug sequenceError)).

(** Lines 272-351, one turn of the course loop. *)
Definition walk_course (locale : jsval) (course : jsval) : IO unit :=
  courseId <- of_outcome (get_prop course "courseId") ;;
  title <- of_outcome (get_prop course "title") ;;
  console Log [LText (newline ++ "Processing course: ")%string; LVal courseId;
               LText " - "; LVal title] ;;
  sequences <- of_outcome (get_prop course "sequences") ;;
  if negb (truthy sequences) || is_zero (opt_prop sequences "length") then
    console Log [LText "No sequences found for course "; LVal courseId]
  else
    items <- of_outcome (iterate sequences) ;;
    for_each items (walk_sequence locale courseId).

(** [locale] has the default ["fr-FR"], which replaces [undefined]. *)
Definition processAllProgress (locale_arg : jsval) : IO unit :=
  let locale := match locale_arg with JUndef => str "fr-FR" | v => v end in
  try_catch
    (console Log [LText "Step 1: Fetching courses and progress..."] ;;
     coursesData <- getCoursesAndProgress locale ;;
     let courses := opt_prop (opt_prop coursesData "data") "assignedCourses" in
     if negb (truthy courses) then throw (JsError "No courses found")
     else
       count <- of_outcome (get_prop courses "length") ;;
       console Log [LText "Found "; LVal count; LText " courses"] ;;
       items <- of_outcome (iterate courses) ;;
       for_each items (walk_course locale) ;;
       console Log [LText (newline ++ "✓ All progress processing complete!")%string])
    (fun error =>
       console ConsoleError [LText "✗ Error processing progress:"; LExn error] ;;
       throw error).


(** *** Reading a run of [processAllProgress] *)

(** The call made for one step, none when reading an identifier throws
    before the call. *)
Definition expected_step (courseId sequence activity step : jsval)
  : list Trace.submission :=
  match get_prop sequence "sequenceId", get_prop activity "activityId",
        get_prop step "activityStepId" with
  | Ret sid, Ret aid, Ret stepId =>
      [{| Trace.sub_course := courseId; Trace.sub_sequence := sid;
          Trace.sub_activity := aid; Trace.sub_step := stepId;
          Trace.sub_score := num 1 |}]
  | _, _, _ => []
  end.

(** The top-level course fetch, at the point of the run where it is made. *)
Definition top_fetch (locale_arg : jsval) (h : list event)
  : outcome jsval * list event :=
  getCoursesAndProgress
    (match locale_arg with JUndef => str "fr-FR" | v => v end)
    (h ++ [EvConsole Log [LText "Step 1: Fetching courses and progress..."]]).

Definition assigned_courses (coursesData : jsval) : jsval :=
  opt_prop (opt_prop coursesData "data") "assignedCourses".

(** The title and slug shown by the line that opens a turn of the
    sequence loop. *)
Definition visit_of (e : event) : list (jsval * jsstring) :=
  match e with
  | EvConsole Log [LText _; LVal title; LText _; LStr sequenceSlug; LText _] =>
      [(title, sequenceSlug)]
  | _ => []
  end.

Definition no_visit (e : event) : bool :=
  match visit_of e with
  | [] => true
  | _ :: _ => false
  end.

(** The sequences a run has visited, in order. *)
Definition sequence_visits (evs : list event) : list (jsval * jsstring) :=
  flat_map visit_of evs.

(** The sequences of a course list, each with its title and slug, in the
    order of the payload. *)
Definition listed_visit (sq : jsval) : list (jsval * jsstring) :=
  match get_prop sq "title" with
  | Ret (JStr title) => [(JStr title, titleToSlug title)]
  | _ => []
  end.

Definition visits_of_course (course : jsval) : list (jsval * jsstring) :=
  match get_prop course "sequences" with
  | Ret (JArr items) => flat_map listed_visit items
  | _ => []
  end.

(** The call made for an activity submitted as its own step, none when
    reading an identifier throws before the call. *)
Definition expected_whole (courseId sequence activity : jsval)
  : list Trace.submission :=
  match get_prop sequence "sequenceId", get_prop activity "activityId" with
  | Ret sid, Ret aid =>
      [{| Trace.sub_course := courseId; Trace.sub_sequence := sid;
          Trace.sub_activity := aid; Trace.sub_step := aid;
          Trace.sub_score := num 1 |}]
  | _, _ => []
  end.

(** A sequence summary is an object with a string title. *)
Definition wf_summary (sq : jsval) : bool :=
  match get_prop sq "title" with
  | Ret (JStr _) => true
  | _ => false
  end.

(** A course is an object whose sequences, when present and not empty,
    are a list of sequence summaries. *)
Definition wf_course (course : jsval) : bool :=
  match get_prop course "sequences" with
  | Throw _ => false
  | Ret sequences =>
      if negb (truthy sequences) || is_zero (opt_prop sequences "length")
      then true
      else match sequences with
           | JArr items => forallb wf_summary items
           | _ => false
           end
  end.

Definition wf_courses (courses : jsval) : bool :=
  match courses with
  | JArr cs => forallb wf_course cs
  | _ => false
  end.

(** *** [createProgressRequest] *)

(** The callback of [messages.map] at lines 13-19: the message with fresh
    attempt identifiers, the end timestamp and the fixed duration written
    over it. *)
Definition refresh_message (msg : jsval) : IO jsval :=
  attempt <- generateUUID ;;
  stepAttempt <- generateUUID ;;
  stamp <- now_iso ;;
  ret (JObj (set_props (spread msg)
         [ (js "activityAttemptId", JStr attempt);
           (js "activityStepAttemptId", JStr stepAttempt);
           (js "endTimestamp", JStr stamp);
           (js "durationMs", num 745) ])).

(** [req.body || "{}"] *)
Definition body_text (req : Request) : jsstring :=
  match body req with
  | Some (c :: t) => c :: t
  | _ => js "{}"
  end.

(** Lines 10-19: the parsed body with its messages refreshed; [.map] is
    only there on an array.  The nested object is mutated in place in the source; here the
    new [variables] is written back into the body. *)
Definition refreshed_body (baseRequest : Request) : IO jsval :=
  bodyObj <- of_outcome (parse W (body_text baseRequest)) ;;
  vars <- of_outcome (get_prop bodyObj "variables") ;;
  messages <- of_outcome (get_prop vars "messages") ;;
  match messages with
  | JArr ms =>
      mapped <- map_io refresh_message ms ;;
      vars' <- of_outcome (assign_prop vars "messages" (JArr mapped)) ;;
      of_outcome (assign_prop bodyObj "variables" vars')
  | _ => throw TypeError
  end.

Section Stringify.
(** [JSON.stringify], which returns a string on what [JSON.parse] gave
    once strings and numbers are written into it. *)
Variable JSON_stringify : jsval -> jsstring.

(** Lines 7-23 *)
Definition createProgressRequest (baseRequest : Request) : IO Request :=
  b <- refreshed_body baseRequest ;;
  ret {| url := url baseRequest; method := method baseRequest;
         headers := headers baseRequest;
         body := Some (JSON_stringify b) |}.
End Stringify.

End WithWorld.
End AddProgress.

(** ** [components/TimeForm.tsx]: the selected-batch engine *)

Module TimeForm.
Import JS.
Local Open Scope string_scope.
Local Open Scope list_scope.

(** The two interfaces of the component state.  [SequenceItem.selected] is
    named [sequence_selected] here, since both records have the field. *)
Record Activity : Type := {
  activityId : jsstring;
  activityType : jsstring;
  selected : bool
}.

Record SequenceItem : Type := {
  courseId : jsstring;
  courseName : jsstring;
  sequenceId : jsstring;
  sequenceTitle : jsstring;
  sequence_selected : bool;
  expanded : bool;
  activities : list Activity;
  loading : bool
}.

(** The pieces of text the handler writes into [result].  [NullText] is the
    text of [null], which string concatenation would prepend. *)
Inductive report_line : Type :=
| NullText
| Processing (total : nat)
| SequenceDone (course title : jsstring) (steps activities : nat)
| SequenceNoData (course title : jsstring)
| SequenceFailed (course title : jsstring) (err : exn)
| Complete (succeeded failed : nat).

Inductive error_text : Type :=
| SelectAtLeastOne
| MessageOf (err : exn).

(** The React state the handler writes, and the three counters it declares
    with [let], which keep their value when a [throw] unwinds to a handler.
    The counters count list elements, far below the range where a double
    stops being exact, so they are natural numbers here. *)
Record form : Type := {
  error : option error_text;
  result : option (list report_line);
  processing : bool;
  successCount : nat;
  errorCount : nat;
  stepsProcessed : nat
}.

Definition F (A : Type) : Type :=
  list event -> form -> outcome A * list event * form.

Definition ret {A} (a : A) : F A := fun _ st => (Ret a, [], st).

Definition bind {A B} (m : F A) (k : A -> F B) : F B :=
  fun h st =>
    match m h st with
    | (Ret a, e1, st1) =>
        match k a (h ++ e1) st1 with
        | (r, e2, st2) => (r, e1 ++ e2, st2)
        end
    | (Throw e, e1, st1) => (Throw e, e1, st1)
    end.

Definition try_catch {A} (m : F A) (handler : exn -> F A) : F A :=
  fun h st =>
    match m h st with
    | (Ret a, e1, st1) => (Ret a, e1, st1)
    | (Throw e, e1, st1) =>
        match handler e (h ++ e1) st1 with
        | (r, e2, st2) => (r, e1 ++ e2, st2)
        end
    end.

(** [try { m } finally { cleanup }] for a [cleanup] that does not throw. *)
Definition try_finally {A} (m : F A) (cleanup : F unit) : F A :=
  fun h st =>
    match m h st with
    | (r, e1, st1) =>
        match cleanup (h ++ e1) st1 with
        | (_, e2, st2) => (r, e1 ++ e2, st2)
        end
    end.

Definition lift {A} (m : IO A) : F A :=
  fun h st => let (r, e) := m h in (r, e, st).

Definition of_outcome {A} (o : outcome A) : F A := fun _ st => (o, [], st).

Definition modify (f : form -> form) : F unit := fun _ st => (Ret tt, [], f st).

Definition get : F form := fun _ st => (Ret st, [], st).

Fixpoint for_each {A} (xs : list A) (bodyf : A -> F unit) : F unit :=
  match xs with
  | [] => ret tt
  | x :: r => bind (bodyf x) (fun _ => for_each r bodyf)
  end.

Declare Scope form_scope.
Delimit Scope form_scope with form.
Notation "x <- m ;; k" := (bind m (fun x => k))
  (at level 61, m at next level, right associativity) : form_scope.
Notation "m ;; k" := (bind m (fun _ => k))
  (at level 61, right associativity) : form_scope.
Local Open Scope form_scope.

(** *** State updates *)

Definition setError (e : error_text) : F unit :=
  modify (fun st => {| error := Some e; result := result st;
                       processing := processing st;
                       successCount := successCount st;
                       errorCount := errorCount st;
                       stepsProcessed := stepsProcessed st |}).

Definition with_result (r : option (list report_line)) (st : form) : form :=
  {| error := error st; result := r; processing := processing st;
     successCount := successCount st; errorCount := errorCount st;
     stepsProcessed := stepsProcessed st |}.

Definition setResult (lines : list report_line) : F unit :=
  modify (with_result (Some lines)).

(** [setResult((prev) => prev + line)] *)
Definition appendResult (line : report_line) : F unit :=
  modify (fun st =>
    with_result (Some (match result st with
                       | Some ls => ls ++ [line]
                       | None => [NullText; line]
                       end)) st).

Definition setProcessing (b : bool) : F unit :=
  modify (fun st => {| error := error st; result := result st;
                       processing := b;
                       successCount := successCount st;
                       errorCount := errorCount st;
                       stepsProcessed := stepsProcessed st |}).

Definition set_counters (s e p : nat) (st : form) : form :=
  {| error := error st; result := result st; processing := processing st;
     successCount := s; errorCount := e; stepsProcessed := p |}.

Definition add_success (n : nat) : F unit :=
  modify (fun st => set_counters (successCount st + n) (errorCount st)
                                 (stepsProcessed st) st).

Definition add_error (n : nat) : F unit :=
  modify (fun st => set_counters (successCount st) (errorCount st + n)
                                 (stepsProcessed st) st).

Definition add_steps (n : nat) : F unit :=
  modify (fun st => set_counters (successCount st) (errorCount st)
                                 (stepsProcessed st + n) st).

Definition reset_steps : F unit :=
  modify (fun st => set_counters (successCount st) (errorCount st) 0 st).

Definition reset_counts : F unit :=
  modify (fun st => set_counters 0 0 (stepsProcessed st) st).

Definition onError (e : exn) : F unit := fun _ st => (Ret tt, [EvOnError e], st).

(** *** [handleProcessSelected] *)

Definition selected_of (sq : SequenceItem) : list Activity :=
  filter selected (activities sq).

(** Lines 147-152 *)
Definition totalActivities (sequences : list SequenceItem) : nat :=
  fold_left
    (fun total sq =>
       if sequence_selected sq then total + List.length (selected_of sq) else total)
    sequences 0.

(** *** What a run is expected to submit, and how it moves the counters *)

(** The call made for one step of an activity: none when reading an
    identifier throws before the call. *)
Definition expected_step (sq : SequenceItem) (sequence activity step : jsval)
  : list Trace.submission :=
  match get_prop sequence "sequenceId", get_prop activity "activityId",
        get_prop step "activityStepId" with
  | Ret sid, Ret aid, Ret stepId =>
      [{| Trace.sub_course := JStr (courseId sq); Trace.sub_sequence := sid;
          Trace.sub_activity := aid; Trace.sub_step := stepId;
          Trace.sub_score := num 1 |}]
  | _, _, _ => []
  end.

(** The call made for an activity submitted as its own step. *)
Definition expected_whole (sq : SequenceItem) (sequence activity : jsval)
  : list Trace.submission :=
  match get_prop sequence "sequenceId", get_prop activity "activityId" with
  | Ret sid, Ret aid =>
      [{| Trace.sub_course := JStr (courseId sq); Trace.sub_sequence := sid;
          Trace.sub_activity := aid; Trace.sub_step := aid;
          Trace.sub_score := num 1 |}]
  | _, _ => []
  end.

(** [st'] is [st] with the three counters moved up by the given amounts. *)
Definition advanced (st st' : form) (succeeded failed steps : nat) : Prop :=
  successCount st' = successCount st + succeeded
  /\ errorCount st' = errorCount st + failed
  /\ stepsProcessed st' = stepsProcessed st + steps
  /\ error st' = error st
  /\ result st' = result st
  /\ processing st' = processing st.

(** The sequences the handler works on: the selected ones in which an
    activity is selected. *)
Definition processed (sq : SequenceItem) : bool :=
  sequence_selected sq
  && match selected_of sq with [] => false | _ :: _ => true end.

(** A line of the report about the sequence. *)
Definition line_about (sq : SequenceItem) (line : report_line) : Prop :=
  match line with
  | SequenceDone c t _ n =>
      c = courseName sq /\ t = sequenceTitle sq
      /\ n = List.length (selected_of sq)
  | SequenceNoData c t => c = courseName sq /\ t = sequenceTitle sq
  | SequenceFailed c t _ => c = courseName sq /\ t = sequenceTitle sq
  | _ => False
  end.

(** The fresh list has an entry with the identifier of the selected
    activity. *)
Definition listed_in (fresh : list jsval) (a : Activity) : bool :=
  existsb (fun x => strict_eq_string (opt_prop x "activityId") (activityId a))
          fresh.

(** The state as the component shows it is as it was. *)
Definition ui_kept (st st' : form) : Prop :=
  error st' = error st /\ result st' = result st
  /\ processing st' = processing st.

(** A computation that leaves [error], [result] and [processing] alone and
    adds only events that satisfy [P]. *)
Definition discreet (P : event -> bool) {A} (m : F A) : Prop :=
  forall h st,
    ui_kept st (snd (m h st)) /\ forallb P (snd (fst (m h st))) = true.

(** The text of [result] after [line] is appended. *)
Definition appended (r : option (list report_line)) (line : report_line)
  : option (list report_line) :=
  Some (match r with
        | Some ls => ls ++ [line]
        | None => [NullText; line]
        end).

Section WithWorld.
Variable W : World.

(** Lines 201-212: one step, inside its own [try]. *)
Definition submit_step (sq : SequenceItem) (sequence activity step : jsval)
  : F unit :=
  try_catch
    (sid <- of_outcome (get_prop sequence "sequenceId") ;;
     aid <- of_outcome (get_prop activity "activityId") ;;
     stepId <- of_outcome (get_prop step "activityStepId") ;;
     _ <- lift (AddProgress.addProgressForActivity W
                  (JStr (courseId sq)) sid aid stepId (num 1)) ;;
     add_steps 1)
    (fun _ => ret tt).

(** Lines 217-229: the activity submitted as its own step. *)
Definition submit_whole (sq : SequenceItem) (sequence activity : jsval)
  : F unit :=
  try_catch
    (sid <- of_outcome (get_prop sequence "sequenceId") ;;
     aid <- of_outcome (get_prop activity "activityId") ;;
     _ <- lift (AddProgress.addProgressForActivity W
                  (JStr (courseId sq)) sid aid aid (num 1)) ;;
     add_steps 1 ;;
     add_success 1)
    (fun _ => add_error 1).

(** Lines 199-230: an activity found in the fresh list. *)
Definition process_activity (sq : SequenceItem) (sequence activity : jsval)
  : F unit :=
  steps <- of_outcome (get_prop activity "steps") ;;
  if truthy steps && Array_isArray steps then
    items <- of_outcome (iterate steps) ;;
    for_each items (submit_step sq sequence activity) ;;
    add_success 1
  else
    submit_whole sq sequence activity.

(** Lines 196-230: one turn of the loop over the selected activities. *)
Definition process_selected (sq : SequenceItem) (sequence : jsval)
    (fresh : list jsval) (selectedAct : Activity) : F unit :=
  activity <- of_outcome (find_activity fresh (activityId selectedAct)) ;;
  if negb (truthy activity) then ret tt
  else process_activity sq sequence activity.

(** Lines 184-192: the fresh [activities], parsed when it is a string and
    replaced by the empty list when it is not an array. *)
Definition normalize_activities (raw : jsval) : outcome (list jsval) :=
  match raw with
  | JStr s =>
      match parse W s with
      | Ret (JArr l) => Ret l
      | Ret _ => Ret []
      | Throw e => Throw e
      end
  | JArr l => Ret l
  | _ => Ret []
  end.

(** Lines 172-237, the body of the per-sequence [try]. *)
Definition fetch_and_process (sq : SequenceItem) (chosen : list Activity)
  : F unit :=
  let seqSlug := AddProgress.titleToSlug W (sequenceTitle sq) in
  seqData <- lift (AddProgress.getSequence W (JStr (courseId sq))
                     (JStr seqSlug) (str "fr-FR")) ;;
  let sequence := opt_prop (opt_prop seqData "data") "sequence" in
  if negb (truthy sequence) then
    appendResult (SequenceNoData (courseName sq) (sequenceTitle sq)) ;;
    add_error (List.length chosen)
  else
    raw <- of_outcome (get_prop sequence "activities") ;;
    fresh <- of_outcome (normalize_activities raw) ;;
    reset_steps ;;
    for_each chosen (process_selected sq sequence fresh) ;;
    st <- get ;;
    appendResult (SequenceDone (courseName sq) (sequenceTitle sq)
                    (stepsProcessed st) (List.length chosen)).

(** Lines 166-246, one turn of the loop over the sequences. *)
Definition process_sequence (sq : SequenceItem) : F unit :=
  if negb (sequence_selected sq) then ret tt
  else
    let chosen := selected_of sq in
    match chosen with
    | [] => ret tt
    | _ :: _ =>
        try_catch (fetch_and_process sq chosen)
          (fun err =>
             appendResult (SequenceFailed (courseName sq) (sequenceTitle sq) err) ;;
             add_error (List.length chosen))
    end.

(** The fresh fetch of a sequence, as [process_sequence] issues it. *)
Definition sequence_fetch (sq : SequenceItem) : IO jsval :=
  AddProgress.getSequence W (JStr (courseId sq))
    (JStr (AddProgress.titleToSlug W (sequenceTitle sq))) (str "fr-FR").

(** The report line of a failed fetch: the fetch threw, or what it returned
    carries no sequence.  [None] when the fetch did not fail. *)
Definition fetch_failure_line (sq : SequenceItem) (o : outcome jsval)
  : option report_line :=
  match o with
  | Throw e => Some (SequenceFailed (courseName sq) (sequenceTitle sq) e)
  | Ret seqData =>
      if truthy (opt_prop (opt_prop seqData "data") "sequence") then None
      else Some (SequenceNoData (courseName sq) (sequenceTitle sq))
  end.

Definition handleProcessSelected (sequences : list SequenceItem) : F unit :=
  let total := totalActivities sequences in
  if (total =? 0)%nat then setError SelectAtLeastOne
  else
    setProcessing true ;;
    setResult [Processing total] ;;
    reset_counts ;;
    try_finally
      (try_catch
         (for_each sequences process_sequence ;;
          st <- get ;;
          appendResult (Complete (successCount st) (errorCount st)))
         (fun err => setError (MessageOf err) ;; onError err))
      (setProcessing false).

End WithWorld.
End TimeForm.

(** Accessors for the result of running a form computation. *)
Definition outcome_of {A S} (x : outcome A * list event * S) : outcome A := fst (fst x).
Definition events_of {A S} (x : outcome A * list event * S) : list event := snd (fst x).
Definition state_of {A S} (x : outcome A * list event * S) : S := snd x.

(** ** [components/TimeForm.tsx]: loading and selecting

    The handlers that fill and edit the list the component shows.  The
    interfaces declare the identifier fields as strings, but the values
    written into them come from the payloads, untyped, and are stored as they
    are: the rows keep them as [jsval]. *)

Module TimeFormState.
Import JS.
Local Open Scope string_scope.
Local Open Scope list_scope.

Record ActivityRow : Type := {
  act_id : jsval;
  act_type : jsval;
  act_selected : bool
}.

Record SequenceRow : Type := {
  row_courseId : jsval;
  row_courseName : jsval;
  row_sequenceId : jsval;
  row_sequenceTitle : jsval;
  row_selected : bool;
  row_expanded : bool;
  row_activities : list ActivityRow;
  row_loading : bool
}.

(** The texts [handleLoadSequences] writes into [error] and [result]. *)
Inductive load_error : Type :=
| NoCoursesFound
| MessageOf (err : exn).

Inductive load_result : Type :=
| Loaded (n : nat).

(** The React state these handlers write. *)
Record panel : Type := {
  sequences : list SequenceRow;
  loading : bool;
  error : option load_error;
  result : option load_result
}.

(** *** Computations over the state *)

Definition M (A : Type) : Type :=
  list event -> panel -> outcome A * list event * panel.

Definition ret {A} (a : A) : M A := fun _ st => (Ret a, [], st).

Definition throw {A} (e : exn) : M A := fun _ st => (Throw e, [], st).

Definition bind {A B} (m : M A) (k : A -> M B) : M B :=
  fun h st =>
    match m h st with
    | (Ret a, e1, st1) =>
        match k a (h ++ e1) st1 with
        | (r, e2, st2) => (r, e1 ++ e2, st2)
        end
    | (Throw e, e1, st1) => (Throw e, e1, st1)
    end.

Definition try_catch {A} (m : M A) (handler : exn -> M A) : M A :=
  fun h st =>
    match m h st with
    | (Ret a, e1, st1) => (Ret a, e1, st1)
    | (Throw e, e1, st1) =>
        match handler e (h ++ e1) st1 with
        | (r, e2, st2) => (r, e1 ++ e2, st2)
        end
    end.

(** [try { m } finally { cleanup }] for a [cleanup] that does not throw. *)
Definition try_finally {A} (m : M A) (cleanup : M unit) : M A :=
  fun h st =>
    match m h st with
    | (r, e1, st1) =>
        match cleanup (h ++ e1) st1 with
        | (_, e2, st2) => (r, e1 ++ e2, st2)
        end
    end.

Definition lift {A} (m : IO A) : M A :=
  fun h st => let (r, e) := m h in (r, e, st).

Definition of_outcome {A} (o : outcome A) : M A := fun _ st => (o, [], st).

Definition modify (f : panel -> panel) : M unit := fun _ st => (Ret tt, [], f st).

Definition emit (e : event) : M unit := fun _ st => (Ret tt, [e], st).

Declare Scope panel_scope.
Delimit Scope panel_scope with panel.
Notation "x <- m ;; k" := (bind m (fun x => k))
  (at level 61, m at next level, right associativity) : panel_scope.
Notation "m ;; k" := (bind m (fun _ => k))
  (at level 61, right associativity) : panel_scope.
Local Open Scope panel_scope.

Definition setSequences (rows : list SequenceRow) : M unit :=
  modify (fun st => {| sequences := rows; loading := loading st;
                       error := error st; result := result st |}).

Definition setLoading (b : bool) : M unit :=
  modify (fun st => {| sequences := sequences st; loading := b;
                       error := error st; result := result st |}).

Definition setError (e : option load_error) : M unit :=
  modify (fun st => {| sequences := sequences st; loading := loading st;
                       error := e; result := result st |}).

Definition setResult (r : option load_result) : M unit :=
  modify (fun st => {| sequences := sequences st; loading := loading st;
                       error := error st; result := r |}).

Definition onError (e : exn) : M unit := emit (EvOnError e).

(** *** Sequencing of plain outcomes *)

Definition and_then {A B} (o : outcome A) (k : A -> outcome B) : outcome B :=
  match o with
  | Ret a => k a
  | Throw e => Throw e
  end.

(** [xs.map(f)] for a callback that may throw. *)
Fixpoint map_outcome {A B} (f : A -> outcome B) (xs : list A) : outcome (list B) :=
  match xs with
  | [] => Ret []
  | x :: r =>
      and_then (f x) (fun y =>
      and_then (map_outcome f r) (fun ys => Ret (y :: ys)))
  end.

(** A loop that pushes what each turn yields, and stops at the first turn
    that throws. *)
Fixpoint gather {A B} (f : A -> outcome (list B)) (xs : list A) : outcome (list B) :=
  match xs with
  | [] => Ret []
  | x :: r =>
      and_then (f x) (fun ys =>
      and_then (gather f r) (fun zs => Ret (ys ++ zs)))
  end.

(** *** The selection handlers, lines 121-143 and 275-278 *)

Definition deselect_activity (a : ActivityRow) : ActivityRow :=
  {| act_id := act_id a; act_type := act_type a; act_selected := false |}.

Definition flip_activity (a : ActivityRow) : ActivityRow :=
  {| act_id := act_id a; act_type := act_type a;
     act_selected := negb (act_selected a) |}.

Definition with_activities (row : SequenceRow) (acts : list ActivityRow)
  : SequenceRow :=
  {| row_courseId := row_courseId row; row_courseName := row_courseName row;
     row_sequenceId := row_sequenceId row;
     row_sequenceTitle := row_sequenceTitle row;
     row_selected := row_selected row; row_expanded := row_expanded row;
     row_activities := acts; row_loading := row_loading row |}.

Definition with_selected (row : SequenceRow) (b : bool) : SequenceRow :=
  {| row_courseId := row_courseId row; row_courseName := row_courseName row;
     row_sequenceId := row_sequenceId row;
     row_sequenceTitle := row_sequenceTitle row;
     row_selected := b; row_expanded := row_expanded row;
     row_activities := row_activities row; row_loading := row_loading row |}.

Definition with_expanded (row : SequenceRow) (b : bool) : SequenceRow :=
  {| row_courseId := row_courseId row; row_courseName := row_courseName row;
     row_sequenceId := row_sequenceId row;
     row_sequenceTitle := row_sequenceTitle row;
     row_selected := row_selected row; row_expanded := b;
     row_activities := row_activities row; row_loading := row_loading row |}.

Definition with_loading (row : SequenceRow) (b : bool) : SequenceRow :=
  {| row_courseId := row_courseId row; row_courseName := row_courseName row;
     row_sequenceId := row_sequenceId row;
     row_sequenceTitle := row_sequenceTitle row;
     row_selected := row_selected row; row_expanded := row_expanded row;
     row_activities := row_activities row; row_loading := b |}.

(** [xs[i] = x] on a copy of [xs], for an index within the list. *)
Fixpoint replace_at {A} (i : nat) (x : A) (xs : list A) : list A :=
  match xs, i with
  | [], _ => []
  | _ :: r, 0 => x :: r
  | y :: r, S j => y :: replace_at j x r
  end.

(** Lines 130-132 *)
Definition select_all (rows : list SequenceRow) : list SequenceRow :=
  map (fun row => with_selected row true) rows.

(** Lines 135-143 *)
Definition deselect_all (rows : list SequenceRow) : list SequenceRow :=
  map (fun row =>
         with_activities (with_selected row false)
           (map deselect_activity (row_activities row)))
      rows.

(** Lines 121-127, the updater: reading a property of the element at an
    index outside its list throws. *)
Definition toggle_activity (seqIndex actIndex : nat) (rows : list SequenceRow)
  : outcome (list SequenceRow) :=
  match nth_error rows seqIndex with
  | None => Throw TypeError
  | Some row =>
      match nth_error (row_activities row) actIndex with
      | None => Throw TypeError
      | Some a =>
          Ret (replace_at seqIndex
                 (with_activities row
                    (replace_at actIndex (flip_activity a) (row_activities row)))
                 rows)
      end
  end.

Definition update_sequences (f : list SequenceRow -> outcome (list SequenceRow))
  : M unit :=
  fun h st =>
    match f (sequences st) with
    | Ret rows => setSequences rows h st
    | Throw e => (Throw e, [], st)
    end.

Definition handleToggleActivity (seqIndex actIndex : nat) : M unit :=
  update_sequences (toggle_activity seqIndex actIndex).

Definition handleSelectAll : M unit :=
  update_sequences (fun rows => Ret (select_all rows)).

Definition handleDeselectAll : M unit :=
  update_sequences (fun rows => Ret (deselect_all rows)).

Definition selected_count (row : SequenceRow) : nat :=
  List.length (filter act_selected (row_activities row)).

(** Lines 275-278: the number the counter shows, and the one the button of
    [handleProcessSelected] is enabled by. *)
Definition selectedActivitiesCount (rows : list SequenceRow) : nat :=
  fold_left (fun count row => count + selected_count row) rows 0.

(** *** The rows as the declared interfaces see them *)

Definition typed_activity (a : ActivityRow) : option TimeForm.Activity :=
  match act_id a, act_type a with
  | JStr i, JStr t =>
      Some {| TimeForm.activityId := i; TimeForm.activityType := t;
              TimeForm.selected := act_selected a |}
  | _, _ => None
  end.

Fixpoint all_some {A B} (f : A -> option B) (xs : list A) : option (list B) :=
  match xs with
  | [] => Some []
  | x :: r =>
      match f x, all_some f r with
      | Some y, Some ys => Some (y :: ys)
      | _, _ => None
      end
  end.

Definition typed_row (row : SequenceRow) : option TimeForm.SequenceItem :=
  match row_courseId row, row_courseName row, row_sequenceId row,
        row_sequenceTitle row, all_some typed_activity (row_activities row) with
  | JStr c, JStr n, JStr i, JStr t, Some acts =>
      Some {| TimeForm.courseId := c; TimeForm.courseName := n;
              TimeForm.sequenceId := i; TimeForm.sequenceTitle := t;
              TimeForm.sequence_selected := row_selected row;
              TimeForm.expanded := row_expanded row;
              TimeForm.activities := acts;
              TimeForm.loading := row_loading row |}
  | _, _, _, _, _ => None
  end.

(** The state, when every identifier in it is a string. *)
Definition typed_rows (rows : list SequenceRow) : option (list TimeForm.SequenceItem) :=
  all_some typed_row rows.

(** No activity is selected in a sequence that is not. *)
Definition consistent_row (row : SequenceRow) : bool :=
  row_selected row || (selected_count row =? 0)%nat.

Definition consistent (rows : list SequenceRow) : bool :=
  forallb consistent_row rows.

Definition unselected (a : ActivityRow) : bool := negb (act_selected a).

(** A row as [handleLoadSequences] builds it. *)
Definition fresh_row (row : SequenceRow) : bool :=
  negb (row_selected row) && negb (row_expanded row)
  && negb (row_loading row)
  && match row_activities row with [] => true | _ :: _ => false end.

(** *** What a load is expected to store *)

Definition row_of (course sq : jsval) : SequenceRow :=
  {| row_courseId := opt_prop course "courseId";
     row_courseName := opt_prop course "title";
     row_sequenceId := opt_prop sq "id";
     row_sequenceTitle := opt_prop sq "title";
     row_selected := false; row_expanded := false;
     row_activities := []; row_loading := false |}.

Definition listed_sequences (course : jsval) : list jsval :=
  match opt_prop course "sequences" with
  | JArr items => items
  | _ => []
  end.

(** One row per sequence of each course, in the order of the payload. *)
Definition expected_rows (courses : list jsval) : list SequenceRow :=
  flat_map (fun course => map (row_of course) (listed_sequences course)) courses.

(** A course that is not [null], whose [sequences] is a list without
    [null] entries, or is absent or falsy. *)
Definition plain_course (course : jsval) : bool :=
  negb (nullish course)
  && match opt_prop course "sequences" with
     | JArr items => forallb (fun sq => negb (nullish sq)) items
     | v => negb (truthy v)
     end.

Section WithWorld.
Variable W : World.

(** The comparison [v > 0] when [v] is a string, an array or an object:
    it goes through ToPrimitive and ToNumber, and throws when the value
    cannot be converted. *)
Variable coerced_gt_zero : jsval -> outcome bool.

(** [v > 0] *)
Definition gt_zero (v : jsval) : outcome bool :=
  match v with
  | JUndef | JNull => Ret false
  | JBool b => Ret b
  | JNum q => Ret (0 <? Qnum q)%Z
  | JStr _ | JArr _ | JObj _ => coerced_gt_zero v
  end.

(** Lines 52-61: the row pushed for one sequence of a course. *)
Definition new_row (course sq : jsval) : outcome SequenceRow :=
  and_then (get_prop course "courseId") (fun courseId =>
  and_then (get_prop course "title") (fun courseName =>
  and_then (get_prop sq "id") (fun sequenceId =>
  and_then (get_prop sq "title") (fun sequenceTitle =>
  Ret {| row_courseId := courseId; row_courseName := courseName;
         row_sequenceId := sequenceId; row_sequenceTitle := sequenceTitle;
         row_selected := false; row_expanded := false;
         row_activities := []; row_loading := false |})))).

(** Lines 50-63, one turn of the loop over the courses. *)
Definition rows_of_course (course : jsval) : outcome (list SequenceRow) :=
  and_then (get_prop course "sequences") (fun seqs =>
  if negb (truthy seqs) then Ret []
  else
    and_then (gt_zero (opt_prop seqs "length")) (fun some =>
    if some then
      and_then (iterate seqs) (fun items => map_outcome (new_row course) items)
    else Ret [])).

(** Lines 48-64 *)
Definition collect_rows (courses : jsval) : outcome (list SequenceRow) :=
  and_then (iterate courses) (fun items => gather rows_of_course items).

(** Lines 37-74 *)
Definition handleLoadSequences : M unit :=
  setError None ;;
  setResult None ;;
  setLoading true ;;
  try_finally
    (try_catch
       (data <- lift (AddProgress.getCoursesAndProgress W (str "fr-FR")) ;;
        let courses := opt_prop (opt_prop data "data") "assignedCourses" in
        if negb (truthy courses) then setError (Some NoCoursesFound)
        else
          seqItems <- of_outcome (collect_rows courses) ;;
          setSequences seqItems ;;
          setResult (Some (Loaded (List.length seqItems))))
       (fun err => setError (Some (MessageOf err)) ;; onError err))
    (setLoading false).

(** Lines 98-102, the callback of [activities.map]. *)
Definition activity_row (act : jsval) : outcome ActivityRow :=
  and_then (get_prop act "activityId") (fun activityId =>
  and_then (get_prop act "activityType") (fun activityType =>
  Ret {| act_id := activityId;
         act_type := if truthy activityType then activityType
                     else str "unknown";
         act_selected := false |})).

(** Lines 91-104: the activities of the row after the payload is read;
    they stay as they are when the payload carries no sequence or no
    list. *)
Definition loaded_activities (row : SequenceRow) (seqData : jsval)
  : outcome (list ActivityRow) :=
  let sequence := opt_prop (opt_prop seqData "data") "sequence" in
  if negb (truthy sequence) then Ret (row_activities row)
  else
    and_then (get_prop sequence "activities") (fun raw =>
    and_then (match raw with
              | JStr s => parse W s
              | _ => Ret raw
              end) (fun activities =>
    match activities with
    | JArr acts => map_outcome activity_row acts
    | _ => Ret (row_activities row)
    end)).

(** The line the [catch] of [handleToggleSequence] writes. *)
Definition load_failed_line (title : jsval) (err : exn) : event :=
  EvConsole ConsoleError
    [LText "Failed to load activities for "; LVal title; LText ":"; LExn err].

(** Lines 87-111: the [try] and its [catch], on the row that is selected
    and marked as loading; the value is the row as they leave it. *)
Definition expand_row (row : SequenceRow) : M SequenceRow :=
  try_catch
    (seqSlug <- of_outcome (AddProgress.titleToSlug_any W (row_sequenceTitle row)) ;;
     seqData <- lift (AddProgress.getSequence W (row_courseId row)
                        (JStr seqSlug) (str "fr-FR")) ;;
     acts <- of_outcome (loaded_activities row seqData) ;;
     ret (with_loading (with_expanded (with_activities row acts) true) false))
    (fun err =>
       emit (load_failed_line (row_sequenceTitle row) err) ;;
       ret (with_loading row false)).

(** Lines 77-118.  The element at [index] is mutated in place in the
    source, in an array that shares its elements with the state; here the
    row is replaced in the list. *)
Definition handleToggleSequence (index : nat) : M unit :=
  fun h st =>
    let rows := sequences st in
    match nth_error rows index with
    | None => (Throw TypeError, [], st)
    | Some row0 =>
        let row := with_selected row0 (negb (row_selected row0)) in
        if row_selected row && negb (row_expanded row) then
          (setSequences (replace_at index (with_loading row true) rows) ;;
           row' <- expand_row (with_loading row true) ;;
           setSequences (replace_at index row' rows)) h st
        else if negb (row_selected row) then
          setSequences
            (replace_at index
               (with_activities row
                  (map deselect_activity (row_activities row)))
               rows) h st
        else setSequences (replace_at index row rows) h st
    end.

End WithWorld.
End TimeFormState.

(** ** Running examples

    [BasicJSON] is [JSON.parse] on a fragment of JSON: literals, integers,
    strings without escapes, arrays, and objects whose keys are not array
    indices.  On that fragment it agrees with the built-in; a text outside the
    fragment is rejected, which is not claimed of the built-in.  [print]
    writes a value of the fragment as text. *)

Module BasicJSON.

Definition is_ws (c : N) : bool :=
  ((c =? 32) || (c =? 9) || (c =? 10) || (c =? 13))%N.

Fixpoint skip_ws (s : jsstring) : jsstring :=
  match s with
  | c :: r => if is_ws c then skip_ws r else s
  | [] => []
  end.

Fixpoint strip_prefix (p s : jsstring) : option jsstring :=
  match p, s with
  | [], _ => Some s
  | x :: p', y :: s' => if (x =? y)%N then strip_prefix p' s' else None
  | _ :: _, [] => None
  end.

(** The characters of a string literal, after its opening quote. *)
Fixpoint read_string (s : jsstring) : option (jsstring * jsstring) :=
  match s with
  | [] => None
  | c :: r =>
      if (c =? 34)%N then Some ([], r)
      else if ((c =? 92) || (c <? 32))%N then None
      else match read_string r with
           | Some (t, r') => Some (c :: t, r')
           | None => None
           end
  end.

Fixpoint read_digits (s : jsstring) : list N * jsstring :=
  match s with
  | c :: r =>
      if Slug.is_digit c then
        let (ds, r') := read_digits r in (c :: ds, r')
      else ([], s)
  | [] => ([], [])
  end.

Definition digits_value (ds : list N) : Z :=
  fold_left (fun acc d => (acc * 10 + Z.of_N (d - 48))%Z) ds 0%Z.

Definition read_int (s : jsstring) : option (jsval * jsstring) :=
  let (negative, s1) :=
    match s with
    | c :: r => if (c =? 45)%N then (true, r) else (false, s)
    | [] => (false, s)
    end in
  match read_digits s1 with
  | ([], _) => None
  | (d :: ds, r) =>
      let leading_zero := (d =? 48)%N && match ds with [] => false | _ => true end in
      let fractional :=
        match r with
        | c :: _ => ((c =? 46) || (c =? 101) || (c =? 69))%N
        | [] => false
        end in
      if leading_zero || fractional then None
      else
        let n := digits_value (d :: ds) in
        Some (JNum (inject_Z (if negative then (- n)%Z else n)), r)
  end.

Definition is_index (k : jsstring) : bool :=
  match k with
  | [] => false
  | _ :: _ => forallb Slug.is_digit k
  end.

Fixpoint value (fuel : nat) (s : jsstring) : option (jsval * jsstring) :=
  match fuel with
  | O => None
  | S f =>
      let s' := skip_ws s in
      match strip_prefix (js "null") s' with
      | Some r => Some (JNull, r)
      | None =>
      match strip_prefix (js "true") s' with
      | Some r => Some (JBool true, r)
      | None =>
      match strip_prefix (js "false") s' with
      | Some r => Some (JBool false, r)
      | None =>
      match s' with
      | [] => None
      | c :: r =>
          if (c =? 34)%N then
            match read_string r with
            | Some (t, r') => Some (JStr t, r')
            | None => None
            end
          else if (c =? 91)%N then
            match skip_ws r with
            | d :: r' =>
                if (d =? 93)%N then Some (JArr [], r')
                else match elements f r with
                     | Some (l, r'') => Some (JArr l, r'')
                     | None => None
                     end
            | [] => None
            end
          else if (c =? 123)%N then
            match skip_ws r with
            | d :: r' =>
                if (d =? 125)%N then Some (JObj [], r')
                else match members f r [] with
                     | Some (ps, r'') => Some (JObj ps, r'')
                     | None => None
                     end
            | [] => None
            end
          else read_int s'
      end end end end
  end
with elements (fuel : nat) (s : jsstring) : option (list jsval * jsstring) :=
  match fuel with
  | O => None
  | S f =>
      match value f s with
      | Some (v, r) =>
          match skip_ws r with
          | c :: r' =>
              if (c =? 44)%N then
                match elements f r' with
                | Some (l, r'') => Some (v :: l, r'')
                | None => None
                end
              else if (c =? 93)%N then Some ([v], r')
              else None
          | [] => None
          end
      | None => None
      end
  end
with members (fuel : nat) (s : jsstring) (acc : list (jsstring * jsval))
  : option (list (jsstring * jsval) * jsstring) :=
  match fuel with
  | O => None
  | S f =>
      match skip_ws s with
      | q :: r =>
          if (q =? 34)%N then
            match read_string r with
            | Some (k, r1) =>
                if is_index k then None
                else
                  match skip_ws r1 with
                  | colon :: r2 =>
                      if (colon =? 58)%N then
                        match value f r2 with
                        | Some (v, r3) =>
                            let acc' := JS.set_prop acc k v in
                            match skip_ws r3 with
                            | c :: r4 =>
                                if (c =? 44)%N then members f r4 acc'
                                else if (c =? 125)%N then Some (acc', r4)
                                else None
                            | [] => None
                            end
                        | None => None
                        end
                      else None
                  | [] => None
                  end
            | None => None
            end
          else None
      | [] => None
      end
  end.

Definition parse (s : jsstring) : option jsval :=
  match value (2 * List.length s + 2) s with
  | Some (v, r) =>
      match skip_ws r with
      | [] => Some v
      | _ :: _ => None
      end
  | None => None
  end.

Definition quote (s : jsstring) : jsstring := (34 :: s ++ [34])%N.

Fixpoint print (v : jsval) : jsstring :=
  match v with
  | JUndef | JNull => js "null"
  | JBool true => js "true"
  | JBool false => js "false"
  | JNum q => js (DecimalString.NilZero.string_of_int (Z.to_int (Qnum q)))
  | JStr s => quote s
  | JArr l =>
      (91 :: (fix items (l : list jsval) : jsstring :=
                match l with
                | [] => []
                | x :: r =>
                    print x ++ match r with [] => [] | _ :: _ => 44 :: items r end
                end) l ++ [93])%N
  | JObj ps =>
      (123 :: (fix fields (ps : list (jsstring * jsval)) : jsstring :=
                 match ps with
                 | [] => []
                 | (k, x) :: r =>
                     quote k ++ [58] ++ print x
                     ++ match r with [] => [] | _ :: _ => 44 :: fields r end
                 end) ps ++ [125])%N
  end.

End BasicJSON.

Module Examples.
Import JS.
Local Open Scope string_scope.
Local Open Scope list_scope.

Definition obj (ps : list (string * jsval)) : jsval :=
  JObj (map (fun p => (js (fst p), snd p)) ps).

Definition json_response (v : jsval) : Response :=
  {| res_status := 200; res_text := Ret (BasicJSON.print v) |}.

Definition server_error : Response :=
  {| res_status := 500; res_text := Ret (js "Internal Server Error") |}.

(** What the collaborators answer in an example. *)
Record Setup : Type := {
  courses_answer : outcome Response;
  sequence_answer : outcome Response;
  progress_answer : list event -> outcome Response;
  stored : outcome (option Request);
  tab : outcome jsval;
  page : outcome jsval
}.

Definition world_of (s : Setup) : World :=
  {| String_toLowerCase := Slug.toLowerCase_latin1;
     String_normalize_NFD := Slug.normalizeNFD_latin1;
     JSON_parse := BasicJSON.parse;
     navigator_userAgent := js "Mozilla/5.0 (X11; Linux x86_64)";
     Math_random_16 := fun h => N.of_nat (List.length h);
     Date_now_iso := fun _ => js "2024-05-01T10:00:00.000Z";
     fetch := fun h _ init =>
       let op := operationName (init_body init) in
       if String.eqb op "AddProgress" then progress_answer s h
       else if String.eqb op "getSequence" then sequence_answer s
       else courses_answer s;
     storage_session_get := fun _ _ => stored s;
     getTab := fun _ => tab s;
     scripting_executeScript := fun _ _ _ => page s |}.

(** *** Payloads *)

Definition step (id : string) : jsval := obj [("activityStepId", str id)].

Definition activity_with_steps (id : string) (steps : list string) : jsval :=
  obj [("activityId", str id); ("activityType", str "speaking");
       ("steps", JArr (map step steps))].

Definition activity_without_steps (id : string) : jsval :=
  obj [("activityId", str id); ("activityType", str "reading")].

Definition sequence_record (activities : jsval) : jsval :=
  obj [("id", str "rec-1"); ("sequenceId", str "seq-1");
       ("title", str "Saludos"); ("activities", activities)].

Definition sequence_payload (activities : jsval) : jsval :=
  obj [("data", obj [("sequence", sequence_record activities)])].

Definition courses_payload : jsval :=
  obj [("data",
        obj [("assignedCourses",
              JArr [obj [("courseId", str "c1"); ("title", str "Intro");
                         ("sequences",
                          JArr [obj [("id", str "s1");
                                     ("title", str "Saludos")]])]])])].

Definition progress_accepted : jsval :=
  obj [("data", obj [("progress", JArr [obj [("id", str "p1")]])])].

Definition captured_request (text : string) : Request :=
  {| url := js "https://gaia-server.rosettastone.com/graphql";
     method := js "POST";
     headers := obj [("content-type", str "application/json")];
     body := Some (js text) |}.

Definition forbidden : Response :=
  {| res_status := 403; res_text := Ret (js "Forbidden") |}.

(** The results of an in-page execution whose request the server rejected
    with status 403. *)
Definition page_rejected : jsval :=
  JArr [AddProgress.frame_of (AddProgress.in_page_function forbidden)].

(** A response whose body cannot be read: the connection drops while the
    page awaits [res.text()]. *)
Definition unreadable : Response :=
  {| res_status := 200; res_text := Throw (JsError "network error") |}.

(** The results of an in-page execution whose function threw. *)
Definition page_failed : jsval :=
  JArr [AddProgress.frame_of (AddProgress.in_page_function unreadable)].

(** *** Setups *)

(** Nothing is stored; the sequence has activity [a1] with the given fresh
    record; the direct request is answered by [progress]. *)
Definition direct_setup (activities : jsval)
    (progress : list event -> outcome Response) : Setup :=
  {| courses_answer := Ret (json_response courses_payload);
     sequence_answer := Ret (json_response (sequence_payload activities));
     progress_answer := progress;
     stored := Ret None;
     tab := Throw (JsError "no tab");
     page := Throw (JsError "no tab") |}.

(** A request is stored and the tab runs it; the page reports a rejection.
    The direct request, if it were made, would fail. *)
Definition replay_setup (activities : jsval) : Setup :=
  {| courses_answer := Ret (json_response courses_payload);
     sequence_answer := Ret (json_response (sequence_payload activities));
     progress_answer := fun _ => Ret server_error;
     stored := Ret (Some (captured_request "{}"));
     tab := Ret (obj [("id", num 7)]);
     page := Ret page_rejected |}.

(** *** Component state *)

Definition a1_selected : TimeForm.Activity :=
  {| TimeForm.activityId := js "a1"; TimeForm.activityType := js "speaking";
     TimeForm.selected := true |}.

Definition saludos (chosen : bool) : TimeForm.SequenceItem :=
  {| TimeForm.courseId := js "c1"; TimeForm.courseName := js "Intro";
     TimeForm.sequenceId := js "s1"; TimeForm.sequenceTitle := js "Saludos";
     TimeForm.sequence_selected := chosen; TimeForm.expanded := true;
     TimeForm.activities := [a1_selected]; TimeForm.loading := false |}.

Definition idle : TimeForm.form :=
  {| TimeForm.error := None; TimeForm.result := None;
     TimeForm.processing := false; TimeForm.successCount := 0;
     TimeForm.errorCount := 0; TimeForm.stepsProcessed := 0 |}.

Definition submission_of_a1 (stepId : string) : Trace.submission :=
  {| Trace.sub_course := str "c1"; Trace.sub_sequence := str "seq-1";
     Trace.sub_activity := str "a1"; Trace.sub_step := str stepId;
     Trace.sub_score := num 1 |}.

(** *** Worlds and runs the examples use *)

(** Nothing is stored and every direct request is answered with HTTP 500;
    the fresh [activities] field of the sequence is the argument. *)
Definition rejecting_world (activities : jsval) : World :=
  world_of (direct_setup activities (fun _ => Ret server_error)).

(** Nothing is stored; the first direct request is answered with HTTP 500
    and the later ones are accepted. *)
Definition flaky_world : World :=
  world_of
    (direct_setup (JArr [])
       (fun h => if (List.length h <? 100)%nat then Ret server_error
                 else Ret (json_response progress_accepted))).

(** The storage read throws; the direct request is accepted. *)
Definition storage_broken_world : World :=
  world_of
    {| courses_answer := Ret (json_response courses_payload);
       sequence_answer :=
         Ret (json_response
                (sequence_payload (JArr [activity_without_steps "a1"])));
       progress_answer := fun _ => Ret (json_response progress_accepted);
       stored := Throw (JsError "storage unavailable");
       tab := Throw (JsError "no tab");
       page := Throw (JsError "no tab") |}.

(** The replay reaches the page, which reports a rejection. *)
Definition replaying_world : World :=
  world_of (replay_setup (JArr [activity_without_steps "a1"])).

(** A request is stored and the tab runs it, but the function run in the
    page throws.  The direct request, if it were made, would be accepted. *)
Definition failed_page_world : World :=
  world_of
    {| courses_answer := Ret (json_response courses_payload);
       sequence_answer :=
         Ret (json_response
                (sequence_payload (JArr [activity_without_steps "a1"])));
       progress_answer := fun _ => Ret (json_response progress_accepted);
       stored := Ret (Some (captured_request "{}"));
       tab := Ret (obj [("id", num 7)]);
       page := Ret page_failed |}.

(** Every request is answered with HTTP 500. *)
Definition unreachable_world : World :=
  world_of
    {| courses_answer := Ret server_error;
       sequence_answer := Ret server_error;
       progress_answer := fun _ => Ret server_error;
       stored := Ret None;
       tab := Throw (JsError "no tab");
       page := Throw (JsError "no tab") |}.

Definition a1_two_steps : jsval := activity_with_steps "a1" ["s1"; "s2"].
Definition two_steps : jsval := JArr [a1_two_steps].
Definition empty_steps : jsval := JArr [activity_with_steps "a1" []].
Definition unparsable : jsval := JStr (js "oops").

(** The handler, with a sequence that is not selected. *)
Definition nothing_selected_run :=
  TimeForm.handleProcessSelected (rejecting_world (JArr []))
    [saludos false] [] idle.

(** One turn of the sequence loop when the fetch is answered with HTTP 500. *)
Definition unreachable_sequence_run :=
  TimeForm.process_sequence unreachable_world (saludos true) [] idle.

(** The activity [a1] with two steps, both rejected. *)
Definition two_rejected_steps_run :=
  TimeForm.process_activity (rejecting_world (JArr [])) (saludos true)
    (sequence_record two_steps) a1_two_steps [] idle.

(** The activity [a1] with two steps, the first rejected, the second
    accepted. *)
Definition second_step_accepted_run :=
  TimeForm.process_activity flaky_world (saludos true)
    (sequence_record two_steps) a1_two_steps [] idle.

(** The handler on the selected activity [a1] with two steps, both
    rejected. *)
Definition two_rejected_steps_report :=
  TimeForm.handleProcessSelected (rejecting_world two_steps)
    [saludos true] [] idle.

Definition storage_broken_call :=
  AddProgress.addProgressForActivity storage_broken_world
    (str "c1") (str "seq-1") (str "a1") (str "s1") (num 1) [].

Definition replayed_call :=
  AddProgress.addProgressForActivity replaying_world
    (str "c1") (str "seq-1") (str "a1") (str "a1") (num 1) [].

Definition replayed_whole :=
  TimeForm.submit_whole replaying_world (saludos true)
    (sequence_record (JArr [])) (activity_without_steps "a1") [] idle.

Definition failed_page_call :=
  AddProgress.addProgressForActivity failed_page_world
    (str "c1") (str "seq-1") (str "a1") (str "s1") (num 1) [].

Definition failed_page_whole :=
  TimeForm.submit_whole failed_page_world (saludos true)
    (sequence_record (JArr [])) (activity_without_steps "a1") [] idle.

Definition rejected_walk :=
  AddProgress.processAllProgress (rejecting_world two_steps) JUndef [].


Definition rejected_steps_walk :=
  AddProgress.submit_activity (rejecting_world two_steps) (str "c1")
    (sequence_record two_steps) a1_two_steps [].

Definition empty_steps_run :=
  TimeForm.handleProcessSelected (rejecting_world empty_steps)
    [saludos true] [] idle.

Definition empty_steps_walk :=
  AddProgress.processAllProgress (rejecting_world empty_steps) JUndef [].

Definition unparsable_run :=
  TimeForm.handleProcessSelected (rejecting_world unparsable)
    [saludos true] [] idle.

Definition unparsable_walk :=
  AddProgress.processAllProgress (rejecting_world unparsable) JUndef [].

(** A captured body with one message, and the request that carries it. *)
Definition captured_message : jsval :=
  obj [("userAgent", str "Mozilla/5.0 (X11; Linux x86_64)");
       ("courseId", str "c0"); ("sequenceId", str "seq-0");
       ("activityId", str "a0"); ("activityStepId", str "s0");
       ("score", num 1); ("durationMs", num 1200)].

Definition captured_body : jsval :=
  obj [("operationName", str "AddProgress");
       ("variables",
        obj [("userId", str "u1"); ("messages", JArr [captured_message])])].

Definition captured_progress_request : Request :=
  {| url := js "https://gaia-server.rosettastone.com/graphql";
     method := js "POST";
     headers := obj [("content-type", str "application/json")];
     body := Some (BasicJSON.print captured_body) |}.

Definition bodiless_request : Request :=
  {| url := js "https://gaia-server.rosettastone.com/graphql";
     method := js "POST";
     headers := obj [("content-type", str "application/json")];
     body := None |}.

Definition refreshed_request_run :=
  AddProgress.createProgressRequest replaying_world BasicJSON.print
    captured_progress_request [].

Definition refreshed_request : Request :=
  match fst refreshed_request_run with
  | Ret r => r
  | Throw _ => bodiless_request
  end.

(** The direct request of the call whose storage read throws. *)
Definition storage_broken_fetch : string * FetchInit * outcome Response :=
  hd ("", AddProgress.init_of
            {| operationName := ""; variables := JUndef; query := "" |},
      Throw TypeError)
     (flat_map (fun e => match e with
                         | EvFetch target init answer => [(target, init, answer)]
                         | _ => []
                         end)
               (snd storage_broken_call)).

(** The in-page execution of the replayed call. *)
Definition replayed_execution : jsval * PageRequest * outcome jsval :=
  hd (JUndef,
      {| page_url := []; page_method := []; page_headers := JUndef;
         page_body := JUndef |},
      Throw TypeError)
     (flat_map (fun e => match e with
                         | EvExecuteScript tabId req answer =>
                             [(tabId, req, answer)]
                         | _ => []
                         end)
               (snd replayed_call)).

(** *** The list the component shows *)

(** [v > 0] for a string, an array or an object: not met in the
    examples. *)
Definition no_coercion (v : jsval) : outcome bool := Throw TypeError.

Definition empty_panel : TimeFormState.panel :=
  {| TimeFormState.sequences := []; TimeFormState.loading := false;
     TimeFormState.error := None; TimeFormState.result := None |}.

Definition a1_row (chosen : bool) : TimeFormState.ActivityRow :=
  {| TimeFormState.act_id := str "a1"; TimeFormState.act_type := str "speaking";
     TimeFormState.act_selected := chosen |}.

Definition saludos_row (chosen opened : bool)
    (acts : list TimeFormState.ActivityRow) : TimeFormState.SequenceRow :=
  {| TimeFormState.row_courseId := str "c1";
     TimeFormState.row_courseName := str "Intro";
     TimeFormState.row_sequenceId := str "s1";
     TimeFormState.row_sequenceTitle := str "Saludos";
     TimeFormState.row_selected := chosen;
     TimeFormState.row_expanded := opened;
     TimeFormState.row_activities := acts;
     TimeFormState.row_loading := false |}.

Definition panel_of (rows : list TimeFormState.SequenceRow) : TimeFormState.panel :=
  {| TimeFormState.sequences := rows; TimeFormState.loading := false;
     TimeFormState.error := None; TimeFormState.result := None |}.

(** A load answered with the example course list. *)
Definition load_run :=
  TimeFormState.handleLoadSequences (rejecting_world two_steps) no_coercion
    [] empty_panel.

(** A load answered with HTTP 500. *)
Definition failed_load_run :=
  TimeFormState.handleLoadSequences unreachable_world no_coercion
    [] (panel_of [saludos_row true true [a1_row true]]).

(** Selecting the freshly loaded sequence. *)
Definition expand_run :=
  TimeFormState.handleToggleSequence (rejecting_world two_steps) 0
    [] (panel_of [saludos_row false false []]).

(** Selecting it when the fetch is answered with HTTP 500. *)
Definition failed_expand_run :=
  TimeFormState.handleToggleSequence unreachable_world 0
    [] (panel_of [saludos_row false false []]).

(** Deselecting a sequence with a selected activity. *)
Definition collapse_run :=
  TimeFormState.handleToggleSequence unreachable_world 0
    [] (panel_of [saludos_row true true [a1_row true]]).

(** *** A fresh list with a [null] entry *)

Definition a2_selected : TimeForm.Activity :=
  {| TimeForm.activityId := js "a2"; TimeForm.activityType := js "reading";
     TimeForm.selected := true |}.

Definition saludos_two : TimeForm.SequenceItem :=
  {| TimeForm.courseId := js "c1"; TimeForm.courseName := js "Intro";
     TimeForm.sequenceId := js "s1"; TimeForm.sequenceTitle := js "Saludos";
     TimeForm.sequence_selected := true; TimeForm.expanded := true;
     TimeForm.activities := [a1_selected; a2_selected];
     TimeForm.loading := false |}.

Definition with_null_entry : jsval := JArr [activity_without_steps "a1"; JNull].

(** The handler on two selected activities when the fresh list is [a1]
    followed by [null], every submission being rejected. *)
Definition null_entry_run :=
  TimeForm.handleProcessSelected (rejecting_world with_null_entry)
    [saludos_two] [] idle.

(** The loop over the selected activities [a1] and [a2] when the fresh list
    has [a1] only. *)
Definition one_listed_run :=
  TimeForm.for_each [a1_selected; a2_selected]
    (TimeForm.process_selected (rejecting_world two_steps) saludos_two
       (sequence_record two_steps) [a1_two_steps])
    [] idle.

(** A selected sequence whose title is punctuation only. *)
Definition punctuation_only : TimeForm.SequenceItem :=
  {| TimeForm.courseId := js "c1"; TimeForm.courseName := js "Intro";
     TimeForm.sequenceId := js "s9"; TimeForm.sequenceTitle := js "?!...";
     TimeForm.sequence_selected := true; TimeForm.expanded := true;
     TimeForm.activities := [a1_selected]; TimeForm.loading := false |}.

Definition punctuation_only_run :=
  TimeForm.process_sequence (rejecting_world two_steps) punctuation_only
    [] idle.

(** The walk of an activity without steps, its submission rejected. *)
Definition stepless_walk :=
  AddProgress.submit_activity (rejecting_world two_steps) (str "c1")
    (sequence_record (JArr [])) (activity_without_steps "a1") [].

Definition is_warning (e : event) : bool :=
  match e with EvConsole Warn _ => true | _ => false end.

Definition is_error_line (e : event) : bool :=
  match e with EvConsole ConsoleError _ => true | _ => false end.

End Examples.

(** * Properties *)

(** ** Strings *)

Lemma jsstring_eqb_eq (a b : jsstring) : jsstring_eqb a b = true <-> a = b.
Proof.
  revert b; induction a as [|x a IH]; intros [|y b]; simpl; split; intro H;
    try reflexivity; try discriminate.
  - apply andb_true_iff in H as [Hx Hr]. apply N.eqb_eq in Hx.
    apply IH in Hr. congruence.
  - injection H as -> ->. rewrite N.eqb_refl. simpl. now apply IH.
Qed.

(** ** [titleToSlug] *)

Module SlugFacts.
Import Slug.

Lemma alnum_not_dash c : is_alnum c = true -> (c =? dash)%N = false.
Proof.
  unfold is_alnum, is_lower, is_digit, dash. intro H.
  apply N.eqb_neq. intros ->. discriminate H.
Qed.

Lemma alnum_not_combining c : is_alnum c = true -> is_combining c = false.
Proof.
  unfold is_alnum, is_lower, is_digit, is_combining. intro H.
  apply orb_true_iff in H as [H|H]; apply andb_true_iff in H as [H1 H2];
    apply N.leb_le in H1, H2; apply andb_false_iff;
    left; apply N.leb_gt; lia.
Qed.

Lemma slug_char_cases c :
  slug_char c = true <-> is_lower c = true \/ is_digit c = true \/ c = dash.
Proof.
  unfold slug_char, is_alnum. rewrite !orb_true_iff, N.eqb_eq. tauto.
Qed.

Lemma slug_char_not_combining c : slug_char c = true -> is_combining c = false.
Proof.
  unfold slug_char. intro H. apply orb_true_iff in H as [H|H].
  - now apply alnum_not_combining.
  - apply N.eqb_eq in H. subst. reflexivity.
Qed.

(** What [dash_runs] produces. *)
Lemma dash_runs_chars b s : Forall (fun c => slug_char c = true) (dash_runs b s).
Proof.
  revert b; induction s as [|c r IH]; intro b; simpl.
  - constructor.
  - destruct (is_alnum c) eqn:E.
    + constructor; [unfold slug_char; now rewrite E | apply IH].
    + destruct b; [apply IH | constructor; [reflexivity | apply IH]].
Qed.

Lemma dash_runs_in_run s : starts_with_dash (dash_runs true s) = false.
Proof.
  induction s as [|c r IH]; simpl; [reflexivity|].
  destruct (is_alnum c) eqn:E; simpl; [now apply alnum_not_dash | exact IH].
Qed.

Lemma dash_runs_single b s : has_double_dash (dash_runs b s) = false.
Proof.
  revert b; induction s as [|c r IH]; intro b; simpl; [reflexivity|].
  destruct (is_alnum c) eqn:E.
  - simpl. rewrite (alnum_not_dash _ E), IH. reflexivity.
  - destruct b; [apply IH|].
    change (has_double_dash (dash :: dash_runs true r))
      with (((dash =? dash)%N && starts_with_dash (dash_runs true r))
            || has_double_dash (dash_runs true r)).
    rewrite dash_runs_in_run, IH. reflexivity.
Qed.

(** What trimming keeps and what it establishes. *)
Lemma trim_front_chars (P : N -> Prop) s : Forall P s -> Forall P (trim_front s).
Proof.
  destruct s as [|c r]; simpl; [auto|]. intro H.
  destruct (c =? dash)%N; [now inversion H | exact H].
Qed.

Lemma trim_front_single s :
  has_double_dash s = false -> has_double_dash (trim_front s) = false.
Proof.
  destruct s as [|c r]; simpl; [auto|]. intro H.
  apply orb_false_iff in H as [H1 H2].
  destruct (c =? dash)%N eqn:E; [exact H2 | simpl; now rewrite E, H2].
Qed.

Lemma trim_front_front s :
  has_double_dash s = false -> starts_with_dash (trim_front s) = false.
Proof.
  destruct s as [|c r]; simpl; [auto|]. intro H.
  apply orb_false_iff in H as [H1 _].
  destruct (c =? dash)%N eqn:E; [exact H1 | simpl; exact E].
Qed.

Lemma trim_back_chars (P : N -> Prop) s : Forall P s -> Forall P (trim_back s).
Proof.
  induction s as [|c r IH]; simpl; [auto|]. intro H. inversion H; subst.
  destruct r as [|d r'].
  - destruct (c =? dash)%N; auto.
  - constructor; auto.
Qed.

Lemma trim_back_front s :
  starts_with_dash s = false -> starts_with_dash (trim_back s) = false.
Proof.
  destruct s as [|c [|d r]]; simpl; auto.
  intro H. now rewrite H.
Qed.

Lemma trim_back_starts s :
  has_double_dash s = false ->
  starts_with_dash (trim_back s) = true -> starts_with_dash s = true.
Proof.
  intros _. destruct s as [|c [|d r]]; simpl; auto.
  destruct (c =? dash)%N eqn:E; simpl; congruence.
Qed.

Lemma trim_back_single s :
  has_double_dash s = false -> has_double_dash (trim_back s) = false.
Proof.
  induction s as [|c r IH]; [auto|]. intro H.
  change (has_double_dash (c :: r))
    with (((c =? dash)%N && starts_with_dash r) || has_double_dash r) in H.
  apply orb_false_iff in H as [H1 H2].
  destruct r as [|d r'].
  - simpl. destruct (c =? dash)%N eqn:E; simpl; [reflexivity | now rewrite E].
  - change (trim_back (c :: d :: r')) with (c :: trim_back (d :: r')).
    change (has_double_dash (c :: trim_back (d :: r')))
      with (((c =? dash)%N && starts_with_dash (trim_back (d :: r')))
            || has_double_dash (trim_back (d :: r'))).
    rewrite (IH H2), orb_false_r.
    destruct (c =? dash)%N; [|reflexivity].
    rewrite andb_true_l in H1 |- *.
    destruct (starts_with_dash (trim_back (d :: r'))) eqn:E; [|reflexivity].
    apply (trim_back_starts _ H2) in E. congruence.
Qed.

Lemma trim_back_back s :
  has_double_dash s = false -> ends_with_dash (trim_back s) = false.
Proof.
  induction s as [|c r IH]; [auto|]. intro H.
  change (has_double_dash (c :: r))
    with (((c =? dash)%N && starts_with_dash r) || has_double_dash r) in H.
  apply orb_false_iff in H as [H1 H2].
  destruct r as [|d r'].
  - simpl. destruct (c =? dash)%N eqn:E; simpl; auto.
  - change (trim_back (c :: d :: r')) with (c :: trim_back (d :: r')).
    specialize (IH H2).
    destruct (trim_back (d :: r')) as [|x t] eqn:Et.
    + (* the tail was a single dash *)
      destruct r' as [|y r'']; [|discriminate Et].
      simpl in Et. destruct (d =? dash)%N eqn:Ed; [|discriminate Et].
      simpl in H1. rewrite Ed, andb_true_r in H1. simpl. exact H1.
    + exact IH.
Qed.

(** A well-shaped slug is left alone by each stage. *)
Lemma remove_accents_fixed s :
  Forall (fun c => slug_char c = true) s -> remove_accents s = s.
Proof.
  induction 1 as [|c r Hc _ IH]; simpl; [reflexivity|].
  rewrite (slug_char_not_combining _ Hc). simpl. now rewrite IH.
Qed.

Lemma dash_runs_fixed s :
  Forall (fun c => slug_char c = true) s ->
  has_double_dash s = false ->
  forall b, (b = true -> starts_with_dash s = false) -> dash_runs b s = s.
Proof.
  induction 1 as [|c r Hc _ IH]; intros Hdd b Hb; simpl; [reflexivity|].
  simpl in Hdd. apply orb_false_iff in Hdd as [H1 H2].
  destruct (is_alnum c) eqn:E.
  - f_equal. apply IH; [exact H2 | discriminate].
  - unfold slug_char in Hc. rewrite E in Hc. simpl in Hc.
    destruct b.
    + specialize (Hb eq_refl). simpl in Hb. congruence.
    + apply N.eqb_eq in Hc as Hc'. subst c. f_equal.
      apply IH; [exact H2|]. intros _. simpl in H1. exact H1.
Qed.

Lemma trim_front_fixed s : starts_with_dash s = false -> trim_front s = s.
Proof. destruct s as [|c r]; simpl; [auto|]. now intros ->. Qed.

Lemma trim_back_fixed s : ends_with_dash s = false -> trim_back s = s.
Proof.
  induction s as [|c r IH]; [auto|]. destruct r as [|d r'].
  - simpl. now intros ->.
  - intro H. change (trim_back (c :: d :: r')) with (c :: trim_back (d :: r')).
    f_equal. apply IH. exact H.
Qed.

Section Shape.
Variables toLowerCase normalizeNFD : jsstring -> jsstring.

Lemma titleToSlug_chars x :
  Forall (fun c => slug_char c = true) (titleToSlug toLowerCase normalizeNFD x).
Proof.
  unfold titleToSlug, trim_dashes.
  apply trim_back_chars, trim_front_chars, dash_runs_chars.
Qed.

Lemma titleToSlug_shape x : slug_shape (titleToSlug toLowerCase normalizeNFD x).
Proof.
  pose proof (titleToSlug_chars x) as Hc.
  unfold titleToSlug, trim_dashes in *.
  set (d := dash_runs false _) in *.
  assert (Hd : has_double_dash d = false) by apply dash_runs_single.
  constructor.
  - intros c Hin. apply slug_char_cases.
    rewrite Forall_forall in Hc. now apply Hc.
  - now apply trim_back_single, trim_front_single.
  - now apply trim_back_front, trim_front_front.
  - now apply trim_back_back, trim_front_single.
Qed.
End Shape.

Lemma slug_shape_chars s :
  slug_shape s -> Forall (fun c => slug_char c = true) s.
Proof.
  intros [Hc _ _ _]. apply Forall_forall. intros c Hin.
  apply slug_char_cases. auto.
Qed.

End SlugFacts.

Module Latin1Facts.
Import Slug.

Lemma slug_char_plain c : slug_char c = true -> In c plain_units.
Proof.
  intro H. unfold plain_units. apply in_map_iff. exists (N.to_nat c).
  split; [apply N2Nat.id|]. apply in_seq.
  apply SlugFacts.slug_char_cases in H.
  unfold is_lower, is_digit, dash in H.
  destruct H as [H|[H|H]];
    [apply andb_true_iff in H as [_ H]; apply N.leb_le in H; lia
    |apply andb_true_iff in H as [_ H]; apply N.leb_le in H; lia
    |subst; simpl; lia].
Qed.

Lemma plain_units_fixed :
  forallb (fun c => (negb (slug_char c))
                    || ((lower_unit c =? c)%N
                        && match decompose_unit c with
                           | [d] => (d =? c)%N
                           | _ => false
                           end)) plain_units = true.
Proof. vm_compute. reflexivity. Qed.

Lemma plain_unit_fixed c :
  slug_char c = true -> lower_unit c = c /\ decompose_unit c = [c].
Proof.
  intro H. pose proof plain_units_fixed as Hall.
  rewrite forallb_forall in Hall. specialize (Hall c (slug_char_plain _ H)).
  rewrite H in Hall. cbn [negb orb] in Hall.
  apply andb_true_iff in Hall as [Hl Hd]. apply N.eqb_eq in Hl.
  split; [exact Hl|].
  destruct (decompose_unit c) as [|d [|d' r]]; try discriminate.
  apply N.eqb_eq in Hd. now subst.
Qed.

Lemma toLowerCase_latin1_plain s :
  Forall (fun c => slug_char c = true) s -> toLowerCase_latin1 s = s.
Proof.
  induction 1 as [|c r Hc _ IH]; [reflexivity|].
  unfold toLowerCase_latin1 in *. cbn [map].
  now rewrite (proj1 (plain_unit_fixed _ Hc)), IH.
Qed.

Lemma normalizeNFD_latin1_plain s :
  Forall (fun c => slug_char c = true) s -> normalizeNFD_latin1 s = s.
Proof.
  induction 1 as [|c r Hc _ IH]; [reflexivity|].
  unfold normalizeNFD_latin1 in *. cbn [flat_map].
  now rewrite (proj2 (plain_unit_fixed _ Hc)), IH.
Qed.
End Latin1Facts.

Section SlugIdempotent.
Variables toLowerCase normalizeNFD : jsstring -> jsstring.

(** The two built-ins leave a string of lower-case ASCII letters, digits
    and dashes as it is. *)
Hypothesis toLowerCase_plain :
  forall s, Forall (fun c => Slug.slug_char c = true) s -> toLowerCase s = s.
Hypothesis normalizeNFD_plain :
  forall s, Forall (fun c => Slug.slug_char c = true) s -> normalizeNFD s = s.

(** C8: [titleToSlug] is idempotent, and its output is made of lower-case
    ASCII letters, digits and dashes only, with no two dashes in a row and no
    dash at either end. *)
Theorem titleToSlug_idempotent_and_shaped (x : jsstring) :
  let slug := Slug.titleToSlug toLowerCase normalizeNFD in
  slug (slug x) = slug x /\ Slug.slug_shape (slug x).
Proof.
  intro slug. split; [|apply SlugFacts.titleToSlug_shape].
  pose proof (SlugFacts.titleToSlug_shape toLowerCase normalizeNFD x) as Hs.
  fold slug in Hs. set (y := slug x) in *.
  pose proof (SlugFacts.slug_shape_chars Hs) as Hc.
  destruct Hs as [_ Hdd Hf Hb].
  unfold slug, Slug.titleToSlug, Slug.trim_dashes.
  rewrite (toLowerCase_plain Hc), (normalizeNFD_plain Hc).
  rewrite (SlugFacts.remove_accents_fixed Hc).
  rewrite (SlugFacts.dash_runs_fixed Hc Hdd); [|discriminate].
  rewrite (SlugFacts.trim_front_fixed _ Hf).
  now apply SlugFacts.trim_back_fixed.
Qed.
End SlugIdempotent.

(** ** Traces *)

Module TraceFacts.
Import Trace.

Lemma submissions_app l1 l2 :
  submissions (l1 ++ l2) = submissions l1 ++ submissions l2.
Proof. apply flat_map_app. Qed.

Lemma returned_app l1 l2 : returned (l1 ++ l2) = returned l1 + returned l2.
Proof. unfold returned. now rewrite map_app, list_sum_app. Qed.

Lemma quiet_submissions evs :
  forallb (fun e => negb (bookkeeping e)) evs = true -> submissions evs = [].
Proof.
  induction evs as [|e r IH]; simpl; [reflexivity|].
  intro H. apply andb_true_iff in H as [He Hr].
  rewrite (IH Hr). destruct e; try reflexivity; discriminate He.
Qed.

Lemma quiet_returned evs :
  forallb (fun e => negb (bookkeeping e)) evs = true -> returned evs = 0.
Proof.
  induction evs as [|e r IH]; simpl; [reflexivity|].
  intro H. apply andb_true_iff in H as [He Hr].
  change (returned (e :: r)) with (returned_of e + returned r).
  rewrite (IH Hr). destruct e; try reflexivity; discriminate He.
Qed.

Lemma forallb_weaken {A} (P Q : A -> bool) l :
  (forall x, P x = true -> Q x = true) ->
  forallb P l = true -> forallb Q l = true.
Proof.
  intros HPQ H. rewrite forallb_forall in *. auto.
Qed.

Lemma in_exec_results results evs :
  In results (exec_results evs) <->
  exists tab req, In (EvExecuteScript tab req (Ret results)) evs.
Proof.
  unfold exec_results. rewrite in_flat_map. split.
  - intros (e & Hin & Hr).
    destruct e as [| | |tab req [r|]| | | | | |]; cbn in Hr; try contradiction.
    destruct Hr as [<-|[]]. eauto.
  - intros (tab & req & Hin). eexists. split; [exact Hin|]. now left.
Qed.

End TraceFacts.

(** ** The [IO] combinators *)

Module IOFacts.
Import IOMonad.

Section Emits.
Variable P : event -> bool.

Lemma emits_ret {A} (a : A) : emits P (ret a).
Proof. intro h. reflexivity. Qed.

Lemma emits_throw {A} e : emits P (@throw A e).
Proof. intro h. reflexivity. Qed.

Lemma emits_of_outcome {A} (o : outcome A) : emits P (of_outcome o).
Proof. intro h. reflexivity. Qed.

Lemma emits_bind {A B} (m : IO A) (k : A -> IO B) :
  emits P m -> (forall a, emits P (k a)) -> emits P (bind m k).
Proof.
  intros Hm Hk h. unfold bind. specialize (Hm h).
  destruct (m h) as [[a|e] e1]; simpl in *; [|exact Hm].
  specialize (Hk a (h ++ e1)).
  destruct (k a (h ++ e1)) as [r e2]; simpl in *.
  rewrite forallb_app, Hm, Hk. reflexivity.
Qed.

Lemma emits_map_io {A B} (f : A -> IO B) (xs : list A) :
  (forall x, emits P (f x)) -> emits P (map_io f xs).
Proof.
  intro Hf. induction xs as [|x r IH]; simpl.
  - apply emits_ret.
  - apply emits_bind; [apply Hf | intros y].
    apply emits_bind; [exact IH | intros ys; apply emits_ret].
Qed.
End Emits.

Lemma bind_unfold {A B} (m : IO A) (k : A -> IO B) h :
  bind m k h =
  match m h with
  | (Ret a, e1) => let (r, e2) := k a (h ++ e1) in (r, e1 ++ e2)
  | (Throw e, e1) => (Throw e, e1)
  end.
Proof. reflexivity. Qed.

Lemma bind_of_outcome_ret {A B} (a : A) (k : A -> IO B) h :
  bind (of_outcome (Ret a)) k h = k a h.
Proof.
  unfold bind, of_outcome. rewrite app_nil_r. now destruct (k a h).
Qed.

Lemma bind_of_outcome_throw {A B} e (k : A -> IO B) h :
  bind (of_outcome (Throw e)) k h = (Throw e, []).
Proof. reflexivity. Qed.

End IOFacts.

(** ** [addProgress.ts] *)

Module AddProgressFacts.
Import IOMonad IOFacts JS Trace AddProgress.
Local Open Scope string_scope.
Local Open Scope list_scope.

Lemma total_ret {A} (a : A) : total (ret a).
Proof. intro h. reflexivity. Qed.

Lemma total_bind {A B} (m : IO A) (k : A -> IO B) :
  total m -> (forall a, total (k a)) -> total (bind m k).
Proof.
  intros Hm Hk h. unfold bind. specialize (Hm h).
  destruct (m h) as [[a|e] e1]; simpl in *; [|discriminate].
  specialize (Hk a (h ++ e1)). now destruct (k a (h ++ e1)).
Qed.

Lemma total_map_io {A B} (f : A -> IO B) xs :
  (forall x, total (f x)) -> total (map_io f xs).
Proof.
  intro Hf. induction xs as [|x r IH]; simpl; [apply total_ret|].
  apply total_bind; [apply Hf | intro y].
  apply total_bind; [exact IH | intro ys; apply total_ret].
Qed.

Lemma total_run {A} (m : IO A) h :
  total m -> exists a, m h = (Ret a, snd (m h)).
Proof.
  intro Hm. specialize (Hm h). destruct (m h) as [[a|e] evs]; simpl in *;
    [now exists a | discriminate].
Qed.

Section WithWorld.
Variable W : World.

(** *** Identifier generation and message building stay local *)

Lemma random_16_local : emits local_only (random_16 W).
Proof. intro h. reflexivity. Qed.

Lemma now_iso_local : emits local_only (now_iso W).
Proof. intro h. reflexivity. Qed.

Lemma uuid_unit_local c : emits local_only (uuid_unit W c).
Proof.
  unfold uuid_unit. destruct ((c =? 120) || (c =? 121))%N.
  - apply emits_bind; [apply random_16_local | intro; apply emits_ret].
  - apply emits_ret.
Qed.

Lemma uuid_unit_total c : total (uuid_unit W c).
Proof.
  unfold uuid_unit. destruct ((c =? 120) || (c =? 121))%N.
  - apply total_bind; [intro h; reflexivity | intro; apply total_ret].
  - apply total_ret.
Qed.

Lemma generateUUID_local : emits local_only (generateUUID W).
Proof.
  unfold generateUUID. generalize UUID_TEMPLATE. intro template.
  apply emits_map_io. exact uuid_unit_local.
Qed.

Lemma generateUUID_total : total (generateUUID W).
Proof.
  unfold generateUUID. generalize UUID_TEMPLATE. intro template.
  apply total_map_io. exact uuid_unit_total.
Qed.

Section Submission.
Variables c s a st sc : jsval.

Lemma new_message_local agent : emits local_only (new_message W c s a st sc agent).
Proof.
  unfold new_message.
  repeat (apply emits_bind;
          [first [apply generateUUID_local | apply now_iso_local] | intro]).
  apply emits_ret.
Qed.

Lemma new_message_total agent : total (new_message W c s a st sc agent).
Proof.
  unfold new_message.
  repeat (apply total_bind;
          [first [apply generateUUID_total | intro h; reflexivity] | intro]).
  apply total_ret.
Qed.

Lemma update_message_local msg : emits local_only (update_message W c s a st sc msg).
Proof.
  unfold update_message.
  repeat (apply emits_bind;
          [first [apply generateUUID_local | apply now_iso_local] | intro]).
  apply emits_ret.
Qed.

Lemma rewrite_body_local bodyObj :
  emits local_only (rewrite_body W c s a st sc bodyObj).
Proof.
  unfold rewrite_body.
  apply emits_bind; [apply emits_of_outcome | intro vars].
  assert (Hother : emits local_only
            (bind (of_outcome (assign_prop bodyObj "variables"
                                 (if truthy vars then vars else JObj [])))
               (fun bodyObj1 =>
                bind (new_message W c s a st sc (JStr (navigator_userAgent W)))
                  (fun msg =>
                   bind (of_outcome
                           (assign_prop (if truthy vars then vars else JObj [])
                              "messages" (JArr [msg])))
                     (fun vars1 =>
                      of_outcome (assign_prop bodyObj1 "variables" vars1)))))).
  { apply emits_bind; [apply emits_of_outcome | intro].
    apply emits_bind; [apply new_message_local | intro].
    apply emits_bind; [apply emits_of_outcome | intro].
    apply emits_of_outcome. }
  destruct (opt_prop vars "messages") as [| |b|q|t|[|m ms]|ps];
    try exact Hother.
  apply emits_bind; [apply emits_map_io, update_message_local | intro].
  apply emits_bind; [apply emits_of_outcome | intro].
  apply emits_of_outcome.
Qed.
End Submission.

(** *** The remote query layer *)

(** [checked_response] implements the error taxonomy. *)
Lemma checked_response_eq res h :
  checked_response W res h = (direct_outcome W (Ret res), []).
Proof.
  unfold checked_response, direct_outcome.
  destruct (negb (res_ok res)).
  - unfold bind, of_outcome, throw. now destruct (res_text res).
  - unfold bind, of_outcome, throw, ret.
    destruct (res_json W res) as [data|e]; [|reflexivity].
    destruct (get_prop data "errors") as [errors|e]; [|reflexivity].
    simpl. now destruct (truthy errors).
Qed.

Lemma post_graphql_eq b h :
  post_graphql W b h =
  (direct_outcome W (fetch W h GRAPHQL_ENDPOINT (init_of b)),
   [EvFetch GRAPHQL_ENDPOINT (init_of b)
      (fetch W h GRAPHQL_ENDPOINT (init_of b))]).
Proof.
  unfold post_graphql, bind, call_fetch.
  destruct (fetch W h GRAPHQL_ENDPOINT (init_of b)) as [res|e]; [|reflexivity].
  rewrite checked_response_eq. reflexivity.
Qed.

(** *** The submission: which way a call went *)

#[local] Opaque generateUUID new_message update_message rewrite_body.

Section Cases.
Variables c s a st sc : jsval.

Lemma direct_fallback_shape h :
  exists pre b,
    direct_fallback W c s a st sc h =
      (direct_outcome W (fetch W (h ++ pre) GRAPHQL_ENDPOINT (init_of b)),
       pre ++ [EvFetch GRAPHQL_ENDPOINT (init_of b)
                 (fetch W (h ++ pre) GRAPHQL_ENDPOINT (init_of b))])
    /\ forallb local_only pre = true
    /\ operationName b = "AddProgress".
Proof.
  unfold direct_fallback.
  set (agent := if truthy (JStr (navigator_userAgent W)) then _ else _).
  destruct (total_run h (new_message_total c s a st sc agent)) as [msg Hm].
  pose proof (new_message_local c s a st sc agent h) as Hl.
  eexists _, _. rewrite bind_unfold, Hm, post_graphql_eq.
  split; [reflexivity|]. split; [exact Hl | reflexivity].
Qed.

Lemma local_going evs :
  forallb local_only evs = true -> forallb (replay_going W) evs = true.
Proof.
  apply TraceFacts.forallb_weaken. intros e. destruct e; simpl; congruence.
Qed.

Lemma local_stopped evs :
  forallb local_only evs = true -> forallb replay_stopped evs = true.
Proof.
  apply TraceFacts.forallb_weaken. intros e. destruct e; simpl; congruence.
Qed.

Lemma replay_cases h :
  let x := replay W c s a st sc h in
  match fst x with
  | Ret (Some v) =>
      exists pre tab req results,
        snd x = pre ++ [EvExecuteScript tab req (Ret results)]
        /\ v = opt_prop (opt_first results) "result"
        /\ forallb (replay_going W) pre = true
  | _ => forallb replay_stopped (snd x) = true
  end.
Proof.
  intro x. subst x. unfold replay.
  rewrite bind_unfold. unfold call_storage_get.
  destruct (storage_session_get W h STORAGE_KEY) as [[req|]|e] eqn:Hs;
    [|reflexivity|reflexivity].
  destruct (body req) as [[|u text]|] eqn:Hb; [reflexivity| |reflexivity].
  unfold parse. destruct (JSON_parse W (u :: text)) as [bodyObj|] eqn:Hp;
    [|reflexivity].
  rewrite bind_of_outcome_ret.
  set (ev0 := EvStorageGet _ _).
  assert (Hev0 : replay_going W ev0 = true).
  { unfold ev0. cbn [replay_going replay_failure]. now rewrite Hb, Hp. }
  pose proof (rewrite_body_local c s a st sc bodyObj (h ++ [ev0])) as Hl.
  rewrite bind_unfold.
  destruct (rewrite_body W c s a st sc bodyObj (h ++ [ev0])) as [[nb|e] e1];
    cbn [snd] in Hl.
  2:{ cbn [fst snd app forallb replay_stopped ev0]. 
      now apply local_stopped. }
  rewrite bind_unfold. unfold call_getTab.
  destruct (getTab W ((h ++ [ev0]) ++ e1)) as [tab|e] eqn:Ht.
  2:{ cbn [fst snd app forallb replay_stopped ev0].
      rewrite forallb_app. cbn [forallb replay_stopped].
      now rewrite (local_stopped _ Hl). }
  destruct (get_prop tab "id") as [tabId|e] eqn:Hid.
  2:{ rewrite bind_of_outcome_throw.
      cbn [fst snd app forallb replay_stopped ev0].
      rewrite !forallb_app. cbn [forallb replay_stopped].
      now rewrite (local_stopped _ Hl). }
  rewrite bind_of_outcome_ret.
  rewrite bind_unfold. unfold call_executeScript.
  match goal with |- context [scripting_executeScript W ?hh ?t ?r] =>
    destruct (scripting_executeScript W hh t r) as [results|e] eqn:He end.
  - cbn [fst snd app ret].
    eexists (ev0 :: e1 ++ [_]), _, _, _.
    split; [cbn [app]; rewrite <- !app_assoc; reflexivity|].
    split; [reflexivity|].
    cbn [forallb]. rewrite Hev0, forallb_app. cbn [forallb replay_going].
    now rewrite (local_going _ Hl).
  - cbn [fst snd app forallb replay_stopped ev0].
    rewrite !forallb_app. cbn [forallb replay_stopped].
    now rewrite (local_stopped _ Hl).
Qed.

Lemma token_present : token_missing = false.
Proof. reflexivity. Qed.

Lemma body_cases h :
  let x := addProgressForActivity_body W c s a st sc h in
  (args_ok c s a st = false /\ snd x = [] /\ exists msg, fst x = Throw (JsError msg))
  \/ (exists pre tab req results,
        snd x = pre ++ [EvExecuteScript tab req (Ret results)]
        /\ fst x = Ret (opt_prop (opt_first results) "result")
        /\ forallb (replay_going W) pre = true)
  \/ (exists pre mid b ans,
        snd x = pre ++ mid ++ [EvFetch GRAPHQL_ENDPOINT (init_of b) ans]
        /\ fst x = direct_outcome W ans
        /\ forallb replay_stopped pre = true
        /\ forallb before_direct mid = true
        /\ operationName b = "AddProgress").
Proof.
  intro x. subst x. unfold addProgressForActivity_body, args_ok.
  destruct (truthy c); [|left; cbn; eauto].
  destruct (truthy s); [|left; cbn; eauto].
  destruct (truthy a); [|left; cbn; eauto].
  destruct (truthy st); [|left; cbn; eauto].
  cbn [negb orb]. rewrite token_present. right.
  rewrite bind_unfold. unfold try_catch.
  pose proof (replay_cases h) as Hr. cbv zeta in Hr.
  destruct (replay W c s a st sc h) as [[[v|]|e] e1]; cbn [fst snd] in Hr.
  - left. destruct Hr as (pre & tab & req & results & He & Hv & Hp).
    exists pre, tab, req, results. cbn [ret fst snd]. rewrite app_nil_r.
    subst v. auto.
  - right.
    destruct (direct_fallback_shape (h ++ e1)) as (pre & b & Heq & Hl & Hop).
    rewrite Heq. eexists e1, pre, b, _. cbn [fst snd].
    repeat split; auto.
    eapply TraceFacts.forallb_weaken; [|exact Hl].
    intros ev; destruct ev; simpl; congruence.
  - right.
    set (line := EvConsole Debug
           [LText "Failed to use stored request, falling back to direct fetch";
            LExn e]).
    assert (Hh : bind (console Debug
                   [LText "Failed to use stored request, falling back to direct fetch";
                    LExn e]) (fun _ => ret (@None jsval)) (h ++ e1)
                 = (Ret None, [line])) by reflexivity.
    rewrite Hh. cbv beta iota.
    destruct (direct_fallback_shape (h ++ e1 ++ [line]))
      as (pre & b & Heq & Hl & Hop).
    rewrite Heq. eexists e1, (line :: pre), b, _. cbn [fst snd].
    split; [rewrite <- app_assoc; reflexivity|].
    repeat split; auto.
    cbn [forallb before_direct line].
    eapply TraceFacts.forallb_weaken; [|exact Hl].
    intros ev; destruct ev; simpl; congruence.
Qed.

Lemma addProgress_unfold h :
  addProgressForActivity W c s a st sc h =
  (fst (addProgressForActivity_body W c s a st sc (h ++ [EvEnter c s a st sc])),
   EvEnter c s a st sc
     :: snd (addProgressForActivity_body W c s a st sc (h ++ [EvEnter c s a st sc]))
     ++ [EvLeave (is_ret (fst (addProgressForActivity_body W c s a st sc
                                 (h ++ [EvEnter c s a st sc]))))]).
Proof.
  unfold addProgressForActivity.
  now destruct (addProgressForActivity_body W c s a st sc (h ++ [EvEnter c s a st sc])).
Qed.

Lemma going_not_failure evs :
  forallb (replay_going W) evs = true -> existsb (replay_failure W) evs = false.
Proof.
  induction evs as [|e r IH]; [reflexivity|]. cbn [forallb existsb].
  intro H. apply andb_true_iff in H as [He Hr]. rewrite (IH Hr), orb_false_r.
  destruct e as [| |[]| | | | | | |]; cbn [replay_going] in He;
    try discriminate He; try reflexivity.
  now apply negb_true_iff in He.
Qed.

Lemma going_not_fetch evs :
  forallb (replay_going W) evs = true -> existsb is_fetch evs = false.
Proof.
  induction evs as [|e r IH]; [reflexivity|]. cbn [forallb existsb].
  intro H. apply andb_true_iff in H as [He Hr]. rewrite (IH Hr), orb_false_r.
  destruct e; cbn [replay_going] in He; try discriminate He; reflexivity.
Qed.

Lemma going_not_exec evs :
  forallb (replay_going W) evs = true -> existsb exec_returned evs = false.
Proof.
  induction evs as [|e r IH]; [reflexivity|]. cbn [forallb existsb].
  intro H. apply andb_true_iff in H as [He Hr]. rewrite (IH Hr), orb_false_r.
  destruct e; cbn [replay_going] in He; try discriminate He; reflexivity.
Qed.

Lemma stopped_not_exec evs :
  forallb replay_stopped evs = true -> existsb exec_returned evs = false.
Proof.
  induction evs as [|e r IH]; [reflexivity|]. cbn [forallb existsb].
  intro H. apply andb_true_iff in H as [He Hr]. rewrite (IH Hr), orb_false_r.
  destruct e as [| | |? ? []| | | | | |]; cbn [replay_stopped] in He;
    try discriminate He; reflexivity.
Qed.

Lemma before_direct_not_exec evs :
  forallb before_direct evs = true -> existsb exec_returned evs = false.
Proof.
  induction evs as [|e r IH]; [reflexivity|]. cbn [forallb existsb].
  intro H. apply andb_true_iff in H as [He Hr]. rewrite (IH Hr), orb_false_r.
  destruct e; cbn [before_direct] in He; try discriminate He; reflexivity.
Qed.

(** The three ways a call can go, read on its own events. *)
Lemma addProgress_cases h :
  let x := addProgressForActivity W c s a st sc h in
  (args_ok c s a st = false
   /\ existsb exec_returned (snd x) = false
   /\ existsb (replay_failure W) (snd x) = false
   /\ existsb is_fetch (snd x) = false
   /\ exists msg, fst x = Throw (JsError msg))
  \/ (exists tab req results,
        In (EvExecuteScript tab req (Ret results)) (snd x)
        /\ (forall tab' req' results',
              In (EvExecuteScript tab' req' (Ret results')) (snd x) ->
              results' = results)
        /\ fst x = Ret (opt_prop (opt_first results) "result")
        /\ existsb (replay_failure W) (snd x) = false
        /\ existsb is_fetch (snd x) = false)
  \/ (exists b ans,
        In (EvFetch GRAPHQL_ENDPOINT (init_of b) ans) (snd x)
        /\ operationName b = "AddProgress"
        /\ fst x = direct_outcome W ans
        /\ existsb exec_returned (snd x) = false).
Proof.
  intro x. subst x. rewrite addProgress_unfold. cbn [fst snd].
  set (h1 := h ++ [EvEnter c s a st sc]).
  destruct (body_cases h1) as [H|[H|H]]; cbv zeta in H.
  - left. destruct H as (Ha & He & msg & Hm). rewrite He, Hm.
    cbn. repeat split; auto. now exists msg.
  - right; left. destruct H as (pre & tab & req & results & He & Hr & Hp).
    rewrite He, Hr. exists tab, req, results.
    split; [right; rewrite <- app_assoc; apply in_or_app; right; now left|].
    split.
    { intros tab' req' results' [Hin|Hin]; [discriminate Hin|].
      rewrite <- app_assoc in Hin. apply in_app_or in Hin as [Hin|Hin].
      - exfalso. pose proof (going_not_exec _ Hp) as Hn.
        assert (Ht : existsb exec_returned pre = true)
          by (apply existsb_exists; eexists; split; [exact Hin|reflexivity]).
        congruence.
      - destruct Hin as [Hin|[Hin|[]]]; [|discriminate Hin].
        now injection Hin. }
    split; [reflexivity|].
    cbn [existsb replay_failure is_fetch orb].
    rewrite !existsb_app, (going_not_failure _ Hp), (going_not_fetch _ Hp).
    split; reflexivity.
  - right; right.
    destruct H as (pre & mid & b & ans & He & Hr & Hp & Hm & Hop).
    rewrite He, Hr. exists b, ans.
    split; [right; rewrite <- !app_assoc; do 2 (apply in_or_app; right); now left|].
    split; [exact Hop|]. split; [reflexivity|].
    cbn [existsb exec_returned orb].
    rewrite !existsb_app, (stopped_not_exec _ Hp), (before_direct_not_exec _ Hm).
    reflexivity.
Qed.

Lemma body_quiet h :
  forallb (fun e => negb (bookkeeping e))
          (snd (addProgressForActivity_body W c s a st sc h)) = true.
Proof.
  destruct (body_cases h) as [H|[H|H]]; cbv zeta in H.
  - destruct H as (_ & He & _). now rewrite He.
  - destruct H as (pre & tab & req & results & He & _ & Hp).
    rewrite He, forallb_app. cbn [forallb bookkeeping negb].
    rewrite andb_true_r.
    eapply TraceFacts.forallb_weaken; [|exact Hp].
    intros e; destruct e; simpl; congruence.
  - destruct H as (pre & mid & b & ans & He & _ & Hp & Hm & _).
    rewrite He, !forallb_app. cbn [forallb bookkeeping negb].
    rewrite andb_true_r. apply andb_true_iff. split.
    + eapply TraceFacts.forallb_weaken; [|exact Hp].
      intros e; destruct e; simpl; congruence.
    + eapply TraceFacts.forallb_weaken; [|exact Hm].
      intros e; destruct e; simpl; congruence.
Qed.

(** A call shows in the trace as one attempt, and as one return exactly
    when it returned. *)
Lemma addProgress_bracket h :
  let x := addProgressForActivity W c s a st sc h in
  submissions (snd x)
  = [{| sub_course := c; sub_sequence := s; sub_activity := a;
        sub_step := st; sub_score := sc |}]
  /\ returned (snd x) = (if is_ret (fst x) then 1 else 0).
Proof.
  intro x. subst x. rewrite addProgress_unfold. cbn [fst snd].
  set (evs := snd _). set (r := fst _).
  pose proof (body_quiet (h ++ [EvEnter c s a st sc])) as Hq. fold evs in Hq.
  change (EvEnter c s a st sc :: evs ++ [EvLeave (is_ret r)])
    with ([EvEnter c s a st sc] ++ evs ++ [EvLeave (is_ret r)]).
  rewrite !TraceFacts.submissions_app, !TraceFacts.returned_app.
  rewrite (TraceFacts.quiet_submissions _ Hq), (TraceFacts.quiet_returned _ Hq).
  split; [reflexivity|]. now destruct (is_ret r).
Qed.

End Cases.

End WithWorld.
End AddProgressFacts.

(** ** [processAllProgress] *)

Module WalkFacts.
Import IOMonad IOFacts JS Trace AddProgress AddProgressFacts.
Local Open Scope string_scope.
Local Open Scope list_scope.

#[local] Opaque addProgressForActivity getSequence getCoursesAndProgress.

Lemma try_catch_unfold {A} (m : IO A) handler h :
  try_catch m handler h =
  match m h with
  | (Ret a, e1) => (Ret a, e1)
  | (Throw e, e1) => let (r, e2) := handler e (h ++ e1) in (r, e1 ++ e2)
  end.
Proof. reflexivity. Qed.

Lemma bind_console {B} lvl parts (k : unit -> IO B) h :
  bind (console lvl parts) k h =
  (fst (k tt (h ++ [EvConsole lvl parts])),
   EvConsole lvl parts :: snd (k tt (h ++ [EvConsole lvl parts]))).
Proof.
  unfold bind, console, emit.
  now destruct (k tt (h ++ [EvConsole lvl parts])).
Qed.

Lemma for_each_returns {A} (xs : list A) (f : A -> IO unit) :
  (forall x h, In x xs -> fst (f x h) = Ret tt) ->
  forall h, fst (for_each xs f h) = Ret tt.
Proof.
  induction xs as [|x r IH]; intros Hf h; [reflexivity|].
  cbn [for_each]. rewrite bind_unfold.
  pose proof (Hf x h (or_introl eq_refl)) as Hx.
  destruct (f x h) as [[[]|e] e1]; cbn [fst] in Hx; [|discriminate].
  specialize (IH (fun y h' Hy => Hf y h' (or_intror Hy)) (h ++ e1)).
  now destruct (for_each r f (h ++ e1)).
Qed.

Section WithWorld.
Variable W : World.

Section Steps.
Variables courseId sequence activity : jsval.




End Steps.

Lemma decode_activities_returns raw h :
  is_ret (fst (decode_activities W raw h)) = true.
Proof.
  unfold decode_activities. destruct raw; try reflexivity.
  rewrite try_catch_unfold. unfold of_outcome, parse.
  now destruct (JSON_parse W s).
Qed.

(** One turn of the sequence loop returns whatever happens inside its
    [try], and a failure shows as the line of its [catch]. *)
Lemma walk_sequence_returns locale courseId sq h :
  wf_summary sq = true ->
  let x := walk_sequence W locale courseId sq h in
  fst x = Ret tt
  /\ exists title start,
       get_prop sq "title" = Ret (JStr title)
       /\ snd x = start :: snd (fetch_and_walk_sequence W locale courseId
                                  (titleToSlug W title) (h ++ [start]))
                  ++ match fst (fetch_and_walk_sequence W locale courseId
                                  (titleToSlug W title) (h ++ [start])) with
                     | Ret _ => []
                     | Throw e => [sequence_failed_line (titleToSlug W title) e]
                     end.
Proof.
  intros Hwf x. subst x. unfold walk_sequence, wf_summary in *.
  destruct (get_prop sq "title") as [[| | | |title| |]|e]; try discriminate.
  rewrite bind_of_outcome_ret. cbn [titleToSlug_any].
  rewrite bind_of_outcome_ret, bind_console, try_catch_unfold.
  set (start := EvConsole Log _).
  destruct (fetch_and_walk_sequence W locale courseId (titleToSlug W title)
              (h ++ [start])) as [[[]|e] e1] eqn:Hrun; cbn [fst snd emit].
  - split; [reflexivity|]. exists title, start.
    rewrite Hrun. cbn [fst snd]. now rewrite app_nil_r.
  - split; [reflexivity|]. exists title, start.
    rewrite Hrun. cbn [fst snd]. auto.
Qed.

Lemma walk_course_returns locale course h :
  wf_course course = true ->
  fst (walk_course W locale course h) = Ret tt.
Proof.
  intro Hwf. unfold walk_course, wf_course in *.
  destruct (get_prop course "sequences") as [sequences|e] eqn:Hs;
    [|discriminate].
  assert (Hn : nullish course = false) by (destruct course; try reflexivity; discriminate).
  destruct (get_prop course "courseId") as [cid|e] eqn:Hc;
    [|destruct course; discriminate].
  destruct (get_prop course "title") as [title|e] eqn:Ht;
    [|destruct course; discriminate].
  rewrite !bind_of_outcome_ret, bind_console. cbn [fst].
  rewrite bind_of_outcome_ret.
  destruct (negb (truthy sequences) || is_zero (opt_prop sequences "length"));
    [reflexivity|].
  destruct sequences as [| | | | |items|]; try discriminate.
  cbn [iterate]. rewrite bind_of_outcome_ret.
  apply for_each_returns. intros sq h' Hin.
  rewrite forallb_forall in Hwf.
  now apply walk_sequence_returns, Hwf.
Qed.



Lemma process_returns locale h data :
  fst (top_fetch W locale h) = Ret data ->
  truthy (assigned_courses data) = true ->
  wf_courses (assigned_courses data) = true ->
  fst (processAllProgress W locale h) = Ret tt.
Proof.
  unfold top_fetch, processAllProgress, assigned_courses. intros H Hc Hwf.
  rewrite try_catch_unfold, bind_console.
  set (h1 := h ++ _) in *. rewrite bind_unfold.
  destruct (getCoursesAndProgress W _ h1) as [[data'|e'] e1]; cbn [fst] in H;
    [|discriminate]. injection H as ->. rewrite Hc. cbn [negb].
  unfold wf_courses in Hwf.
  destruct (opt_prop (opt_prop data "data") "assignedCourses")
    as [| | | | |cs|]; try discriminate.
  cbn [get_prop iterate]. rewrite bind_of_outcome_ret, bind_console.
  rewrite bind_of_outcome_ret. cbn [fst snd].
  rewrite bind_unfold.
  match goal with |- context [for_each cs ?f ?hh] =>
    pose proof (@for_each_returns _ cs f
                  (fun c h' Hin => walk_course_returns _ c h'
                     (proj1 (forallb_forall _ _) Hwf c Hin)) hh) as Hf;
    destruct (for_each cs f hh) as [[[]|e] e2]; cbn [fst] in Hf;
      [|discriminate]
  end.
  reflexivity.
Qed.
End WithWorld.
End WalkFacts.

(** ** [components/TimeForm.tsx] *)

Module TimeFormFacts.
Import JS Trace TimeForm.
Local Open Scope string_scope.
Local Open Scope list_scope.

Lemma form_bind_unfold {A B} (m : F A) (k : A -> F B) h st :
  bind m k h st =
  match m h st with
  | (Ret a, e1, st1) =>
      match k a (h ++ e1) st1 with
      | (r, e2, st2) => (r, e1 ++ e2, st2)
      end
  | (Throw e, e1, st1) => (Throw e, e1, st1)
  end.
Proof. reflexivity. Qed.

Lemma bind_outcome_ret {A B} (a : A) (k : A -> F B) h st :
  bind (of_outcome (Ret a)) k h st = k a h st.
Proof.
  unfold bind, of_outcome. rewrite app_nil_r.
  now destruct (k a h st) as [[r e2] st2].
Qed.

Lemma bind_outcome_throw {A B} e (k : A -> F B) h st :
  bind (of_outcome (Throw e)) k h st = (Throw e, [], st).
Proof. reflexivity. Qed.

Lemma bind_modify {B} f (k : unit -> F B) h st :
  bind (modify f) k h st = k tt h (f st).
Proof.
  unfold bind, modify. rewrite app_nil_r.
  now destruct (k tt h (f st)) as [[r e2] st2].
Qed.

Lemma form_for_each_cons {A} (x : A) xs (f : A -> F unit) :
  for_each (x :: xs) f = bind (f x) (fun _ => for_each xs f).
Proof. reflexivity. Qed.

Lemma advanced_refl st : advanced st st 0 0 0.
Proof. unfold advanced. repeat split; lia. Qed.

Lemma advanced_trans st st1 st2 a b c a' b' c' :
  advanced st st1 a b c -> advanced st1 st2 a' b' c' ->
  advanced st st2 (a + a') (b + b') (c + c').
Proof.
  unfold advanced. intros (H1 & H2 & H3 & H4 & H5 & H6) (K1 & K2 & K3 & K4 & K5 & K6).
  repeat split; try lia; congruence.
Qed.

#[local] Opaque AddProgress.addProgressForActivity AddProgress.getSequence.

Section WithWorld.
Variable W : World.

Lemma submit_step_spec sq sequence activity step h st :
  let x := submit_step W sq sequence activity step h st in
  outcome_of x = Ret tt
  /\ advanced st (state_of x) 0 0 (returned (events_of x))
  /\ submissions (events_of x) = expected_step sq sequence activity step.
Proof.
  intro x. subst x. unfold submit_step, try_catch, expected_step.
  destruct (get_prop sequence "sequenceId") as [sid|e];
    [rewrite bind_outcome_ret
    |rewrite bind_outcome_throw; cbn; auto using advanced_refl].
  destruct (get_prop activity "activityId") as [aid|e];
    [rewrite bind_outcome_ret
    |rewrite bind_outcome_throw; cbn; auto using advanced_refl].
  destruct (get_prop step "activityStepId") as [stepId|e];
    [rewrite bind_outcome_ret
    |rewrite bind_outcome_throw; cbn; auto using advanced_refl].
  rewrite form_bind_unfold. unfold lift.
  pose proof (AddProgressFacts.addProgress_bracket W (JStr (courseId sq))
                sid aid stepId (num 1) h) as [Hs Hr].
  destruct (AddProgress.addProgressForActivity W (JStr (courseId sq))
              sid aid stepId (num 1) h) as [[v|e] evs];
    cbn [fst snd is_ret] in Hs, Hr.
  - cbn [add_steps modify outcome_of events_of state_of fst snd ret].
    rewrite app_nil_r. split; [reflexivity|]. split; [|exact Hs].
    rewrite Hr. unfold advanced. cbn. repeat split; lia.
  - cbn [outcome_of events_of state_of fst snd ret].
    rewrite app_nil_r. split; [reflexivity|]. split; [|exact Hs].
    rewrite Hr. apply advanced_refl.
Qed.

Lemma submit_whole_spec sq sequence activity h st :
  let x := submit_whole W sq sequence activity h st in
  outcome_of x = Ret tt
  /\ submissions (events_of x) = expected_whole sq sequence activity
  /\ returned (events_of x) <= 1
  /\ advanced st (state_of x) (returned (events_of x))
              (1 - returned (events_of x)) (returned (events_of x)).
Proof.
  assert (Hfail : advanced st (set_counters (successCount st) (errorCount st + 1)
                                 (stepsProcessed st) st) 0 1 0).
  { unfold advanced. cbn. repeat split; lia. }
  intro x. subst x. unfold submit_whole, try_catch, expected_whole.
  destruct (get_prop sequence "sequenceId") as [sid|e];
    [rewrite bind_outcome_ret
    |rewrite bind_outcome_throw; cbn; auto].
  destruct (get_prop activity "activityId") as [aid|e];
    [rewrite bind_outcome_ret
    |rewrite bind_outcome_throw; cbn; auto].
  rewrite form_bind_unfold. unfold lift.
  pose proof (AddProgressFacts.addProgress_bracket W (JStr (courseId sq))
                sid aid aid (num 1) h) as [Hs Hr].
  destruct (AddProgress.addProgressForActivity W (JStr (courseId sq))
              sid aid aid (num 1) h) as [[v|e] evs];
    cbn [fst snd is_ret] in Hs, Hr.
  - cbv beta iota. unfold add_steps. rewrite bind_modify.
    cbn [add_success modify outcome_of events_of state_of fst snd ret].
    rewrite app_nil_r, Hr. split; [reflexivity|]. split; [exact Hs|].
    split; [lia|]. unfold advanced. cbn. repeat split; lia.
  - cbn [add_error modify outcome_of events_of state_of fst snd ret].
    rewrite app_nil_r, Hr. split; [reflexivity|]. split; [exact Hs|].
    split; [lia|]. exact Hfail.
Qed.

Lemma step_loop_spec sq sequence activity items :
  forall h st,
  let x := for_each items (submit_step W sq sequence activity) h st in
  outcome_of x = Ret tt
  /\ advanced st (state_of x) 0 0 (returned (events_of x))
  /\ submissions (events_of x)
     = flat_map (expected_step sq sequence activity) items.
Proof.
  induction items as [|step rest IH]; intros h st x; subst x.
  - cbn. auto using advanced_refl.
  - rewrite form_for_each_cons, form_bind_unfold.
    pose proof (submit_step_spec sq sequence activity step h st) as (Hr & Ha & Hs).
    destruct (submit_step W sq sequence activity step h st) as [[r e1] st1].
    cbn [outcome_of events_of state_of fst snd] in Hr, Ha, Hs. subst r.
    specialize (IH (h ++ e1) st1). cbv zeta in IH.
    destruct IH as (Hr2 & Ha2 & Hs2).
    destruct (for_each rest (submit_step W sq sequence activity) (h ++ e1) st1)
      as [[r2 e2] st2].
    cbn [outcome_of events_of state_of fst snd] in *.
    split; [exact Hr2|].
    rewrite TraceFacts.returned_app, TraceFacts.submissions_app, Hs, Hs2.
    split; [|reflexivity].
    exact (advanced_trans Ha Ha2).
Qed.

(** An activity whose fresh record carries a step list. *)
Lemma process_activity_steps sq sequence activity items h st :
  get_prop activity "steps" = Ret (JArr items) ->
  let x := process_activity W sq sequence activity h st in
  outcome_of x = Ret tt
  /\ advanced st (state_of x) 1 0 (returned (events_of x))
  /\ submissions (events_of x)
     = flat_map (expected_step sq sequence activity) items.
Proof.
  intros Hsteps x. subst x. unfold process_activity.
  rewrite Hsteps, bind_outcome_ret. cbn [truthy Array_isArray andb iterate].
  rewrite bind_outcome_ret, form_bind_unfold.
  pose proof (step_loop_spec sq sequence activity items h st) as (Hr & Ha & Hs).
  destruct (for_each items (submit_step W sq sequence activity) h st)
    as [[r e1] st1].
  cbn [outcome_of events_of state_of fst snd] in Hr, Ha, Hs. subst r.
  cbn [add_success modify outcome_of events_of state_of fst snd].
  rewrite app_nil_r. split; [reflexivity|]. split; [|exact Hs].
  destruct Ha as (H1 & H2 & H3 & H4 & H5 & H6).
  unfold advanced. cbn. repeat split; try lia; assumption.
Qed.

(** An activity whose fresh record carries no step list. *)
Lemma process_activity_whole sq sequence activity steps h st :
  get_prop activity "steps" = Ret steps ->
  truthy steps && Array_isArray steps = false ->
  process_activity W sq sequence activity h st
  = submit_whole W sq sequence activity h st.
Proof.
  intros Hsteps Hno. unfold process_activity.
  now rewrite Hsteps, bind_outcome_ret, Hno.
Qed.

(** The fresh [activities] field: a string that parses to something that
    is not a list, or a value that is neither a string nor a list, counts
    as the empty list; a string that does not parse throws. *)
Lemma non_list_activities_are_empty raw :
  (forall s, raw = JStr s ->
     exists v, JSON_parse W s = Some v /\ Array_isArray v = false) ->
  Array_isArray raw = false ->
  normalize_activities W raw = Ret [].
Proof.
  intros Hs Ha. destruct raw; try reflexivity; try discriminate.
  destruct (Hs s eq_refl) as (v & Hp & Hv).
  unfold normalize_activities, parse. rewrite Hp.
  destruct v; try reflexivity; discriminate.
Qed.

Lemma unparsable_activities_throw s :
  JSON_parse W s = None ->
  normalize_activities W (JStr s) = Throw SyntaxError.
Proof.
  intro Hp. unfold normalize_activities, parse. now rewrite Hp.
Qed.

(** An activity whose fresh record has no step list (absent, or not an
    array) is submitted once, as its own step, and the outcome of that
    submission moves the success or the error counter. *)
Lemma activity_without_step_list_is_submitted_once
    sq sequence activity steps h st :
  get_prop activity "steps" = Ret steps ->
  truthy steps && Array_isArray steps = false ->
  let x := process_activity W sq sequence activity h st in
  outcome_of x = Ret tt
  /\ submissions (events_of x) = expected_whole sq sequence activity
  /\ returned (events_of x) <= 1
  /\ advanced st (state_of x) (returned (events_of x))
              (1 - returned (events_of x)) (returned (events_of x)).
Proof.
  intros Hsteps Hno x. subst x.
  rewrite (process_activity_whole sq sequence activity h st Hsteps Hno).
  apply submit_whole_spec.
Qed.

Lemma process_sequence_fetch_failed sq line h st :
  sequence_selected sq = true ->
  selected_of sq <> [] ->
  fetch_failure_line sq (fst (sequence_fetch W sq h)) = Some line ->
  process_sequence W sq h st
  = (Ret tt, snd (sequence_fetch W sq h),
     set_counters (successCount st)
       (errorCount st + List.length (selected_of sq)) (stepsProcessed st)
       (with_result (appended (result st) line) st)).
Proof.
  intros Hsel Hne Hline. unfold process_sequence. rewrite Hsel. cbn [negb].
  destruct (selected_of sq) as [|a0 chosen] eqn:Hc; [congruence|].
  unfold try_catch, fetch_and_process. rewrite form_bind_unfold. unfold lift.
  unfold sequence_fetch in *.
  destruct (AddProgress.getSequence W (JStr (courseId sq))
              (JStr (AddProgress.titleToSlug W (sequenceTitle sq)))
              (str "fr-FR") h) as [[seqData|e] evs];
    cbn [fst snd fetch_failure_line] in *.
  - destruct (truthy (opt_prop (opt_prop seqData "data") "sequence"));
      [discriminate|]. injection Hline as <-.
    cbn [negb]. unfold appendResult. rewrite bind_modify.
    cbn [add_error modify]. now rewrite !app_nil_r.
  - injection Hline as <-.
    unfold appendResult. rewrite bind_modify.
    cbn [add_error modify]. now rewrite !app_nil_r.
Qed.

Lemma validation_guard sequences h st :
  totalActivities sequences = 0 ->
  handleProcessSelected W sequences h st
  = (Ret tt, [],
     {| error := Some SelectAtLeastOne; result := result st;
        processing := processing st; successCount := successCount st;
        errorCount := errorCount st; stepsProcessed := stepsProcessed st |}).
Proof.
  intro H. unfold handleProcessSelected. rewrite H. reflexivity.
Qed.
End WithWorld.
End TimeFormFacts.

(** ** A replayed submission in the two engines *)

Module ReplayFacts.
Import IOMonad IOFacts JS Trace AddProgress AddProgressFacts.
Local Open Scope string_scope.
Local Open Scope list_scope.
#[local] Opaque addProgressForActivity.

Section WithWorld.
Variable W : World.

(** The function run in the page returns for every status: a rejection
    by the server is a value, not a throw. *)
Lemma in_page_function_ignores_status status text :
  in_page_function {| res_status := status; res_text := Ret text |}
  = Ret (JObj [ (js "status", JNum (inject_Z status));
                (js "ok", JBool (res_ok {| res_status := status;
                                           res_text := Ret text |}));
                (js "text", JStr text) ]).
Proof. reflexivity. Qed.

(** [results?.[0]?.result] on the frames of a run of the function. *)
Lemma result_of_first_frame returned rest :
  opt_prop (opt_first (JArr (frame_of returned :: rest))) "result"
  = match returned with
    | Ret r => r
    | Throw _ => JUndef
    end.
Proof. destruct returned; reflexivity. Qed.

(** A call whose in-page execution handed back a result returns. *)
Lemma exec_returned_returns c s a st sc h :
  existsb exec_returned (snd (addProgressForActivity W c s a st sc h)) = true ->
  is_ret (fst (addProgressForActivity W c s a st sc h)) = true.
Proof.
  intro H.
  destruct (addProgress_cases W c s a st sc h) as [K|[K|K]]; cbv zeta in K.
  - destruct K as (_ & Hn & _). congruence.
  - destruct K as (tab & req & results & _ & _ & Hr & _). now rewrite Hr.
  - destruct K as (b & ans & _ & _ & _ & Hn). congruence.
Qed.

Lemma walk_whole_replayed courseId sequence activity h :
  let x := walk_whole W courseId sequence activity h in
  existsb exec_returned (snd x) = true ->
  fst x = Ret tt
  /\ exists activityId,
       get_prop activity "activityId" = Ret activityId
       /\ In (EvConsole Log [LText "      ✓ Added progress for activity: ";
                             LVal activityId]) (snd x).
Proof.
  intro x. subst x. unfold walk_whole.
  destruct (get_prop sequence "sequenceId") as [sid|e];
    [rewrite bind_of_outcome_ret | rewrite bind_of_outcome_throw; discriminate].
  destruct (get_prop activity "activityId") as [aid|e];
    [rewrite bind_of_outcome_ret | rewrite bind_of_outcome_throw; discriminate].
  rewrite bind_unfold.
  pose proof (exec_returned_returns courseId sid aid aid (num 1) h) as Hret.
  destruct (addProgressForActivity W courseId sid aid aid (num 1) h)
    as [[v|e] evs]; cbn [fst snd is_ret] in Hret |- *.
  - intros _. split; [reflexivity|]. exists aid. split; [reflexivity|].
    apply in_or_app. right. now left.
  - intro H. specialize (Hret H). discriminate.
Qed.

Lemma walk_step_replayed courseId sequence activity step h :
  let x := walk_step W courseId sequence activity step h in
  existsb exec_returned (snd x) = true ->
  fst x = Ret tt
  /\ exists stepId,
       get_prop step "activityStepId" = Ret stepId
       /\ In (EvConsole Log [LText "      ✓ Added progress for step: ";
                             LVal stepId]) (snd x).
Proof.
  intro x. subst x. unfold walk_step.
  destruct (get_prop sequence "sequenceId") as [sid|e];
    [rewrite bind_of_outcome_ret | rewrite bind_of_outcome_throw; discriminate].
  destruct (get_prop activity "activityId") as [aid|e];
    [rewrite bind_of_outcome_ret | rewrite bind_of_outcome_throw; discriminate].
  destruct (get_prop step "activityStepId") as [stepId|e];
    [rewrite bind_of_outcome_ret | rewrite bind_of_outcome_throw; discriminate].
  rewrite bind_unfold.
  pose proof (exec_returned_returns courseId sid aid stepId (num 1) h) as Hret.
  destruct (addProgressForActivity W courseId sid aid stepId (num 1) h)
    as [[v|e] evs]; cbn [fst snd is_ret] in Hret |- *.
  - intros _. split; [reflexivity|]. exists stepId. split; [reflexivity|].
    apply in_or_app. right. now left.
  - intro H. specialize (Hret H). discriminate.
Qed.
End WithWorld.
End ReplayFacts.

Module TimeFormReplay.
Import JS Trace TimeForm TimeFormFacts.
Local Open Scope string_scope.
Local Open Scope list_scope.
#[local] Opaque AddProgress.addProgressForActivity.

Section WithWorld.
Variable W : World.

Lemma submit_whole_replayed sq sequence activity h st :
  let x := submit_whole W sq sequence activity h st in
  existsb exec_returned (events_of x) = true ->
  advanced st (state_of x) 1 0 1.
Proof.
  intro x. subst x. unfold submit_whole, try_catch.
  destruct (get_prop sequence "sequenceId") as [sid|e];
    [rewrite bind_outcome_ret | rewrite bind_outcome_throw; discriminate].
  destruct (get_prop activity "activityId") as [aid|e];
    [rewrite bind_outcome_ret | rewrite bind_outcome_throw; discriminate].
  rewrite form_bind_unfold. unfold lift.
  pose proof (ReplayFacts.exec_returned_returns W (JStr (courseId sq))
                sid aid aid (num 1) h) as Hret.
  destruct (AddProgress.addProgressForActivity W (JStr (courseId sq))
              sid aid aid (num 1) h) as [[v|e] evs];
    cbn [fst snd is_ret] in Hret.
  - intros _. cbv beta iota. unfold add_steps. rewrite bind_modify.
    cbn [add_success modify state_of snd]. unfold advanced. cbn.
    repeat split; lia.
  - cbn [events_of fst snd add_error modify]. rewrite app_nil_r.
    intro H. specialize (Hret H). discriminate.
Qed.

Lemma submit_step_replayed sq sequence activity step h st :
  let x := submit_step W sq sequence activity step h st in
  existsb exec_returned (events_of x) = true ->
  advanced st (state_of x) 0 0 1.
Proof.
  intro x. subst x. unfold submit_step, try_catch.
  destruct (get_prop sequence "sequenceId") as [sid|e];
    [rewrite bind_outcome_ret | rewrite bind_outcome_throw; discriminate].
  destruct (get_prop activity "activityId") as [aid|e];
    [rewrite bind_outcome_ret | rewrite bind_outcome_throw; discriminate].
  destruct (get_prop step "activityStepId") as [stepId|e];
    [rewrite bind_outcome_ret | rewrite bind_outcome_throw; discriminate].
  rewrite form_bind_unfold. unfold lift.
  pose proof (ReplayFacts.exec_returned_returns W (JStr (courseId sq))
                sid aid stepId (num 1) h) as Hret.
  destruct (AddProgress.addProgressForActivity W (JStr (courseId sq))
              sid aid stepId (num 1) h) as [[v|e] evs];
    cbn [fst snd is_ret] in Hret.
  - intros _. cbn [add_steps modify state_of snd]. unfold advanced. cbn.
    repeat split; lia.
  - cbn [events_of fst snd ret]. rewrite app_nil_r.
    intro H. specialize (Hret H). discriminate.
Qed.
End WithWorld.
End TimeFormReplay.

(** * The claims of the specification *)

Import JS Trace.
Local Open Scope string_scope.
Local Open Scope list_scope.

(** ** Identifier utilities *)

(** C8 at a title: the Latin-1 fragment of the built-ins meets the two
    assumptions. *)
Lemma titleToSlug_idempotent_and_shaped_witness :
  Slug.titleToSlug_latin1 (Slug.titleToSlug_latin1 (js "Concertar una cita"))
  = Slug.titleToSlug_latin1 (js "Concertar una cita")
  /\ Slug.slug_shape (Slug.titleToSlug_latin1 (js "Concertar una cita")).
Proof.
  exact (@titleToSlug_idempotent_and_shaped
           Slug.toLowerCase_latin1 Slug.normalizeNFD_latin1
           Latin1Facts.toLowerCase_latin1_plain
           Latin1Facts.normalizeNFD_latin1_plain
           (js "Concertar una cita")).
Defined.

(** The example of the specification, and two more. *)
Example slug_concertar :
  Slug.titleToSlug_latin1 (js "Concertar una cita") = js "concertar-una-cita".
Proof. reflexivity. Qed.

Example slug_accents :
  Slug.titleToSlug_latin1 [201; 99; 111; 108; 101; 32; 33; 33; 32; 78; 176; 49]%N
  = js "ecole-n-1".
Proof. reflexivity. Qed.

Example slug_only_punctuation :
  Slug.titleToSlug_latin1 (js "?!...") = [].
Proof. reflexivity. Qed.

(** ** The selected-batch engine *)

(** C6: when no activity is selected in any selected sequence, the handler
    reports the validation failure and returns having made no call at all:
    no sequence fetch and no submission. *)
Theorem empty_selection_is_rejected_without_network
    (W : World) (sequences : list TimeForm.SequenceItem)
    (h : list event) (st : TimeForm.form) :
  TimeForm.totalActivities sequences = 0 ->
  let x := TimeForm.handleProcessSelected W sequences h st in
  outcome_of x = Ret tt
  /\ events_of x = []
  /\ TimeForm.error (state_of x) = Some TimeForm.SelectAtLeastOne
  /\ TimeForm.result (state_of x) = TimeForm.result st
  /\ TimeForm.processing (state_of x) = TimeForm.processing st.
Proof.
  intros H x. subst x. rewrite (TimeFormFacts.validation_guard W _ h st H).
  cbn. auto.
Qed.

(** C6 at a sequence that is not selected although one of its activities
    is. *)
Lemma empty_selection_is_rejected_without_network_witness :
  outcome_of Examples.nothing_selected_run = Ret tt
  /\ events_of Examples.nothing_selected_run = []
  /\ TimeForm.error (state_of Examples.nothing_selected_run)
     = Some TimeForm.SelectAtLeastOne
  /\ TimeForm.result (state_of Examples.nothing_selected_run)
     = TimeForm.result Examples.idle
  /\ TimeForm.processing (state_of Examples.nothing_selected_run)
     = TimeForm.processing Examples.idle.
Proof.
  apply (@empty_selection_is_rejected_without_network
           (Examples.rejecting_world (JArr []))
           [Examples.saludos false] [] Examples.idle).
  reflexivity.
Defined.

(** C4: when the fresh fetch of a selected sequence fails, by a throw or by
    a payload without sequence data, the turn of the loop ends normally, the
    error counter grows by the number of activities selected in the sequence,
    the success counter does not move, the failure line is appended to the
    report, and the loop goes on with the sequences that remain. *)
Theorem failed_sequence_fetch_is_counted
    (W : World) (sq : TimeForm.SequenceItem) (line : TimeForm.report_line)
    (rest : list TimeForm.SequenceItem) (h : list event) (st : TimeForm.form) :
  TimeForm.sequence_selected sq = true ->
  TimeForm.selected_of sq <> [] ->
  TimeForm.fetch_failure_line sq (fst (TimeForm.sequence_fetch W sq h)) = Some line ->
  let x := TimeForm.process_sequence W sq h st in
  outcome_of x = Ret tt
  /\ TimeForm.errorCount (state_of x)
     = TimeForm.errorCount st + List.length (TimeForm.selected_of sq)
  /\ TimeForm.successCount (state_of x) = TimeForm.successCount st
  /\ TimeForm.result (state_of x) = TimeForm.appended (TimeForm.result st) line
  /\ TimeForm.for_each (sq :: rest) (TimeForm.process_sequence W) h st
     = (let y := TimeForm.for_each rest (TimeForm.process_sequence W)
                   (h ++ events_of x) (state_of x) in
        (outcome_of y, events_of x ++ events_of y, state_of y)).
Proof.
  intros Hsel Hne Hline x. subst x.
  rewrite TimeFormFacts.form_for_each_cons, TimeFormFacts.form_bind_unfold.
  rewrite (TimeFormFacts.process_sequence_fetch_failed W sq h st Hsel Hne Hline).
  cbn [outcome_of events_of state_of fst snd].
  repeat split.
  now destruct (TimeForm.for_each rest (TimeForm.process_sequence W) _ _)
    as [[r e2] st2].
Qed.

(** C4 at a sequence with one selected activity whose fetch is answered
    with HTTP 500. *)
Lemma failed_sequence_fetch_is_counted_witness :
  outcome_of Examples.unreachable_sequence_run = Ret tt
  /\ TimeForm.errorCount (state_of Examples.unreachable_sequence_run) = 0 + 1
  /\ TimeForm.successCount (state_of Examples.unreachable_sequence_run) = 0
  /\ TimeForm.result (state_of Examples.unreachable_sequence_run)
     = TimeForm.appended None
         (TimeForm.SequenceFailed (js "Intro") (js "Saludos")
            (HttpError 500 (js "Internal Server Error")))
  /\ TimeForm.for_each [Examples.saludos true]
       (TimeForm.process_sequence Examples.unreachable_world) [] Examples.idle
     = (let y := TimeForm.for_each []
                   (TimeForm.process_sequence Examples.unreachable_world)
                   ([] ++ events_of Examples.unreachable_sequence_run)
                   (state_of Examples.unreachable_sequence_run) in
        (outcome_of y, events_of Examples.unreachable_sequence_run ++ events_of y,
         state_of y)).
Proof.
  apply (@failed_sequence_fetch_is_counted Examples.unreachable_world
           (Examples.saludos true)
           (TimeForm.SequenceFailed (js "Intro") (js "Saludos")
              (HttpError 500 (js "Internal Server Error")))
           [] [] Examples.idle).
  - reflexivity.
  - discriminate.
  - vm_compute. reflexivity.
Defined.

(** C5: for an activity whose fresh record carries a step list, the turn of
    the loop ends normally whatever the submissions do, every step of the list
    is submitted, in order, the success counter grows by exactly one and the
    error counter does not move. *)
Theorem step_failures_are_swallowed
    (W : World) (sq : TimeForm.SequenceItem) (sequence activity : jsval)
    (items : list jsval) (h : list event) (st : TimeForm.form) :
  get_prop activity "steps" = Ret (JArr items) ->
  let x := TimeForm.process_activity W sq sequence activity h st in
  outcome_of x = Ret tt
  /\ TimeForm.successCount (state_of x) = TimeForm.successCount st + 1
  /\ TimeForm.errorCount (state_of x) = TimeForm.errorCount st
  /\ submissions (events_of x)
     = flat_map (TimeForm.expected_step sq sequence activity) items.
Proof.
  intros Hsteps x.
  destruct (TimeFormFacts.process_activity_steps W sq sequence activity h st Hsteps)
    as (Hr & (H1 & H2 & _) & Hs).
  fold x in Hr, H1, H2, Hs. repeat split; auto. lia.
Qed.

(** C5 at an activity with two steps whose submissions are both rejected. *)
Lemma step_failures_are_swallowed_witness :
  outcome_of Examples.two_rejected_steps_run = Ret tt
  /\ TimeForm.successCount (state_of Examples.two_rejected_steps_run) = 0 + 1
  /\ TimeForm.errorCount (state_of Examples.two_rejected_steps_run) = 0
  /\ submissions (events_of Examples.two_rejected_steps_run)
     = flat_map (TimeForm.expected_step (Examples.saludos true)
                   (Examples.sequence_record Examples.two_steps)
                   Examples.a1_two_steps)
         [Examples.step "s1"; Examples.step "s2"].
Proof.
  apply (@step_failures_are_swallowed (Examples.rejecting_world (JArr []))
           (Examples.saludos true)
           (Examples.sequence_record Examples.two_steps) Examples.a1_two_steps
           [Examples.step "s1"; Examples.step "s2"] [] Examples.idle).
  reflexivity.
Defined.

Example both_rejected_steps_are_attempted :
  submissions (events_of Examples.two_rejected_steps_run)
  = [Examples.submission_of_a1 "s1"; Examples.submission_of_a1 "s2"]
  /\ returned (events_of Examples.two_rejected_steps_run) = 0.
Proof. vm_compute. auto. Qed.

(** C1, as stated, fails: with two steps whose submissions are both
    rejected, two attempts are made and the step counter stays at 0. *)
Lemma steps_counter_ignores_failed_attempts :
  List.length (submissions (events_of Examples.two_rejected_steps_run)) = 2
  /\ TimeForm.stepsProcessed (state_of Examples.two_rejected_steps_run) = 0
  /\ TimeForm.stepsProcessed (state_of Examples.two_rejected_steps_run)
     <> TimeForm.stepsProcessed Examples.idle
        + List.length (submissions (events_of Examples.two_rejected_steps_run)).
Proof.
  vm_compute. repeat split; discriminate.
Qed.

(** C1, amended: for an activity with a step list, every step is attempted
    and the step counter grows by the number of step submissions that
    returned; a submission that throws leaves it as it was. *)
Theorem steps_counter_counts_returned_submissions
    (W : World) (sq : TimeForm.SequenceItem) (sequence activity : jsval)
    (items : list jsval) (h : list event) (st : TimeForm.form) :
  get_prop activity "steps" = Ret (JArr items) ->
  let x := TimeForm.process_activity W sq sequence activity h st in
  TimeForm.stepsProcessed (state_of x)
  = TimeForm.stepsProcessed st + returned (events_of x)
  /\ submissions (events_of x)
     = flat_map (TimeForm.expected_step sq sequence activity) items.
Proof.
  intros Hsteps x.
  destruct (TimeFormFacts.process_activity_steps W sq sequence activity h st Hsteps)
    as (_ & (_ & _ & H3 & _) & Hs).
  split; assumption.
Qed.

(** C1, amended, at an activity with two steps, the first rejected and the
    second accepted. *)
Lemma steps_counter_counts_returned_submissions_witness :
  TimeForm.stepsProcessed (state_of Examples.second_step_accepted_run)
  = 0 + returned (events_of Examples.second_step_accepted_run)
  /\ submissions (events_of Examples.second_step_accepted_run)
     = flat_map (TimeForm.expected_step (Examples.saludos true)
                   (Examples.sequence_record Examples.two_steps)
                   Examples.a1_two_steps)
         [Examples.step "s1"; Examples.step "s2"].
Proof.
  apply (@steps_counter_counts_returned_submissions Examples.flaky_world
           (Examples.saludos true)
           (Examples.sequence_record Examples.two_steps) Examples.a1_two_steps
           [Examples.step "s1"; Examples.step "s2"] [] Examples.idle).
  reflexivity.
Defined.

Example one_step_rejected_one_accepted :
  returned (events_of Examples.second_step_accepted_run) = 1
  /\ TimeForm.stepsProcessed (state_of Examples.second_step_accepted_run) = 1
  /\ List.length (submissions (events_of Examples.second_step_accepted_run)) = 2.
Proof. vm_compute. auto. Qed.

(** The whole handler on the same two rejected steps: the report gives 0
    steps, one activity succeeded and none failed. *)
Example two_rejected_steps_in_the_report :
  TimeForm.result (state_of Examples.two_rejected_steps_report)
  = Some [TimeForm.Processing 1;
          TimeForm.SequenceDone (js "Intro") (js "Saludos") 0 1;
          TimeForm.Complete 1 0]
  /\ TimeForm.processing (state_of Examples.two_rejected_steps_report) = false.
Proof. vm_compute. auto. Qed.

(** An [activities] field that is the string of an empty list is taken as
    the empty list. *)
Example empty_list_text_is_empty :
  TimeForm.normalize_activities (Examples.rejecting_world (JArr []))
    (JStr (js "[]")) = Ret [].
Proof. reflexivity. Qed.

(** C2 at an activity whose fresh record has an empty step list: the
    selected-batch engine enters the step loop, makes no submission at all,
    and counts the activity as succeeded. *)
Theorem empty_step_list_submits_nothing :
  outcome_of Examples.empty_steps_run = Ret tt
  /\ submissions (events_of Examples.empty_steps_run) = []
  /\ TimeForm.successCount (state_of Examples.empty_steps_run) = 1
  /\ TimeForm.errorCount (state_of Examples.empty_steps_run) = 0
  /\ TimeForm.result (state_of Examples.empty_steps_run)
     = Some [TimeForm.Processing 1;
             TimeForm.SequenceDone (js "Intro") (js "Saludos") 0 1;
             TimeForm.Complete 1 0].
Proof. vm_compute. auto 6. Qed.

(** On the same payload [processAllProgress] submits the activity once, as
    its own step. *)
Example empty_step_list_in_the_full_walk :
  submissions (snd Examples.empty_steps_walk) = [Examples.submission_of_a1 "a1"].
Proof. vm_compute. reflexivity. Qed.

(** C3 at an [activities] field that is a string and not JSON: the
    selected-batch engine records the sequence as failed and counts its
    selected activity as an error. *)
Theorem unparsable_activities_fail_the_sequence :
  outcome_of Examples.unparsable_run = Ret tt
  /\ TimeForm.errorCount (state_of Examples.unparsable_run) = 1
  /\ TimeForm.result (state_of Examples.unparsable_run)
     = Some [TimeForm.Processing 1;
             TimeForm.SequenceFailed (js "Intro") (js "Saludos") SyntaxError;
             TimeForm.Complete 0 1].
Proof. vm_compute. auto. Qed.

(** On the same payload [processAllProgress] warns, takes the list as empty
    and logs no failure. *)
Example unparsable_activities_in_the_full_walk :
  fst Examples.unparsable_walk = Ret tt
  /\ existsb Examples.is_warning (snd Examples.unparsable_walk) = true
  /\ existsb Examples.is_error_line (snd Examples.unparsable_walk) = false.
Proof. vm_compute. auto. Qed.

(** ** The submission *)

(** C7, as stated, fails: a request is stored and the tab runs it, the
    function run in the page throws, and [executeScript] hands back a frame
    without result.  Nothing is caught: the call makes no direct request,
    although that request would be accepted, and returns [undefined]; the
    selected-batch engine counts the activity as done. *)
Lemma in_page_failure_is_not_demoted :
  AddProgress.args_ok (str "c1") (str "seq-1") (str "a1") (str "s1") = true
  /\ AddProgress.in_page_function Examples.unreadable
     = Throw (JsError "network error")
  /\ exec_results (snd Examples.failed_page_call) = [Examples.page_failed]
  /\ fst Examples.failed_page_call = Ret JUndef
  /\ ~ AddProgress.decided_by_direct_request Examples.failed_page_world
         Examples.failed_page_call
  /\ TimeForm.successCount (state_of Examples.failed_page_whole) = 1
  /\ TimeForm.errorCount (state_of Examples.failed_page_whole) = 0.
Proof.
  split; [reflexivity|]. split; [reflexivity|].
  split; [vm_compute; reflexivity|]. split; [vm_compute; reflexivity|].
  split; [|split; vm_compute; reflexivity].
  intros (b & ans & Hin & _).
  assert (Hfetch : existsb is_fetch (snd Examples.failed_page_call) = true)
    by (apply existsb_exists; eexists; split; [exact Hin|reflexivity]).
  vm_compute in Hfetch. discriminate Hfetch.
Qed.

(** C7, amended: with the four identifiers present, a failure of the replay
    path that throws inside the [try] or leaves it without a request to
    replay (the storage read threw, nothing or nothing with a body is
    stored, the stored body does not parse, the tab lookup or the
    [executeScript] call threw) is followed by the direct request, whose
    answer decides the outcome of the call; the same holds whenever
    [executeScript] handed nothing back; and when the call throws, what it
    throws is the error of the direct request.  Once [executeScript] has
    handed back its results, whatever they hold, the trace shows no such
    failure, no direct request is made and the call returns. *)
Theorem replay_failure_falls_back
    (W : World) (c s a st sc : jsval) (h : list event) :
  AddProgress.args_ok c s a st = true ->
  let x := AddProgress.addProgressForActivity W c s a st sc h in
  (existsb (replay_failure W) (snd x) = true ->
   AddProgress.decided_by_direct_request W x)
  /\ (existsb exec_returned (snd x) = false ->
      AddProgress.decided_by_direct_request W x)
  /\ (forall e, fst x = Throw e -> AddProgress.decided_by_direct_request W x)
  /\ (existsb exec_returned (snd x) = true ->
      existsb (replay_failure W) (snd x) = false
      /\ existsb is_fetch (snd x) = false
      /\ is_ret (fst x) = true).
Proof.
  intros Hargs x. unfold AddProgress.decided_by_direct_request.
  destruct (AddProgressFacts.addProgress_cases W c s a st sc h) as [K|[K|K]];
    cbv zeta in K; fold x in K.
  - destruct K as (Hno & _). congruence.
  - destruct K as (tab & req & results & Hin & _ & Hr & Hnf & Hnq).
    split; [intro H; congruence|]. split; [|split].
    + intro H. exfalso.
      assert (Ht : existsb exec_returned (snd x) = true)
        by (apply existsb_exists; eexists; split; [exact Hin|reflexivity]).
      congruence.
    + intros e He. rewrite Hr in He. discriminate.
    + intros _. rewrite Hr. auto.
  - destruct K as (b & ans & Hin & Hop & Hr & Hn).
    split; [|split; [|split]]; try (intros; exists b, ans; now auto).
    intro H. congruence.
Qed.

(** C7 at a call whose storage read throws: the direct request decides. *)
Lemma replay_failure_falls_back_witness :
  AddProgress.decided_by_direct_request Examples.storage_broken_world
    Examples.storage_broken_call.
Proof.
  destruct (@replay_failure_falls_back Examples.storage_broken_world
              (str "c1") (str "seq-1") (str "a1") (str "s1") (num 1) []
              eq_refl) as (Hfailure & _).
  apply Hfailure. vm_compute. reflexivity.
Defined.

Example storage_failure_then_direct_success :
  existsb (replay_failure Examples.storage_broken_world)
          (snd Examples.storage_broken_call) = true
  /\ fst Examples.storage_broken_call = Ret Examples.progress_accepted.
Proof. vm_compute. auto. Qed.

(** C10: when the in-page execution hands back [results], the call returns
    [results?.[0]?.result] as it is and makes no direct request.  When the
    first frame holds what the function of lines 180-189 returned for the
    response [res] of the page's [fetch], that is the object with the
    status, the [ok] flag and the text of [res], for every status and every
    text: neither is tested.  A call that throws never had its in-page
    execution hand back results, so the HTTP and GraphQL errors come from
    the direct request only.  The selected-batch engine then counts the
    submission as done (for a step, in the step counter; for an activity
    without steps, in the step and success counters and not in the error
    counter), and [processAllProgress] logs it as added. *)
Theorem replayed_result_is_not_inspected (W : World) :
  (forall c s a st sc h results,
     let x := AddProgress.addProgressForActivity W c s a st sc h in
     In results (exec_results (snd x)) ->
     fst x = Ret (opt_prop (opt_first results) "result")
     /\ existsb is_fetch (snd x) = false)
  /\ (forall c s a st sc h res text rest,
        let x := AddProgress.addProgressForActivity W c s a st sc h in
        res_text res = Ret text ->
        In (JArr (AddProgress.frame_of (AddProgress.in_page_function res) :: rest))
           (exec_results (snd x)) ->
        fst x = Ret (JObj [ (js "status", JNum (inject_Z (res_status res)));
                            (js "ok", JBool (res_ok res));
                            (js "text", JStr text) ]))
  /\ (forall c s a st sc h e,
        let x := AddProgress.addProgressForActivity W c s a st sc h in
        fst x = Throw e -> existsb exec_returned (snd x) = false)
  /\ (forall sq sequence activity h st,
        let x := TimeForm.submit_whole W sq sequence activity h st in
        existsb exec_returned (events_of x) = true ->
        outcome_of x = Ret tt /\ TimeForm.advanced st (state_of x) 1 0 1)
  /\ (forall sq sequence activity step h st,
        let x := TimeForm.submit_step W sq sequence activity step h st in
        existsb exec_returned (events_of x) = true ->
        outcome_of x = Ret tt /\ TimeForm.advanced st (state_of x) 0 0 1)
  /\ (forall courseId sequence activity h,
        let x := AddProgress.walk_whole W courseId sequence activity h in
        existsb exec_returned (snd x) = true ->
        fst x = Ret tt
        /\ exists activityId,
             get_prop activity "activityId" = Ret activityId
             /\ In (EvConsole Log [LText "      ✓ Added progress for activity: ";
                                   LVal activityId]) (snd x))
  /\ (forall courseId sequence activity step h,
        let x := AddProgress.walk_step W courseId sequence activity step h in
        existsb exec_returned (snd x) = true ->
        fst x = Ret tt
        /\ exists stepId,
             get_prop step "activityStepId" = Ret stepId
             /\ In (EvConsole Log [LText "      ✓ Added progress for step: ";
                                   LVal stepId]) (snd x)).
Proof.
  assert (Hcall : forall c s a st sc h tab req results,
            let x := AddProgress.addProgressForActivity W c s a st sc h in
            In (EvExecuteScript tab req (Ret results)) (snd x) ->
            fst x = Ret (opt_prop (opt_first results) "result")
            /\ existsb is_fetch (snd x) = false).
  { intros c s a st sc h tab req results x Hin.
    assert (Ht : existsb exec_returned (snd x) = true)
      by (apply existsb_exists; eexists; split; [exact Hin|reflexivity]).
    destruct (AddProgressFacts.addProgress_cases W c s a st sc h) as [K|[K|K]];
      cbv zeta in K; fold x in K.
    - destruct K as (_ & Hn & _). congruence.
    - destruct K as (tab' & req' & results' & _ & Huniq & Hr & _ & Hnf).
      rewrite (Huniq _ _ _ Hin). auto.
    - destruct K as (b & ans & _ & _ & _ & Hn). congruence. }
  split; [|split; [|split; [|split; [|split; [|split]]]]].
  - intros c s a st sc h results x Hin.
    apply TraceFacts.in_exec_results in Hin as (tab & req & Hin).
    exact (Hcall c s a st sc h tab req results Hin).
  - intros c s a st sc h res text rest x Htext Hin.
    apply TraceFacts.in_exec_results in Hin as (tab & req & Hin).
    destruct (Hcall c s a st sc h tab req _ Hin) as (Hr & _).
    fold x in Hr. rewrite Hr, ReplayFacts.result_of_first_frame.
    unfold AddProgress.in_page_function. now rewrite Htext.
  - intros c s a st sc h e x He.
    destruct (existsb exec_returned (snd x)) eqn:Hex; [|reflexivity].
    pose proof (ReplayFacts.exec_returned_returns W c s a st sc h Hex) as Hret.
    fold x in Hret. rewrite He in Hret. discriminate Hret.
  - intros sq sequence activity h st x H. split.
    + apply (TimeFormFacts.submit_whole_spec W sq sequence activity h st).
    + now apply TimeFormReplay.submit_whole_replayed.
  - intros sq sequence activity step h st x H. split.
    + apply (TimeFormFacts.submit_step_spec W sq sequence activity step h st).
    + now apply TimeFormReplay.submit_step_replayed.
  - intros. now apply ReplayFacts.walk_whole_replayed.
  - intros. now apply ReplayFacts.walk_step_replayed.
Qed.

(** C10 at a replay the server rejects with status 403: the call returns the
    object the function built from that response, and the activity is
    counted as done. *)
Lemma replayed_result_is_not_inspected_witness :
  fst Examples.replayed_call
  = Ret (JObj [ (js "status", num 403); (js "ok", JBool false);
                (js "text", str "Forbidden") ])
  /\ outcome_of Examples.replayed_whole = Ret tt
  /\ TimeForm.advanced Examples.idle (state_of Examples.replayed_whole) 1 0 1.
Proof.
  destruct (replayed_result_is_not_inspected Examples.replaying_world)
    as (_ & Hbuilt & _ & Hwhole & _).
  split.
  - refine (Hbuilt (str "c1") (str "seq-1") (str "a1") (str "a1") (num 1) []
              Examples.forbidden (js "Forbidden") [] eq_refl _).
    vm_compute. left. reflexivity.
  - apply (Hwhole (Examples.saludos true) (Examples.sequence_record (JArr []))
             (Examples.activity_without_steps "a1") [] Examples.idle).
    vm_compute. reflexivity.
Defined.

Example rejected_replay_counts_as_success :
  fst Examples.replayed_call
  = Ret (Examples.obj [("status", num 403); ("ok", JBool false);
                       ("text", str "Forbidden")])
  /\ TimeForm.successCount (state_of Examples.replayed_whole) = 1
  /\ TimeForm.errorCount (state_of Examples.replayed_whole) = 0.
Proof. vm_compute. auto. Qed.

(** ** [processAllProgress] *)




Example first_rejected_step_is_the_last_submitted :
  fst Examples.rejected_steps_walk
  = Throw (HttpError 500 (js "Internal Server Error"))
  /\ submissions (snd Examples.rejected_steps_walk)
     = [Examples.submission_of_a1 "s1"].
Proof. vm_compute. auto. Qed.

(** * Further properties of the code *)

(** ** Identifier utilities *)

Module IdentifierFacts.
Import IOMonad IOFacts AddProgress AddProgressFacts.

Lemma small_cases (r : N) :
  (r < 16)%N -> In r (map N.of_nat (seq 0 16)).
Proof.
  intro H. destruct r as [|p]; [simpl; tauto|].
  do 4 (try (destruct p as [p|p|])); simpl; try tauto; lia.
Qed.

Lemma hex_digit_is_hex v : (v < 16)%N -> is_hex (hex_digit v) = true.
Proof.
  intro H. unfold hex_digit, is_hex, Slug.is_digit.
  destruct (N.ltb_spec v 10).
  - apply orb_true_iff. left. apply andb_true_iff. split; apply N.leb_le; lia.
  - apply orb_true_iff. right. apply andb_true_iff. split; apply N.leb_le; lia.
Qed.

Lemma variant_digit r :
  (r < 16)%N ->
  let c := hex_digit (N.lor (N.land r 3) 8) in
  ((c =? 56) || (c =? 57) || (c =? 97) || (c =? 98))%N = true.
Proof.
  intro H. apply small_cases in H. simpl in H.
  repeat (destruct H as [H|H]; [subst r; reflexivity|]). destruct H.
Qed.

Lemma units_of_length template s :
  units_of template s = true -> List.length s = List.length template.
Proof.
  revert s. induction template as [|t r IH]; intros [|c s] H; try discriminate H.
  - reflexivity.
  - cbn [units_of] in H. apply andb_true_iff in H as [_ H].
    cbn [List.length]. now rewrite (IH _ H).
Qed.

Lemma template_layout s : units_of UUID_TEMPLATE s = true -> is_uuid_v4 s = true.
Proof.
  intro H. pose proof (units_of_length _ _ H) as Hlen.
  vm_compute in Hlen.
  do 36 (destruct s as [|? s]; [discriminate Hlen|]).
  destruct s; [|discriminate Hlen].
  vm_compute in H. vm_compute. exact H.
Qed.

Section WithWorld.
Variable W : World.

Lemma uuid_unit_spec t h :
  exists c, uuid_unit W t h = (Ret c, snd (uuid_unit W t h))
            /\ unit_of t c = true.
Proof.
  unfold uuid_unit, unit_of.
  destruct (t =? 120)%N eqn:Hx; cbn [orb].
  - eexists. split; [reflexivity|]. apply hex_digit_is_hex.
    apply N.mod_lt. discriminate.
  - destruct (t =? 121)%N eqn:Hy.
    + eexists. split; [reflexivity|].
      apply variant_digit. apply N.mod_lt. discriminate.
    + exists t. split; [reflexivity|]. apply N.eqb_refl.
Qed.

Lemma map_uuid_units template h :
  exists s, map_io (uuid_unit W) template h
            = (Ret s, snd (map_io (uuid_unit W) template h))
            /\ units_of template s = true.
Proof.
  revert h. induction template as [|t r IH]; intro h.
  - exists []. split; reflexivity.
  - cbn [map_io]. rewrite bind_unfold.
    destruct (uuid_unit_spec t h) as (c & Hc & Hu). rewrite Hc.
    rewrite bind_unfold.
    destruct (IH (h ++ snd (uuid_unit W t h))) as (s & Hs & Hr). rewrite Hs.
    exists (c :: s). split; [reflexivity|].
    cbn [units_of]. now rewrite Hu, Hr.
Qed.

(** A run of [generateUUID]: it returns, and what it returns has the
    layout of a version-4 UUID. *)
Lemma generateUUID_run h :
  exists s, generateUUID W h = (Ret s, snd (generateUUID W h))
            /\ is_uuid_v4 s = true.
Proof.
  unfold generateUUID.
  destruct (map_uuid_units UUID_TEMPLATE h) as (s & Hs & Hu).
  exists s. split; [exact Hs | now apply template_layout].
Qed.
End WithWorld.
End IdentifierFacts.

(** [generateUUID], whatever the random source answers, returns a string in
    the canonical layout of a version-4 UUID (36 code units, dashes at 8, 13,
    18 and 23, the digit 4 at 14, one of 8, 9, a, b at 19, lower-case
    hexadecimal digits elsewhere), and does nothing but read the random
    source. *)
Theorem generateUUID_is_version_4 (W : World) (h : list event) :
  exists s,
    fst (AddProgress.generateUUID W h) = Ret s
    /\ AddProgress.is_uuid_v4 s = true
    /\ forallb local_only (snd (AddProgress.generateUUID W h)) = true.
Proof.
  destruct (IdentifierFacts.generateUUID_run W h) as (s & Hs & Hu).
  exists s. split; [now rewrite Hs|]. split; [exact Hu|].
  apply AddProgressFacts.generateUUID_local.
Qed.

Module SlugContent.
Import Slug SlugFacts.

Lemma remove_accents_alnum s :
  filter is_alnum (remove_accents s) = filter is_alnum s.
Proof.
  unfold remove_accents. induction s as [|c r IH]; [reflexivity|].
  cbn [filter]. destruct (is_alnum c) eqn:Ha.
  - rewrite (alnum_not_combining _ Ha). cbn [negb filter]. now rewrite Ha, IH.
  - destruct (negb (is_combining c)); cbn [filter]; now rewrite ?Ha, IH.
Qed.

Lemma dash_not_alnum : is_alnum dash = false.
Proof. reflexivity. Qed.

Lemma dash_runs_alnum b s :
  filter is_alnum (dash_runs b s) = filter is_alnum s.
Proof.
  revert b. induction s as [|c r IH]; intro b; [reflexivity|].
  cbn [dash_runs filter]. destruct (is_alnum c) eqn:Ha.
  - cbn [filter]. now rewrite Ha, IH.
  - destruct b; cbn [filter]; now rewrite ?dash_not_alnum, IH.
Qed.

Lemma trim_front_alnum s : filter is_alnum (trim_front s) = filter is_alnum s.
Proof.
  destruct s as [|c r]; [reflexivity|]. cbn [trim_front].
  destruct (c =? dash)%N eqn:E; [|reflexivity].
  apply N.eqb_eq in E. subst c. cbn [filter]. now rewrite dash_not_alnum.
Qed.

Lemma trim_back_alnum s : filter is_alnum (trim_back s) = filter is_alnum s.
Proof.
  induction s as [|c r IH]; [reflexivity|].
  destruct r as [|d r'].
  - cbn [trim_back]. destruct (c =? dash)%N eqn:E; [|reflexivity].
    apply N.eqb_eq in E. subst c. cbn [filter]. now rewrite dash_not_alnum.
  - change (trim_back (c :: d :: r')) with (c :: trim_back (d :: r')).
    cbn [filter] in *. now rewrite IH.
Qed.

Section Content.
Variables toLowerCase normalizeNFD : jsstring -> jsstring.

Lemma titleToSlug_alnum x :
  filter is_alnum (titleToSlug toLowerCase normalizeNFD x)
  = filter is_alnum (normalizeNFD (toLowerCase x)).
Proof.
  unfold titleToSlug, trim_dashes.
  now rewrite trim_back_alnum, trim_front_alnum, dash_runs_alnum,
    remove_accents_alnum.
Qed.

Lemma titleToSlug_empty x :
  titleToSlug toLowerCase normalizeNFD x = []
  <-> filter is_alnum (normalizeNFD (toLowerCase x)) = [].
Proof.
  rewrite <- titleToSlug_alnum. split; [intro H; now rewrite H|].
  pose proof (titleToSlug_shape toLowerCase normalizeNFD x) as [Hc _ Hf _].
  destruct (titleToSlug toLowerCase normalizeNFD x) as [|c r]; [reflexivity|].
  intro H. exfalso. cbn [filter] in H.
  destruct (is_alnum c) eqn:Ha; [discriminate H|].
  cbn [starts_with_dash] in Hf.
  destruct (Hc c (or_introl eq_refl)) as [K|[K|K]].
  - unfold is_alnum in Ha. now rewrite K in Ha.
  - unfold is_alnum in Ha. rewrite K, orb_true_r in Ha. discriminate.
  - subst c. discriminate Hf.
Qed.
End Content.
End SlugContent.

(** [titleToSlug] keeps the letters and digits of the lower-cased, decomposed
    title, all of them and in their order: between them it only ever puts
    dashes.  The slug is empty exactly when there is no letter or digit to
    keep. *)
Theorem titleToSlug_keeps_letters_and_digits
    (toLowerCase normalizeNFD : jsstring -> jsstring) (title : jsstring) :
  filter Slug.is_alnum (Slug.titleToSlug toLowerCase normalizeNFD title)
  = filter Slug.is_alnum (normalizeNFD (toLowerCase title))
  /\ (Slug.titleToSlug toLowerCase normalizeNFD title = []
      <-> filter Slug.is_alnum (normalizeNFD (toLowerCase title)) = []).
Proof.
  split; [apply SlugContent.titleToSlug_alnum | apply SlugContent.titleToSlug_empty].
Qed.

(** ** Objects *)

Module ObjectFacts.

Lemma jsstring_eqb_refl k : jsstring_eqb k k = true.
Proof. now apply jsstring_eqb_eq. Qed.

Lemma jsstring_eqb_neq a b : a <> b -> jsstring_eqb a b = false.
Proof.
  intro H. destruct (jsstring_eqb a b) eqn:E; [|reflexivity].
  apply jsstring_eqb_eq in E. contradiction.
Qed.

Lemma lookup_set_prop ps k k' v :
  lookup k (set_prop ps k' v)
  = if jsstring_eqb k k' then v else lookup k ps.
Proof.
  induction ps as [|[k0 v0] r IH]; cbn [set_prop lookup].
  - reflexivity.
  - destruct (jsstring_eqb k' k0) eqn:E0; cbn [lookup].
    + apply jsstring_eqb_eq in E0. subst k0.
      now destruct (jsstring_eqb k k').
    + rewrite IH. destruct (jsstring_eqb k k0) eqn:E1; [|reflexivity].
      apply jsstring_eqb_eq in E1. subst k0.
      destruct (jsstring_eqb k k') eqn:E2; [|reflexivity].
      apply jsstring_eqb_eq in E2. subst k'.
      rewrite jsstring_eqb_refl in E0. discriminate.
Qed.

(** Reading a property after a series of writes: the last write to it, or
    what was there. *)
Lemma lookup_set_props kvs ps k :
  lookup k (set_props ps kvs)
  = match find (fun kv => jsstring_eqb k (fst kv)) (rev kvs) with
    | Some kv => snd kv
    | None => lookup k ps
    end.
Proof.
  induction kvs as [|kv r IH] using rev_ind; [reflexivity|].
  unfold set_props in *. rewrite fold_left_app. cbn [fold_left].
  rewrite rev_app_distr. cbn [rev app find].
  rewrite lookup_set_prop. destruct (jsstring_eqb k (fst kv)); [reflexivity|].
  apply IH.
Qed.

Lemma lookup_set_props_other kvs ps k :
  ~ In k (map fst kvs) -> lookup k (set_props ps kvs) = lookup k ps.
Proof.
  intro H. rewrite lookup_set_props.
  destruct (find _ (rev kvs)) as [kv|] eqn:F; [|reflexivity].
  apply find_some in F as [Hin E]. apply jsstring_eqb_eq in E.
  exfalso. apply H. subst k. apply in_map. now apply in_rev.
Qed.

End ObjectFacts.

(** ** The messages of a submission *)

Module MessageFacts.
Import IOMonad IOFacts AddProgress AddProgressFacts ObjectFacts.

#[local] Opaque generateUUID.

Lemma not_in_keys (k : jsstring) (keys : list jsstring) kvs :
  ~ In k keys -> map fst kvs = keys ->
  find (fun kv : jsstring * jsval => jsstring_eqb k (fst kv)) (rev kvs) = None.
Proof.
  intros Hk Hkeys. destruct (find _ (rev kvs)) as [kv|] eqn:F; [|reflexivity].
  apply find_some in F as [Hin E]. apply jsstring_eqb_eq in E.
  exfalso. apply Hk. rewrite <- Hkeys. subst k. apply in_map. now apply in_rev.
Qed.

Section WithWorld.
Variable W : World.

(** Two identifiers and a clock reading, as the three message builders
    start. *)
Lemma stamps_run {A} (k : jsstring -> jsstring -> jsstring -> A) h :
  exists attempt stepAttempt stamp,
    bind (generateUUID W) (fun x =>
      bind (generateUUID W) (fun y =>
        bind (now_iso W) (fun z => ret (k x y z)))) h
    = (Ret (k attempt stepAttempt stamp),
       snd (bind (generateUUID W) (fun x =>
              bind (generateUUID W) (fun y =>
                bind (now_iso W) (fun z => ret (k x y z)))) h))
    /\ is_uuid_v4 attempt = true
    /\ is_uuid_v4 stepAttempt = true.
Proof.
  rewrite bind_unfold.
  destruct (IdentifierFacts.generateUUID_run W h) as (x & Hx & Ux).
  destruct (generateUUID W h) as [o1 e1]. cbn [snd] in Hx.
  injection Hx as ->.
  rewrite bind_unfold.
  destruct (IdentifierFacts.generateUUID_run W (h ++ e1)) as (y & Hy & Uy).
  destruct (generateUUID W (h ++ e1)) as [o2 e2]. cbn [snd] in Hy.
  injection Hy as ->.
  exists x, y, (Date_now_iso W ((h ++ e1) ++ e2)).
  split; [reflexivity|]. split; assumption.
Qed.

Section Submission.
Variables c s a st sc : jsval.

Lemma new_message_run agent h :
  exists msg,
    new_message W c s a st sc agent h
    = (Ret msg, snd (new_message W c s a st sc agent h))
    /\ aimed_at c s a st sc msg
    /\ freshly_stamped msg
    /\ opt_prop msg "userAgent" = agent
    /\ opt_prop msg "version" = num 1
    /\ opt_prop msg "answers" = JArr []
    /\ opt_prop msg "skip" = JBool false
    /\ opt_prop msg "durationMs" = num 745.
Proof.
  unfold new_message.
  destruct (stamps_run
              (fun attempt stepAttempt stamp =>
                 JObj [ (js "userAgent", agent);
                        (js "courseId", c);
                        (js "sequenceId", s);
                        (js "version", num 1);
                        (js "activityId", a);
                        (js "activityAttemptId", JStr attempt);
                        (js "activityStepId", st);
                        (js "activityStepAttemptId", JStr stepAttempt);
                        (js "answers", JArr []);
                        (js "score", sc);
                        (js "skip", JBool false);
                        (js "durationMs", num 745);
                        (js "endTimestamp", JStr stamp) ]) h)
    as (x & y & z & Hrun & Ux & Uy).
  eexists. split; [exact Hrun|].
  unfold aimed_at, freshly_stamped.
  repeat split; try reflexivity; assumption.
Qed.

Lemma update_message_run msg h :
  exists msg',
    update_message W c s a st sc msg h
    = (Ret msg', snd (update_message W c s a st sc msg h))
    /\ aimed_at c s a st sc msg'
    /\ freshly_stamped msg'
    /\ keeps_outside UPDATED_KEYS msg msg'.
Proof.
  unfold update_message.
  destruct (stamps_run
              (fun attempt stepAttempt stamp =>
                 JObj (set_props (spread msg)
                   [ (js "courseId", c);
                     (js "sequenceId", s);
                     (js "activityId", a);
                     (js "activityStepId", st);
                     (js "score", sc);
                     (js "activityAttemptId", JStr attempt);
                     (js "activityStepAttemptId", JStr stepAttempt);
                     (js "endTimestamp", JStr stamp) ])) h)
    as (x & y & z & Hrun & Ux & Uy).
  eexists. split; [exact Hrun|].
  unfold aimed_at, freshly_stamped, keeps_outside.
  cbn [opt_prop get_prop spread].
  rewrite !lookup_set_props.
  repeat split; try reflexivity; try assumption.
  intros k Hk. rewrite lookup_set_props.
  erewrite not_in_keys; [reflexivity|exact Hk|reflexivity].
Qed.
End Submission.

Lemma refresh_message_run msg h :
  exists msg',
    refresh_message W msg h = (Ret msg', snd (refresh_message W msg h))
    /\ freshly_stamped msg'
    /\ opt_prop msg' "durationMs" = num 745
    /\ keeps_outside REFRESHED_KEYS msg msg'.
Proof.
  unfold refresh_message.
  destruct (stamps_run
              (fun attempt stepAttempt stamp =>
                 JObj (set_props (spread msg)
                   [ (js "activityAttemptId", JStr attempt);
                     (js "activityStepAttemptId", JStr stepAttempt);
                     (js "endTimestamp", JStr stamp);
                     (js "durationMs", num 745) ])) h)
    as (x & y & z & Hrun & Ux & Uy).
  eexists. split; [exact Hrun|].
  unfold freshly_stamped, keeps_outside.
  cbn [opt_prop get_prop spread].
  rewrite !lookup_set_props.
  repeat split; try reflexivity; try assumption.
  intros k Hk. rewrite lookup_set_props.
  erewrite not_in_keys; [reflexivity|exact Hk|reflexivity].
Qed.

End WithWorld.
End MessageFacts.

Module RewriteFacts.
Import IOMonad IOFacts AddProgress AddProgressFacts ObjectFacts MessageFacts.

#[local] Opaque generateUUID new_message update_message refresh_message.

(** [map_io] over a callback that always returns. *)
Lemma map_io_run {A B} (f : A -> IO B) (R : A -> B -> Prop) :
  (forall x h, exists y, f x h = (Ret y, snd (f x h)) /\ R x y) ->
  forall xs h, exists ys,
    map_io f xs h = (Ret ys, snd (map_io f xs h)) /\ Forall2 R xs ys.
Proof.
  intros Hf xs. induction xs as [|x r IH]; intro h.
  - exists []. split; [reflexivity|constructor].
  - cbn [map_io]. rewrite bind_unfold.
    destruct (Hf x h) as (y & Hy & Ry).
    destruct (f x h) as [o e1]. cbn [snd] in Hy. injection Hy as ->.
    rewrite bind_unfold.
    destruct (IH (h ++ e1)) as (ys & Hys & Rys).
    destruct (map_io f r (h ++ e1)) as [o2 e2]. cbn [snd] in Hys.
    injection Hys as ->.
    exists (y :: ys). split; [reflexivity|now constructor].
Qed.

Lemma forall2_length {A B} (R : A -> B -> Prop) xs ys :
  Forall2 R xs ys -> List.length ys = List.length xs.
Proof. induction 1; cbn [List.length]; congruence. Qed.

Lemma forall2_right {A B} (R : A -> B -> Prop) (P : B -> Prop) xs ys :
  (forall x y, R x y -> P y) -> Forall2 R xs ys -> Forall P ys.
Proof. intros H. induction 1; constructor; eauto. Qed.

Lemma forall2_weaken {A B} (R Q : A -> B -> Prop) xs ys :
  (forall x y, R x y -> Q x y) -> Forall2 R xs ys -> Forall2 Q xs ys.
Proof. intros H. induction 1; constructor; eauto. Qed.

Lemma keeps_outside_set ps k v :
  keeps_outside [js k] (JObj ps) (JObj (set_prop ps (js k) v)).
Proof.
  intros k' Hk. cbn [spread]. rewrite lookup_set_prop.
  rewrite jsstring_eqb_neq; [reflexivity|].
  intro E. apply Hk. now left.
Qed.

Section WithWorld.
Variable W : World.
Variables c s a st sc : jsval.

Lemma rewrite_body_run bodyObj h :
  plain_variables bodyObj = true ->
  exists newBody,
    rewrite_body W c s a st sc bodyObj h
    = (Ret newBody, snd (rewrite_body W c s a st sc bodyObj h))
    /\ List.length (messages_of newBody)
       = Nat.max 1 (List.length (messages_of bodyObj))
    /\ Forall (fun msg => aimed_at c s a st sc msg /\ freshly_stamped msg)
              (messages_of newBody)
    /\ (messages_of bodyObj <> [] ->
        Forall2 (keeps_outside UPDATED_KEYS)
                (messages_of bodyObj) (messages_of newBody))
    /\ keeps_outside [js "variables"] bodyObj newBody
    /\ keeps_outside [js "messages"]
         (opt_prop bodyObj "variables") (opt_prop newBody "variables").
Proof.
  intro Hplain. destruct bodyObj as [| | | | | |bps]; try discriminate Hplain.
  cbn [plain_variables] in Hplain.
  unfold rewrite_body. cbn [get_prop]. rewrite bind_of_outcome_ret.
  change (messages_of (JObj bps))
    with (match opt_prop (lookup (js "variables") bps) "messages" with
          | JArr ms => ms
          | _ => []
          end).
  cbn [opt_prop get_prop].
  set (vars := lookup (js "variables") bps) in *.
  assert (Hother :
    forall vps0,
      (if truthy vars then vars else JObj []) = JObj vps0 ->
      (forall k, lookup k vps0 = lookup k (spread vars)) ->
      match get_prop vars "messages" with
      | Ret (JArr (_ :: _)) => False
      | _ => True
      end ->
      exists newBody,
        bind (of_outcome (assign_prop (JObj bps) "variables"
                            (if truthy vars then vars else JObj [])))
          (fun bodyObj1 =>
           bind (new_message W c s a st sc (JStr (navigator_userAgent W)))
             (fun msg =>
              bind (of_outcome
                      (assign_prop (if truthy vars then vars else JObj [])
                         "messages" (JArr [msg])))
                (fun vars1 =>
                 of_outcome (assign_prop bodyObj1 "variables" vars1)))) h
        = (Ret newBody,
           snd (bind (of_outcome (assign_prop (JObj bps) "variables"
                            (if truthy vars then vars else JObj [])))
          (fun bodyObj1 =>
           bind (new_message W c s a st sc (JStr (navigator_userAgent W)))
             (fun msg =>
              bind (of_outcome
                      (assign_prop (if truthy vars then vars else JObj [])
                         "messages" (JArr [msg])))
                (fun vars1 =>
                 of_outcome (assign_prop bodyObj1 "variables" vars1)))) h))
        /\ List.length (messages_of newBody) = 1
        /\ Forall (fun msg => aimed_at c s a st sc msg /\ freshly_stamped msg)
                  (messages_of newBody)
        /\ keeps_outside [js "variables"] (JObj bps) newBody
        /\ keeps_outside [js "messages"] vars (opt_prop newBody "variables")).
  { intros vps0 Hv0 Hsame _. rewrite Hv0.
    cbn [assign_prop]. rewrite bind_of_outcome_ret, bind_unfold.
    destruct (new_message_run W c s a st sc (JStr (navigator_userAgent W)) h)
      as (msg & Hm & Haim & Hfresh & _).
    destruct (new_message W c s a st sc (JStr (navigator_userAgent W)) h)
      as [o e1]. cbn [snd] in Hm. injection Hm as ->.
    rewrite bind_of_outcome_ret. cbn [of_outcome assign_prop].
    eexists. split; [reflexivity|].
    unfold messages_of. cbn [opt_prop get_prop].
    repeat (rewrite ?lookup_set_prop, ?jsstring_eqb_refl;
            cbn [opt_prop get_prop]).
    split; [reflexivity|].
    split; [constructor; [split; assumption|constructor]|].
    split.
    - intros k Hk. cbn [spread]. rewrite !lookup_set_prop.
      rewrite jsstring_eqb_neq; [reflexivity|].
      intro E. apply Hk. now left.
    - intros k Hk. cbn [spread]. rewrite lookup_set_prop.
      rewrite jsstring_eqb_neq; [apply Hsame|].
      intro E. apply Hk. now left. }
  destruct vars as [| |b|q|t|items|vps] eqn:Hvars;
    cbn [truthy negb] in Hplain; try discriminate Hplain.
  - destruct (Hother [] eq_refl (fun _ => eq_refl) I)
      as (nb & Hrun & Hlen & Haim & Hk1 & Hk2).
    exists nb. cbn [opt_prop get_prop]. split; [exact Hrun|].
    repeat split; auto. intro H. now contradiction H.
  - destruct (Hother [] eq_refl (fun _ => eq_refl) I)
      as (nb & Hrun & Hlen & Haim & Hk1 & Hk2).
    exists nb. cbn [opt_prop get_prop]. split; [exact Hrun|].
    repeat split; auto. intro H. now contradiction H.
  - destruct b; [discriminate Hplain|].
    destruct (Hother [] eq_refl (fun _ => eq_refl) I)
      as (nb & Hrun & Hlen & Haim & Hk1 & Hk2).
    exists nb. cbn [opt_prop get_prop]. split; [exact Hrun|].
    repeat split; auto. intro H. now contradiction H.
  - assert (Hif : (if truthy (JNum q) then JNum q else JObj []) = JObj []).
    { cbn [truthy].
      destruct (Qnum q =? 0)%Z; [reflexivity|discriminate Hplain]. }
    destruct (Hother [] Hif (fun _ => eq_refl) I)
      as (nb & Hrun & Hlen & Haim & Hk1 & Hk2).
    exists nb. cbn [opt_prop get_prop]. split; [exact Hrun|].
    repeat split; auto. intro H. now contradiction H.
  - destruct t as [|u t]; [|discriminate Hplain].
    destruct (Hother [] eq_refl (fun _ => eq_refl) I)
      as (nb & Hrun & Hlen & Haim & Hk1 & Hk2).
    exists nb. cbn [opt_prop get_prop String.eqb Ascii.eqb Bool.eqb].
    split; [exact Hrun|].
    repeat split; auto. intro H. now contradiction H.
  - cbn [opt_prop get_prop].
    cbn [opt_prop get_prop] in Hother.
    destruct (lookup (js "messages") vps) as [| |b|q|t|[|m ms]|ps] eqn:Hmsgs;
      try (destruct (Hother vps eq_refl (fun _ => eq_refl) I)
             as (nb & Hrun & Hlen & Haim & Hk1 & Hk2);
           exists nb; split; [exact Hrun|];
           repeat split; auto; intro H; now contradiction H).
    clear Hother.
    rewrite bind_unfold.
    destruct (map_io_run (update_message W c s a st sc)
                (retargeted c s a st sc)
                (update_message_run W c s a st sc) (m :: ms) h)
      as (mapped & Hmap & Hall).
    destruct (map_io (update_message W c s a st sc) (m :: ms) h) as [o e1].
    cbn [snd] in Hmap. injection Hmap as ->.
    cbn [assign_prop]. rewrite bind_of_outcome_ret. cbn [of_outcome].
    eexists. split; [reflexivity|].
    unfold messages_of. cbn [opt_prop get_prop].
    repeat (rewrite ?lookup_set_prop, ?jsstring_eqb_refl;
            cbn [opt_prop get_prop]).
    split; [rewrite (forall2_length Hall); reflexivity|].
    split.
    { eapply forall2_right; [|exact Hall]. intros x y (H1 & H2 & _). auto. }
    split.
    { intros _. eapply forall2_weaken; [|exact Hall].
      intros x y (_ & _ & H3). exact H3. }
    split; apply keeps_outside_set.
Qed.

End WithWorld.
End RewriteFacts.

(** ** [createProgressRequest] *)

Module RequestFacts.
Import IOMonad IOFacts AddProgress AddProgressFacts ObjectFacts MessageFacts
       RewriteFacts.

#[local] Opaque generateUUID refresh_message.

Section WithWorld.
Variable W : World.

Lemma refreshed_body_cases req h :
  match JSON_parse W (body_text req) with
  | None => refreshed_body W req h = (Throw SyntaxError, [])
  | Some bodyObj =>
      if has_message_list bodyObj then
        exists newBody,
          refreshed_body W req h
          = (Ret newBody, snd (refreshed_body W req h))
          /\ Forall2 refreshed (messages_of bodyObj) (messages_of newBody)
          /\ keeps_outside [js "variables"] bodyObj newBody
          /\ keeps_outside [js "messages"]
               (opt_prop bodyObj "variables") (opt_prop newBody "variables")
      else refreshed_body W req h = (Throw TypeError, [])
  end.
Proof.
  unfold refreshed_body, parse.
  destruct (JSON_parse W (body_text req)) as [bodyObj|]; [|reflexivity].
  rewrite bind_of_outcome_ret.
  unfold has_message_list, messages_of.
  destruct bodyObj as [| |b|q|t|items|bps]; try reflexivity.
  cbn [opt_prop get_prop]. rewrite bind_of_outcome_ret.
  destruct (lookup (js "variables") bps) as [| |b|q|t|items|vps] eqn:Hv;
    try reflexivity.
  cbn [opt_prop get_prop]. rewrite bind_of_outcome_ret.
  destruct (lookup (js "messages") vps) as [| |b|q|t|ms|ps] eqn:Hm;
    try reflexivity.
  rewrite bind_unfold.
  destruct (map_io_run (refresh_message W) refreshed
              (refresh_message_run W) ms h) as (mapped & Hmap & Hall).
  destruct (map_io (refresh_message W) ms h) as [o e1].
  cbn [snd] in Hmap. injection Hmap as ->.
  cbn [assign_prop]. rewrite bind_of_outcome_ret. cbn [of_outcome].
  eexists. split; [reflexivity|].
  repeat (rewrite ?lookup_set_prop, ?jsstring_eqb_refl;
          cbn [opt_prop get_prop]).
  rewrite ?Hv.
  split; [exact Hall|]. split; apply keeps_outside_set.
Qed.

Lemma create_unfold stringify req h :
  createProgressRequest W stringify req h
  = match refreshed_body W req h with
    | (Ret b, evs) =>
        (Ret {| url := url req; method := method req;
                headers := headers req; body := Some (stringify b) |}, evs)
    | (Throw e, evs) => (Throw e, evs)
    end.
Proof.
  unfold createProgressRequest. rewrite bind_unfold.
  destruct (refreshed_body W req h) as [[b|e] evs]; [|reflexivity].
  cbn [ret]. now rewrite app_nil_r.
Qed.

End WithWorld.
End RequestFacts.

(** [createProgressRequest] returns exactly when the body text of the
    request, or ["{}"] when it has none, parses to a value whose
    [variables.messages] is a list; when it throws, it has not read the random
    source or the clock. *)
Theorem createProgressRequest_needs_a_message_list
    (W : World) (stringify : jsval -> jsstring) (req : Request) (h : list event) :
  let x := AddProgress.createProgressRequest W stringify req h in
  is_ret (fst x)
  = match JSON_parse W (AddProgress.body_text req) with
    | Some bodyObj => AddProgress.has_message_list bodyObj
    | None => false
    end
  /\ (is_ret (fst x) = true \/ snd x = []).
Proof.
  intro x. subst x. rewrite RequestFacts.create_unfold.
  pose proof (RequestFacts.refreshed_body_cases W req h) as H.
  destruct (JSON_parse W (AddProgress.body_text req)) as [bodyObj|].
  - destruct (AddProgress.has_message_list bodyObj).
    + destruct H as (nb & Hrun & _). rewrite Hrun. cbn. auto.
    + rewrite H. cbn. auto.
  - rewrite H. cbn. auto.
Qed.

(** A request without a body is refused with a [TypeError] once ["{}"] is
    parsed as the empty object. *)
Example bodiless_request_is_refused :
  AddProgress.createProgressRequest Examples.replaying_world BasicJSON.print
    Examples.bodiless_request []
  = (Throw TypeError, []).
Proof. vm_compute. reflexivity. Qed.

(** When [createProgressRequest] returns, the request it returns has the url,
    method and headers of the one it was given, and its body is the text of
    the parsed body in which every message has two fresh attempt identifiers,
    an end timestamp and the duration 745 and is otherwise as it was; the
    number and order of the messages, the other variables and the other
    properties of the body are kept. *)
Theorem createProgressRequest_refreshes_every_message
    (W : World) (stringify : jsval -> jsstring) (req req' : Request)
    (h : list event) :
  fst (AddProgress.createProgressRequest W stringify req h) = Ret req' ->
  url req' = url req /\ method req' = method req /\ headers req' = headers req
  /\ exists bodyObj newBody,
       JSON_parse W (AddProgress.body_text req) = Some bodyObj
       /\ body req' = Some (stringify newBody)
       /\ Forall2 AddProgress.refreshed
            (AddProgress.messages_of bodyObj) (AddProgress.messages_of newBody)
       /\ AddProgress.keeps_outside [js "variables"] bodyObj newBody
       /\ AddProgress.keeps_outside [js "messages"]
            (opt_prop bodyObj "variables") (opt_prop newBody "variables").
Proof.
  rewrite RequestFacts.create_unfold.
  pose proof (RequestFacts.refreshed_body_cases W req h) as H.
  destruct (JSON_parse W (AddProgress.body_text req)) as [bodyObj|].
  - destruct (AddProgress.has_message_list bodyObj).
    + destruct H as (nb & Hrun & Hall & Hk1 & Hk2). rewrite Hrun.
      cbn [fst]. intro E. injection E as <-. cbn [url method headers body].
      repeat split. exists bodyObj, nb. auto.
    + rewrite H. discriminate.
  - rewrite H. discriminate.
Qed.

(** The same at a captured request with one message. *)
Lemma createProgressRequest_refreshes_every_message_witness :
  url Examples.refreshed_request = url Examples.captured_progress_request
  /\ method Examples.refreshed_request = method Examples.captured_progress_request
  /\ headers Examples.refreshed_request = headers Examples.captured_progress_request
  /\ exists bodyObj newBody,
       JSON_parse Examples.replaying_world
         (AddProgress.body_text Examples.captured_progress_request) = Some bodyObj
       /\ body Examples.refreshed_request = Some (BasicJSON.print newBody)
       /\ Forall2 AddProgress.refreshed
            (AddProgress.messages_of bodyObj) (AddProgress.messages_of newBody)
       /\ AddProgress.keeps_outside [js "variables"] bodyObj newBody
       /\ AddProgress.keeps_outside [js "messages"]
            (opt_prop bodyObj "variables") (opt_prop newBody "variables").
Proof.
  apply (@createProgressRequest_refreshes_every_message
           Examples.replaying_world BasicJSON.print
           Examples.captured_progress_request Examples.refreshed_request []).
  vm_compute. reflexivity.
Defined.

(** The captured message keeps its user agent and gets the fixed duration. *)
Example refreshed_message_keeps_its_user_agent :
  match body Examples.refreshed_request with
  | Some text =>
      match BasicJSON.parse text with
      | Some newBody =>
          map (fun msg => (opt_prop msg "userAgent", opt_prop msg "durationMs",
                           opt_prop msg "courseId"))
              (AddProgress.messages_of newBody)
      | None => []
      end
  | None => []
  end
  = [(str "Mozilla/5.0 (X11; Linux x86_64)", num 745, str "c0")].
Proof. vm_compute. reflexivity. Qed.

(** ** The events of one submission *)

Module LayoutFacts.
Import IOMonad IOFacts AddProgress AddProgressFacts ObjectFacts MessageFacts
       RewriteFacts.

#[local] Opaque generateUUID new_message update_message rewrite_body.

Lemma local_filter (P : event -> bool) evs :
  (forall e, local_only e = true -> P e = false) ->
  forallb local_only evs = true -> filter P evs = [].
Proof.
  intros HP. induction evs as [|e r IH]; [reflexivity|].
  cbn [forallb filter]. intro H. apply andb_true_iff in H as [He Hr].
  now rewrite (HP e He), (IH Hr).
Qed.

Lemma local_not_storage e : local_only e = true -> is_storage_read e = false.
Proof. destruct e; simpl; congruence. Qed.

Lemma local_not_execution e : local_only e = true -> is_execution e = false.
Proof. destruct e; simpl; congruence. Qed.

Lemma local_not_fetch e : local_only e = true -> is_fetch e = false.
Proof. destruct e; simpl; congruence. Qed.

Section WithWorld.
Variable W : World.
Variables c s a st sc : jsval.

(** The events of the replay attempt: the storage read, the random and
    clock reads of the rewrite, then at most the tab lookup and the
    in-page execution, whose request is the stored one with the
    rewritten body. *)
Lemma replay_layout h :
  exists locals tail,
    snd (replay W c s a st sc h)
    = EvStorageGet STORAGE_KEY (storage_session_get W h STORAGE_KEY)
        :: locals ++ tail
    /\ forallb local_only locals = true
    /\ (tail = []
        \/ (exists tabAnswer, tail = [EvGetTab tabAnswer])
        \/ (exists r text bodyObj newBody tab tabId answer,
              storage_session_get W h STORAGE_KEY = Ret (Some r)
              /\ body r = Some text
              /\ JSON_parse W text = Some bodyObj
              /\ rewrite_body W c s a st sc bodyObj
                   (h ++ [EvStorageGet STORAGE_KEY (Ret (Some r))])
                 = (Ret newBody, locals)
              /\ get_prop tab "id" = Ret tabId
              /\ tail = [EvGetTab (Ret tab);
                         EvExecuteScript tabId
                           {| page_url := url r; page_method := method r;
                              page_headers := headers r;
                              page_body := newBody |} answer])).
Proof.
  unfold replay. rewrite bind_unfold. unfold call_storage_get.
  destruct (storage_session_get W h STORAGE_KEY) as [[r|]|e] eqn:Hs;
    try solve [exists [], []; cbn; auto].
  destruct (body r) as [[|u text]|] eqn:Hb;
    try solve [exists [], []; cbn; auto].
  unfold parse. destruct (JSON_parse W (u :: text)) as [bodyObj|] eqn:Hp;
    [|solve [exists [], []; cbn; auto]].
  rewrite bind_of_outcome_ret.
  set (ev0 := EvStorageGet STORAGE_KEY (Ret (Some r))).
  pose proof (rewrite_body_local W c s a st sc bodyObj (h ++ [ev0])) as Hl.
  rewrite bind_unfold.
  destruct (rewrite_body W c s a st sc bodyObj (h ++ [ev0])) as [[nb|e] e1]
    eqn:Hrw; cbn [snd] in Hl.
  2:{ exists e1, []. cbn [snd app]. rewrite app_nil_r.
      split; [reflexivity|]. split; [exact Hl|now left]. }
  rewrite bind_unfold. unfold call_getTab.
  destruct (getTab W ((h ++ [ev0]) ++ e1)) as [tab|e] eqn:Ht.
  2:{ exists e1, [EvGetTab (Throw e)]. cbn [snd app].
      split; [reflexivity|]. split; [exact Hl|right; left; eauto]. }
  destruct (get_prop tab "id") as [tabId|e] eqn:Hid.
  2:{ rewrite bind_of_outcome_throw.
      exists e1, [EvGetTab (Ret tab)]. cbn [snd app].
      split; [reflexivity|]. split; [exact Hl|right; left; eauto]. }
  rewrite bind_of_outcome_ret, bind_unfold. unfold call_executeScript.
  match goal with |- context [scripting_executeScript W ?hh ?t ?q] =>
    destruct (scripting_executeScript W hh t q) as [results|e] eqn:He end.
  - exists e1, [EvGetTab (Ret tab); EvExecuteScript tabId
                  {| page_url := url r; page_method := method r;
                     page_headers := headers r; page_body := nb |}
                  (Ret results)].
    cbn [snd app ret]. split; [now rewrite ?app_nil_r, <- ?app_assoc|].
    split; [exact Hl|].
    right; right. exists r, (u :: text), bodyObj, nb, tab, tabId, (Ret results).
    auto 10.
  - exists e1, [EvGetTab (Ret tab); EvExecuteScript tabId
                  {| page_url := url r; page_method := method r;
                     page_headers := headers r; page_body := nb |}
                  (Throw e)].
    cbn [snd app]. split; [now rewrite ?app_nil_r, <- ?app_assoc|].
    split; [exact Hl|].
    right; right. exists r, (u :: text), bodyObj, nb, tab, tabId, (Throw e).
    auto 10.
Qed.

(** The request of the fallback. *)
Lemma direct_fallback_layout h :
  exists locals msg answer,
    snd (direct_fallback W c s a st sc h)
    = locals ++ [EvFetch GRAPHQL_ENDPOINT
                   (init_of {| operationName := "AddProgress";
                               variables :=
                                 JObj [ (js "userId", str FALLBACK_USER_ID);
                                        (js "messages", JArr [msg]) ];
                               query := QUERY_AddProgress |})
                   answer]
    /\ forallb local_only locals = true
    /\ aimed_at c s a st sc msg
    /\ freshly_stamped msg
    /\ opt_prop msg "userAgent"
       = (if truthy (JStr (navigator_userAgent W))
          then JStr (navigator_userAgent W) else str "Mozilla/5.0")
    /\ opt_prop msg "version" = num 1
    /\ opt_prop msg "answers" = JArr []
    /\ opt_prop msg "skip" = JBool false
    /\ opt_prop msg "durationMs" = num 745.
Proof.
  unfold direct_fallback.
  set (agent := if truthy (JStr (navigator_userAgent W)) then _ else _).
  destruct (new_message_run W c s a st sc agent h)
    as (msg & Hm & Haim & Hfresh & Hagent & Hrest).
  pose proof (new_message_local W c s a st sc agent h) as Hl.
  rewrite bind_unfold.
  destruct (new_message W c s a st sc agent h) as [o e1].
  cbn [snd] in Hm, Hl. injection Hm as ->.
  cbv beta iota. rewrite post_graphql_eq. cbn [snd].
  eexists e1, msg, _. split; [reflexivity|]. auto.
Qed.

(** The events of the body of a call whose arguments pass the check: the
    replay attempt, and then nothing, or the debug line of the [catch],
    if the attempt threw, and the fallback. *)
Lemma body_layout h :
  args_ok c s a st = true ->
  exists rest,
    snd (addProgressForActivity_body W c s a st sc h)
    = snd (replay W c s a st sc h) ++ rest
    /\ (rest = []
        \/ exists debug,
             (debug = [] \/ exists parts, debug = [EvConsole Debug parts])
             /\ rest = debug
                       ++ snd (direct_fallback W c s a st sc
                                 (h ++ snd (replay W c s a st sc h) ++ debug))).
Proof.
  unfold args_ok, addProgressForActivity_body. intro Hargs.
  apply andb_true_iff in Hargs as [Hargs H4].
  apply andb_true_iff in Hargs as [Hargs H3].
  apply andb_true_iff in Hargs as [H1 H2].
  rewrite H1, H2, H3, H4. cbn [negb orb]. rewrite token_present.
  rewrite bind_unfold. unfold try_catch.
  destruct (replay W c s a st sc h) as [[[v|]|e] e1]; cbn [snd].
  - exists []. cbn [ret]. rewrite !app_nil_r. auto.
  - destruct (direct_fallback W c s a st sc (h ++ e1)) as [r e2] eqn:Hd.
    exists e2. split; [reflexivity|]. right. exists []. split; [now left|].
    cbn [app]. rewrite app_nil_r, Hd. reflexivity.
  - set (line := EvConsole Debug
           [LText "Failed to use stored request, falling back to direct fetch";
            LExn e]).
    assert (Hh : bind (console Debug
                   [LText "Failed to use stored request, falling back to direct fetch";
                    LExn e]) (fun _ => ret (@None jsval)) (h ++ e1)
                 = (Ret None, [line])) by reflexivity.
    rewrite Hh. cbv beta iota.
    destruct (direct_fallback W c s a st sc (h ++ e1 ++ [line])) as [r e2] eqn:Hd.
    exists ([line] ++ e2). split; [now rewrite app_assoc|].
    right. exists [line]. split; [right; eexists; reflexivity|].
    now rewrite Hd.
Qed.

(** A call whose arguments fail the check does nothing. *)
Lemma body_refused h :
  args_ok c s a st = false ->
  addProgressForActivity_body W c s a st sc h
  = (Throw (JsError "courseId, sequenceId, activityId, and activityStepId are required"),
     []).
Proof.
  unfold args_ok, addProgressForActivity_body. intro Hargs.
  destruct (truthy c); [|reflexivity].
  destruct (truthy s); [|reflexivity].
  destruct (truthy a); [|reflexivity].
  destruct (truthy st); [discriminate Hargs|reflexivity].
Qed.

End WithWorld.
End LayoutFacts.

(** When the captured body is an object whose [variables] is an object or is
    absent, the rewrite of the replay path returns a body whose messages all
    name the target step with the given score and carry fresh attempt
    identifiers and an end timestamp.  There are as many messages as were
    captured, each one keeping its other properties, or one new message
    when none was captured; the other variables (such as the captured user
    id) and the other properties of the body are kept. *)
Theorem replayed_body_is_retargeted
    (W : World) (c s a st sc bodyObj : jsval) (h : list event) :
  AddProgress.plain_variables bodyObj = true ->
  exists newBody,
    fst (AddProgress.rewrite_body W c s a st sc bodyObj h) = Ret newBody
    /\ List.length (AddProgress.messages_of newBody)
       = Nat.max 1 (List.length (AddProgress.messages_of bodyObj))
    /\ Forall (fun msg => AddProgress.aimed_at c s a st sc msg
                          /\ AddProgress.freshly_stamped msg)
              (AddProgress.messages_of newBody)
    /\ (AddProgress.messages_of bodyObj <> [] ->
        Forall2 (AddProgress.keeps_outside AddProgress.UPDATED_KEYS)
                (AddProgress.messages_of bodyObj)
                (AddProgress.messages_of newBody))
    /\ AddProgress.keeps_outside [js "variables"] bodyObj newBody
    /\ AddProgress.keeps_outside [js "messages"]
         (opt_prop bodyObj "variables") (opt_prop newBody "variables").
Proof.
  intro Hplain.
  destruct (RewriteFacts.rewrite_body_run W c s a st sc bodyObj h Hplain)
    as (nb & Hrun & H).
  exists nb. split; [now rewrite Hrun | exact H].
Qed.

(** The same at a captured body with one message. *)
Lemma replayed_body_is_retargeted_witness :
  exists newBody,
    fst (AddProgress.rewrite_body Examples.replaying_world
           (str "c1") (str "seq-1") (str "a1") (str "s1") (num 1)
           Examples.captured_body []) = Ret newBody
    /\ List.length (AddProgress.messages_of newBody)
       = Nat.max 1 (List.length (AddProgress.messages_of Examples.captured_body))
    /\ Forall (fun msg => AddProgress.aimed_at (str "c1") (str "seq-1") (str "a1")
                            (str "s1") (num 1) msg
                          /\ AddProgress.freshly_stamped msg)
              (AddProgress.messages_of newBody)
    /\ (AddProgress.messages_of Examples.captured_body <> [] ->
        Forall2 (AddProgress.keeps_outside AddProgress.UPDATED_KEYS)
                (AddProgress.messages_of Examples.captured_body)
                (AddProgress.messages_of newBody))
    /\ AddProgress.keeps_outside [js "variables"] Examples.captured_body newBody
    /\ AddProgress.keeps_outside [js "messages"]
         (opt_prop Examples.captured_body "variables")
         (opt_prop newBody "variables").
Proof.
  apply (@replayed_body_is_retargeted Examples.replaying_world
           (str "c1") (str "seq-1") (str "a1") (str "s1") (num 1)
           Examples.captured_body []).
  reflexivity.
Defined.

(** One call of [addProgressForActivity] reads the session storage once when
    its arguments pass the check and not at all when they do not, runs at
    most one in-page execution and makes at most one direct request: nothing
    is tried twice. *)
Theorem submission_calls_each_collaborator_at_most_once
    (W : World) (c s a st sc : jsval) (h : list event) :
  let evs := snd (AddProgress.addProgressForActivity W c s a st sc h) in
  List.length (filter is_storage_read evs)
  = (if AddProgress.args_ok c s a st then 1 else 0)
  /\ List.length (filter is_execution evs) <= 1
  /\ List.length (filter is_fetch evs) <= 1.
Proof.
  intro evs. subst evs. rewrite AddProgressFacts.addProgress_unfold. cbn [snd].
  set (h1 := h ++ [EvEnter c s a st sc]).
  cbn [filter is_storage_read is_execution is_fetch]. rewrite !filter_app.
  cbn [filter is_storage_read is_execution is_fetch]. rewrite !app_nil_r.
  destruct (AddProgress.args_ok c s a st) eqn:Hargs.
  2:{ rewrite (LayoutFacts.body_refused W c s a st sc h1 Hargs). cbn. lia. }
  destruct (LayoutFacts.body_layout W c s a st sc h1 Hargs) as (rest & Hev & Hrest).
  rewrite Hev.
  destruct (LayoutFacts.replay_layout W c s a st sc h1)
    as (locals & tail & Hrep & Hloc & Htail).
  rewrite Hrep. rewrite !filter_app.
  cbn [filter is_storage_read is_execution is_fetch]. rewrite !filter_app.
  rewrite (LayoutFacts.local_filter _ _ LayoutFacts.local_not_storage Hloc),
          (LayoutFacts.local_filter _ _ LayoutFacts.local_not_execution Hloc),
          (LayoutFacts.local_filter _ _ LayoutFacts.local_not_fetch Hloc).
  assert (Ht : filter is_storage_read tail = []
               /\ List.length (filter is_execution tail) <= 1
               /\ filter is_fetch tail = []).
  { destruct Htail as [->|[(t & ->)|(r & text & bo & nb & tab & tabId & ans & _ & _ & _ & _ & _ & ->)]];
      cbn; auto. }
  destruct Ht as (Ht1 & Ht2 & Ht3). rewrite Ht1, Ht3. cbn [app List.length].
  assert (Hr : filter is_storage_read rest = []
               /\ filter is_execution rest = []
               /\ List.length (filter is_fetch rest) <= 1).
  { destruct Hrest as [->|(debug & Hd & ->)]; [cbn; auto|].
    match goal with |- context [AddProgress.direct_fallback W c s a st sc ?hh] =>
      destruct (LayoutFacts.direct_fallback_layout W c s a st sc hh)
        as (locals' & msg & answer & Hdf & Hloc' & _) end.
    rewrite Hdf. rewrite !filter_app.
    rewrite (LayoutFacts.local_filter _ _ LayoutFacts.local_not_storage Hloc'),
            (LayoutFacts.local_filter _ _ LayoutFacts.local_not_execution Hloc'),
            (LayoutFacts.local_filter _ _ LayoutFacts.local_not_fetch Hloc').
    destruct Hd as [->|(parts & ->)]; cbn; auto. }
  destruct Hr as (Hr1 & Hr2 & Hr3). rewrite Hr1, Hr2.
  rewrite !app_nil_r. cbn [List.length]. repeat split; lia.
Qed.

(** Every direct request [addProgressForActivity] makes is a POST of the
    [AddProgress] mutation to the GraphQL endpoint, with the fixed headers,
    for the fixed fallback user, carrying exactly one message: the target
    step and score as given, version 1, no answers, no skip, duration 745,
    fresh attempt identifiers in the version-4 layout, and the user agent of
    the navigator, or ["Mozilla/5.0"] when that is empty. *)
Theorem direct_request_carries_one_fresh_message
    (W : World) (c s a st sc : jsval) (h : list event)
    (target : string) (init : FetchInit) (answer : outcome Response) :
  In (EvFetch target init answer)
     (snd (AddProgress.addProgressForActivity W c s a st sc h)) ->
  target = AddProgress.GRAPHQL_ENDPOINT
  /\ init_method init = "POST"
  /\ init_headers init = AddProgress.graphql_headers
  /\ operationName (init_body init) = "AddProgress"
  /\ query (init_body init) = AddProgress.QUERY_AddProgress
  /\ exists msg,
       variables (init_body init)
       = JObj [ (js "userId", str AddProgress.FALLBACK_USER_ID);
                (js "messages", JArr [msg]) ]
       /\ AddProgress.aimed_at c s a st sc msg
       /\ AddProgress.freshly_stamped msg
       /\ opt_prop msg "userAgent"
          = (if truthy (JStr (navigator_userAgent W))
             then JStr (navigator_userAgent W) else str "Mozilla/5.0")
       /\ opt_prop msg "version" = num 1
       /\ opt_prop msg "answers" = JArr []
       /\ opt_prop msg "skip" = JBool false
       /\ opt_prop msg "durationMs" = num 745.
Proof.
  rewrite AddProgressFacts.addProgress_unfold. cbn [snd].
  set (h1 := h ++ [EvEnter c s a st sc]).
  intros [Hin|Hin]; [discriminate Hin|].
  apply in_app_or in Hin as [Hin|[Hin|[]]]; [|discriminate Hin].
  destruct (AddProgress.args_ok c s a st) eqn:Hargs.
  2:{ rewrite (LayoutFacts.body_refused W c s a st sc h1 Hargs) in Hin.
      destruct Hin. }
  destruct (LayoutFacts.body_layout W c s a st sc h1 Hargs) as (rest & Hev & Hrest).
  rewrite Hev in Hin.
  destruct (LayoutFacts.replay_layout W c s a st sc h1)
    as (locals & tail & Hrep & Hloc & Htail).
  assert (Hnot : forall evs, filter is_fetch evs = [] ->
                   ~ In (EvFetch target init answer) evs).
  { intros evs Hf Hi.
    assert (Hi' : In (EvFetch target init answer) (filter is_fetch evs))
      by (apply filter_In; split; [exact Hi|reflexivity]).
    rewrite Hf in Hi'. destruct Hi'. }
  apply in_app_or in Hin as [Hin|Hin].
  { exfalso. revert Hin. apply Hnot. rewrite Hrep.
    cbn [filter is_fetch]. rewrite filter_app.
    rewrite (LayoutFacts.local_filter _ _ LayoutFacts.local_not_fetch Hloc).
    destruct Htail as [->|[(t & ->)|(r & text & bo & nb & tab & tabId & ans & _ & _ & _ & _ & _ & ->)]];
      reflexivity. }
  destruct Hrest as [->|(debug & Hd & ->)]; [destruct Hin|].
  apply in_app_or in Hin as [Hin|Hin].
  { exfalso. destruct Hd as [->|(parts & ->)]; [destruct Hin|].
    destruct Hin as [Hin|[]]. discriminate Hin. }
  match type of Hin with context [AddProgress.direct_fallback W c s a st sc ?hh] =>
    destruct (LayoutFacts.direct_fallback_layout W c s a st sc hh)
      as (locals' & msg & answer' & Hdf & Hloc' & Hmsg) end.
  rewrite Hdf in Hin. apply in_app_or in Hin as [Hin|Hin].
  { exfalso. revert Hin. apply Hnot.
    apply (LayoutFacts.local_filter _ _ LayoutFacts.local_not_fetch Hloc'). }
  destruct Hin as [Hin|[]]. injection Hin as <- <- <-.
  repeat split. exists msg. split; [reflexivity|exact Hmsg].
Qed.

(** The same at the direct request of a call whose storage read throws. *)
Lemma direct_request_carries_one_fresh_message_witness :
  fst (fst Examples.storage_broken_fetch) = AddProgress.GRAPHQL_ENDPOINT
  /\ init_method (snd (fst Examples.storage_broken_fetch)) = "POST"
  /\ init_headers (snd (fst Examples.storage_broken_fetch))
     = AddProgress.graphql_headers
  /\ operationName (init_body (snd (fst Examples.storage_broken_fetch)))
     = "AddProgress"
  /\ query (init_body (snd (fst Examples.storage_broken_fetch)))
     = AddProgress.QUERY_AddProgress
  /\ exists msg,
       variables (init_body (snd (fst Examples.storage_broken_fetch)))
       = JObj [ (js "userId", str AddProgress.FALLBACK_USER_ID);
                (js "messages", JArr [msg]) ]
       /\ AddProgress.aimed_at (str "c1") (str "seq-1") (str "a1") (str "s1")
            (num 1) msg
       /\ AddProgress.freshly_stamped msg
       /\ opt_prop msg "userAgent"
          = (if truthy (JStr (navigator_userAgent Examples.storage_broken_world))
             then JStr (navigator_userAgent Examples.storage_broken_world)
             else str "Mozilla/5.0")
       /\ opt_prop msg "version" = num 1
       /\ opt_prop msg "answers" = JArr []
       /\ opt_prop msg "skip" = JBool false
       /\ opt_prop msg "durationMs" = num 745.
Proof.
  apply (@direct_request_carries_one_fresh_message Examples.storage_broken_world
           (str "c1") (str "seq-1") (str "a1") (str "s1") (num 1) []
           (fst (fst Examples.storage_broken_fetch))
           (snd (fst Examples.storage_broken_fetch))
           (snd Examples.storage_broken_fetch)).
  apply (@nth_error_In _ _ 66). vm_compute. reflexivity.
Defined.

(** Every in-page execution [addProgressForActivity] asks for runs the
    stored request: the request found in the session storage, with its url,
    method and headers as stored and its body replaced by the rewrite of the
    parsed stored body, in the tab whose [id] the tab lookup gave. *)
Theorem replay_runs_the_stored_request
    (W : World) (c s a st sc : jsval) (h : list event)
    (tabId : jsval) (req : PageRequest) (answer : outcome jsval) :
  In (EvExecuteScript tabId req answer)
     (snd (AddProgress.addProgressForActivity W c s a st sc h)) ->
  exists r text bodyObj tab h',
    In (EvStorageGet AddProgress.STORAGE_KEY (Ret (Some r)))
       (snd (AddProgress.addProgressForActivity W c s a st sc h))
    /\ In (EvGetTab (Ret tab))
          (snd (AddProgress.addProgressForActivity W c s a st sc h))
    /\ get_prop tab "id" = Ret tabId
    /\ body r = Some text
    /\ JSON_parse W text = Some bodyObj
    /\ page_url req = url r
    /\ page_method req = method r
    /\ page_headers req = headers r
    /\ fst (AddProgress.rewrite_body W c s a st sc bodyObj h')
       = Ret (page_body req).
Proof.
  rewrite AddProgressFacts.addProgress_unfold. cbn [snd].
  set (h1 := h ++ [EvEnter c s a st sc]).
  intros [Hin|Hin]; [discriminate Hin|].
  apply in_app_or in Hin as [Hin|[Hin|[]]]; [|discriminate Hin].
  destruct (AddProgress.args_ok c s a st) eqn:Hargs.
  2:{ rewrite (LayoutFacts.body_refused W c s a st sc h1 Hargs) in Hin.
      destruct Hin. }
  destruct (LayoutFacts.body_layout W c s a st sc h1 Hargs) as (rest & Hev & Hrest).
  rewrite Hev in Hin |- *.
  destruct (LayoutFacts.replay_layout W c s a st sc h1)
    as (locals & tail & Hrep & Hloc & Htail).
  assert (Hnot : forall evs, filter is_execution evs = [] ->
                   ~ In (EvExecuteScript tabId req answer) evs).
  { intros evs Hf Hi.
    assert (Hi' : In (EvExecuteScript tabId req answer) (filter is_execution evs))
      by (apply filter_In; split; [exact Hi|reflexivity]).
    rewrite Hf in Hi'. destruct Hi'. }
  apply in_app_or in Hin as [Hin|Hin].
  - rewrite Hrep in Hin |- *.
    destruct Hin as [Hin|Hin]; [discriminate Hin|].
    apply in_app_or in Hin as [Hin|Hin].
    { exfalso. revert Hin. apply Hnot.
      apply (LayoutFacts.local_filter _ _ LayoutFacts.local_not_execution Hloc). }
    destruct Htail as [->|[(t & ->)|(r & text & bo & nb & tab & tabId' & ans
                                     & Hs & Hb & Hp & Hrw & Hid & ->)]].
    + destruct Hin.
    + destruct Hin as [Hin|[]]. discriminate Hin.
    + destruct Hin as [Hin|[Hin|[]]]; [discriminate Hin|].
      injection Hin as <- <- <-.
      exists r, text, bo, tab, (h1 ++ [EvStorageGet AddProgress.STORAGE_KEY (Ret (Some r))]).
      rewrite Hs, Hrw. cbn [fst page_url page_method page_headers page_body].
      split; [right; left; reflexivity|].
      split.
      { right. rewrite !in_app_iff. cbn [In]. rewrite !in_app_iff. cbn [In].
        auto 10. }
      auto 10.
  - exfalso. revert Hin. apply Hnot.
    destruct Hrest as [->|(debug & Hd & ->)]; [reflexivity|].
    match goal with |- context [AddProgress.direct_fallback W c s a st sc ?hh] =>
      destruct (LayoutFacts.direct_fallback_layout W c s a st sc hh)
        as (locals' & msg & answer' & Hdf & Hloc' & _) end.
    rewrite Hdf, !filter_app.
    rewrite (LayoutFacts.local_filter _ _ LayoutFacts.local_not_execution Hloc').
    destruct Hd as [->|(parts & ->)]; reflexivity.
Qed.

(** The same at a replayed call. *)
Lemma replay_runs_the_stored_request_witness :
  exists r text bodyObj tab h',
    In (EvStorageGet AddProgress.STORAGE_KEY (Ret (Some r)))
       (snd Examples.replayed_call)
    /\ In (EvGetTab (Ret tab)) (snd Examples.replayed_call)
    /\ get_prop tab "id" = Ret (fst (fst Examples.replayed_execution))
    /\ body r = Some text
    /\ JSON_parse Examples.replaying_world text = Some bodyObj
    /\ page_url (snd (fst Examples.replayed_execution)) = url r
    /\ page_method (snd (fst Examples.replayed_execution)) = method r
    /\ page_headers (snd (fst Examples.replayed_execution)) = headers r
    /\ fst (AddProgress.rewrite_body Examples.replaying_world
              (str "c1") (str "seq-1") (str "a1") (str "a1") (num 1) bodyObj h')
       = Ret (page_body (snd (fst Examples.replayed_execution))).
Proof.
  apply (@replay_runs_the_stored_request Examples.replaying_world
           (str "c1") (str "seq-1") (str "a1") (str "a1") (num 1) []
           (fst (fst Examples.replayed_execution))
           (snd (fst Examples.replayed_execution))
           (snd Examples.replayed_execution)).
  apply (@nth_error_In _ _ 66). vm_compute. reflexivity.
Defined.

(** ** The two queries *)

Module QueryFacts.
Import IOMonad IOFacts AddProgress AddProgressFacts.

Section WithWorld.
Variable W : World.

Lemma getSequence_cases c s l h :
  if truthy c && truthy s && truthy l
  then
    let b := {| operationName := "getSequence";
                variables := JObj [ (js "courseId", c);
                                    (js "sequenceSlug", s);
                                    (js "locale", l) ];
                query := QUERY_getSequence |} in
    getSequence W c s l h
    = (direct_outcome W (fetch W h GRAPHQL_ENDPOINT (init_of b)),
       [EvFetch GRAPHQL_ENDPOINT (init_of b)
          (fetch W h GRAPHQL_ENDPOINT (init_of b))])
  else
    getSequence W c s l h
    = (Throw (JsError "courseId, sequenceSlug, and locale are required"), []).
Proof.
  unfold getSequence.
  destruct (truthy c); [|reflexivity].
  destruct (truthy s); [|reflexivity].
  destruct (truthy l); [|reflexivity].
  cbn [negb orb andb]. rewrite token_present. cbv zeta.
  apply post_graphql_eq.
Qed.

Lemma getCourses_cases l h :
  if truthy l
  then
    let b := {| operationName := "getCoursesAndProgress";
                variables := JObj [(js "locale", l)];
                query := QUERY_getCoursesAndProgress |} in
    getCoursesAndProgress W l h
    = (direct_outcome W (fetch W h GRAPHQL_ENDPOINT (init_of b)),
       [EvFetch GRAPHQL_ENDPOINT (init_of b)
          (fetch W h GRAPHQL_ENDPOINT (init_of b))])
  else
    getCoursesAndProgress W l h = (Throw (JsError "locale is required"), []).
Proof.
  unfold getCoursesAndProgress.
  destruct (truthy l); [|reflexivity].
  cbn [negb]. rewrite token_present. cbv zeta.
  apply post_graphql_eq.
Qed.

Lemma getSequence_events c s l h :
  snd (getSequence W c s l h) = []
  \/ exists init answer,
       snd (getSequence W c s l h) = [EvFetch GRAPHQL_ENDPOINT init answer].
Proof.
  pose proof (getSequence_cases c s l h) as H.
  destruct (truthy c && truthy s && truthy l); cbv zeta in H; rewrite H.
  - right. eexists _, _. reflexivity.
  - now left.
Qed.

Lemma getCourses_events l h :
  snd (getCoursesAndProgress W l h) = []
  \/ exists init answer,
       snd (getCoursesAndProgress W l h)
       = [EvFetch GRAPHQL_ENDPOINT init answer].
Proof.
  pose proof (getCourses_cases l h) as H.
  destruct (truthy l); cbv zeta in H; rewrite H.
  - right. eexists _, _. reflexivity.
  - now left.
Qed.

(** What the taxonomy lets through. *)
Lemma direct_outcome_ret answer data :
  direct_outcome W answer = Ret data ->
  exists res text,
    answer = Ret res
    /\ res_ok res = true
    /\ res_text res = Ret text
    /\ JSON_parse W text = Some data
    /\ truthy (opt_prop data "errors") = false.
Proof.
  unfold direct_outcome. destruct answer as [res|e]; [|discriminate].
  destruct (res_ok res) eqn:Hok; cbn [negb].
  2:{ destruct (res_text res); discriminate. }
  unfold res_json, parse. destruct (res_text res) as [text|e] eqn:Ht; [|discriminate].
  destruct (JSON_parse W text) as [v|] eqn:Hp; [|discriminate].
  unfold opt_prop.
  destruct (get_prop v "errors") as [errors|e] eqn:He; [|discriminate].
  destruct (truthy errors) eqn:Hterr; [discriminate|].
  intro H. injection H as <-. exists res, text. rewrite He. auto.
Qed.
End WithWorld.
End QueryFacts.

(** [getSequence] and [getCoursesAndProgress] make one request, the POST of
    their operation with its variables and the fixed headers, when all their
    arguments are truthy, and the answer to it decides their outcome; with a
    falsy argument they throw their validation error and make no request. *)
Theorem queries_check_their_arguments_first
    (W : World) (c s l : jsval) (h : list event) :
  (let x := AddProgress.getSequence W c s l h in
   if truthy c && truthy s && truthy l
   then exists answer,
          snd x = [EvFetch AddProgress.GRAPHQL_ENDPOINT
                     (AddProgress.init_of
                        {| operationName := "getSequence";
                           variables := JObj [ (js "courseId", c);
                                               (js "sequenceSlug", s);
                                               (js "locale", l) ];
                           query := AddProgress.QUERY_getSequence |})
                     answer]
          /\ fst x = direct_outcome W answer
   else x = (Throw (JsError "courseId, sequenceSlug, and locale are required"), []))
  /\ (let x := AddProgress.getCoursesAndProgress W l h in
      if truthy l
      then exists answer,
             snd x = [EvFetch AddProgress.GRAPHQL_ENDPOINT
                        (AddProgress.init_of
                           {| operationName := "getCoursesAndProgress";
                              variables := JObj [(js "locale", l)];
                              query := AddProgress.QUERY_getCoursesAndProgress |})
                        answer]
             /\ fst x = direct_outcome W answer
      else x = (Throw (JsError "locale is required"), [])).
Proof.
  split.
  - pose proof (QueryFacts.getSequence_cases W c s l h) as H. cbv zeta in *.
    destruct (truthy c && truthy s && truthy l); rewrite H; [|reflexivity].
    eexists. split; reflexivity.
  - pose proof (QueryFacts.getCourses_cases W l h) as H. cbv zeta in *.
    destruct (truthy l); rewrite H; [|reflexivity].
    eexists. split; reflexivity.
Qed.

(** What a query returns is the parsed body of a response it received with
    a status from 200 to 299, and that body has no truthy [errors]. *)
Theorem queries_return_only_checked_data
    (W : World) (c s l : jsval) (h : list event) (data : jsval) :
  fst (AddProgress.getSequence W c s l h) = Ret data
  \/ fst (AddProgress.getCoursesAndProgress W l h) = Ret data ->
  exists init res text,
    (snd (AddProgress.getSequence W c s l h)
     = [EvFetch AddProgress.GRAPHQL_ENDPOINT init (Ret res)]
     \/ snd (AddProgress.getCoursesAndProgress W l h)
        = [EvFetch AddProgress.GRAPHQL_ENDPOINT init (Ret res)])
    /\ res_ok res = true
    /\ res_text res = Ret text
    /\ JSON_parse W text = Some data
    /\ truthy (opt_prop data "errors") = false.
Proof.
  intros [H|H].
  - pose proof (QueryFacts.getSequence_cases W c s l h) as K. cbv zeta in K.
    destruct (truthy c && truthy s && truthy l); rewrite K in H |- *;
      [|discriminate H].
    cbn [fst snd] in *.
    destruct (QueryFacts.direct_outcome_ret W _ H) as (res & text & Ha & Hrest).
    rewrite Ha. eexists _, res, text. split; [left; reflexivity|exact Hrest].
  - pose proof (QueryFacts.getCourses_cases W l h) as K. cbv zeta in K.
    destruct (truthy l); rewrite K in H |- *; [|discriminate H].
    cbn [fst snd] in *.
    destruct (QueryFacts.direct_outcome_ret W _ H) as (res & text & Ha & Hrest).
    rewrite Ha. eexists _, res, text. split; [right; reflexivity|exact Hrest].
Qed.

(** The same at the fetch of the example sequence. *)
Lemma queries_return_only_checked_data_witness :
  exists init res text,
    (snd (AddProgress.getSequence (Examples.rejecting_world Examples.two_steps)
            (str "c1") (str "saludos") (str "fr-FR") [])
     = [EvFetch AddProgress.GRAPHQL_ENDPOINT init (Ret res)]
     \/ snd (AddProgress.getCoursesAndProgress
               (Examples.rejecting_world Examples.two_steps) (str "fr-FR") [])
        = [EvFetch AddProgress.GRAPHQL_ENDPOINT init (Ret res)])
    /\ res_ok res = true
    /\ res_text res = Ret text
    /\ JSON_parse (Examples.rejecting_world Examples.two_steps) text
       = Some (Examples.sequence_payload Examples.two_steps)
    /\ truthy (opt_prop (Examples.sequence_payload Examples.two_steps) "errors")
       = false.
Proof.
  apply (@queries_return_only_checked_data
           (Examples.rejecting_world Examples.two_steps)
           (str "c1") (str "saludos") (str "fr-FR") []
           (Examples.sequence_payload Examples.two_steps)).
  left. vm_compute. reflexivity.
Defined.

(** ** What the queries and a submission add to the trace *)

Module QuietFacts.
Import IOMonad IOFacts AddProgress AddProgressFacts.

Lemma emits_weaken (P Q : event -> bool) {A} (m : IO A) :
  (forall e, P e = true -> Q e = true) -> emits P m -> emits Q m.
Proof.
  intros HPQ Hm h. eapply TraceFacts.forallb_weaken; [exact HPQ|apply Hm].
Qed.

Lemma emits_try_catch (P : event -> bool) {A} (m : IO A) handler :
  emits P m -> (forall e, emits P (handler e)) -> emits P (try_catch m handler).
Proof.
  intros Hm Hh h. unfold try_catch. specialize (Hm h).
  destruct (m h) as [[a|e] e1]; cbn [snd] in *; [exact Hm|].
  specialize (Hh e (h ++ e1)).
  destruct (handler e (h ++ e1)) as [r e2]; cbn [snd] in *.
  now rewrite forallb_app, Hm, Hh.
Qed.

Lemma emits_for_each (P : event -> bool) {A} (xs : list A) (f : A -> IO unit) :
  (forall x, emits P (f x)) -> emits P (for_each xs f).
Proof.
  intro Hf. induction xs as [|x r IH]; [apply emits_ret|].
  cbn [for_each]. apply emits_bind; [apply Hf|intro; exact IH].
Qed.

Lemma emits_console (P : event -> bool) lvl parts :
  P (EvConsole lvl parts) = true -> emits P (console lvl parts).
Proof. intros H h. cbn. now rewrite H. Qed.

Lemma local_backstage e : local_only e = true -> backstage e = true.
Proof. destruct e; simpl; congruence. Qed.

Lemma backstage_not_a_report e : backstage e = true -> not_a_report e = true.
Proof. destruct e; simpl; congruence. Qed.

Lemma quiet_reported evs :
  forallb not_a_report evs = true -> reported evs = [].
Proof.
  induction evs as [|e r IH]; [reflexivity|]. cbn [forallb]. intro H.
  apply andb_true_iff in H as [He Hr]. unfold reported in *. cbn [flat_map].
  rewrite (IH Hr). now destruct e.
Qed.

#[local] Opaque generateUUID new_message update_message rewrite_body.

Section WithWorld.
Variable W : World.

Lemma post_graphql_backstage b : emits backstage (post_graphql W b).
Proof. intro h. now rewrite post_graphql_eq. Qed.

Lemma getSequence_backstage c s l : emits backstage (getSequence W c s l).
Proof.
  intro h. destruct (QueryFacts.getSequence_events W c s l h)
    as [->|(i & an & ->)]; reflexivity.
Qed.

Lemma getCourses_backstage l : emits backstage (getCoursesAndProgress W l).
Proof.
  intro h. destruct (QueryFacts.getCourses_events W l h)
    as [->|(i & an & ->)]; reflexivity.
Qed.

Lemma getSequence_quiet c s l : emits not_a_report (getSequence W c s l).
Proof.
  eapply emits_weaken; [exact backstage_not_a_report|].
  apply getSequence_backstage.
Qed.

Section Submission.
Variables c s a st sc : jsval.

Lemma replay_backstage : emits backstage (replay W c s a st sc).
Proof.
  unfold replay. apply emits_bind; [intro h; reflexivity|].
  intros [r|]; [|apply emits_ret].
  destruct (body r) as [[|u text]|]; try apply emits_ret.
  apply emits_bind; [apply emits_of_outcome|intro bodyObj].
  apply emits_bind.
  { eapply emits_weaken; [exact local_backstage|].
    apply rewrite_body_local. }
  intro newBody. apply emits_bind; [intro h; reflexivity|intro tab].
  apply emits_bind; [apply emits_of_outcome|intro tabId].
  apply emits_bind; [intro h; reflexivity|intro results].
  apply emits_ret.
Qed.

Lemma direct_fallback_backstage :
  emits backstage (direct_fallback W c s a st sc).
Proof.
  unfold direct_fallback. apply emits_bind.
  - eapply emits_weaken; [exact local_backstage|].
    apply new_message_local.
  - intro msg. apply post_graphql_backstage.
Qed.

Lemma body_backstage :
  emits backstage (addProgressForActivity_body W c s a st sc).
Proof.
  unfold addProgressForActivity_body.
  destruct (negb (truthy c) || negb (truthy s) || negb (truthy a)
            || negb (truthy st)); [apply emits_throw|].
  destruct token_missing; [apply emits_throw|].
  apply emits_bind.
  - apply emits_try_catch; [apply replay_backstage|]. intro e.
    apply emits_bind; [intro h; reflexivity|intro; apply emits_ret].
  - intros [v|]; [apply emits_ret|apply direct_fallback_backstage].
Qed.

Lemma addProgress_backstage :
  emits backstage (addProgressForActivity W c s a st sc).
Proof.
  intro h. rewrite addProgress_unfold. cbn [snd forallb backstage].
  rewrite forallb_app. cbn [forallb backstage].
  now rewrite (body_backstage (h ++ [EvEnter c s a st sc])).
Qed.

Lemma addProgress_reports_nothing :
  emits not_a_report (addProgressForActivity W c s a st sc).
Proof.
  eapply emits_weaken; [exact backstage_not_a_report|].
  apply addProgress_backstage.
Qed.
End Submission.
End WithWorld.
End QuietFacts.

(** ** [processAllProgress]: what a run visits *)

Module VisitFacts.
Import IOMonad IOFacts AddProgress AddProgressFacts WalkFacts QuietFacts.

Lemma backstage_no_visit e : backstage e = true -> no_visit e = true.
Proof.
  destruct e as [| | | | | |lvl parts| | |]; try reflexivity.
  destruct lvl; try discriminate. reflexivity.
Qed.

Lemma quiet_visits evs :
  forallb no_visit evs = true -> sequence_visits evs = [].
Proof.
  induction evs as [|e r IH]; [reflexivity|]. cbn [forallb]. intro H.
  apply andb_true_iff in H as [He Hr]. unfold sequence_visits in *.
  cbn [flat_map]. rewrite (IH Hr), app_nil_r.
  unfold no_visit in He. now destruct (visit_of e).
Qed.

Lemma visits_app l1 l2 :
  sequence_visits (l1 ++ l2) = sequence_visits l1 ++ sequence_visits l2.
Proof. unfold sequence_visits. apply flat_map_app. Qed.

#[local] Opaque addProgressForActivity getSequence getCoursesAndProgress.

Section WithWorld.
Variable W : World.

Lemma walk_step_no_visit courseId sequence activity step :
  emits no_visit (walk_step W courseId sequence activity step).
Proof.
  unfold walk_step.
  apply emits_bind; [apply emits_of_outcome|intro sid].
  apply emits_bind; [apply emits_of_outcome|intro aid].
  apply emits_bind; [apply emits_of_outcome|intro stepId].
  apply emits_bind.
  - eapply emits_weaken; [exact backstage_no_visit|].
    apply addProgress_backstage.
  - intro. now apply emits_console.
Qed.

Lemma walk_whole_no_visit courseId sequence activity :
  emits no_visit (walk_whole W courseId sequence activity).
Proof.
  unfold walk_whole.
  apply emits_bind; [apply emits_of_outcome|intro sid].
  apply emits_bind; [apply emits_of_outcome|intro aid].
  apply emits_bind.
  - eapply emits_weaken; [exact backstage_no_visit|].
    apply addProgress_backstage.
  - intro. now apply emits_console.
Qed.

Lemma walk_activity_no_visit courseId sequence total turn :
  emits no_visit (walk_activity W courseId sequence total turn).
Proof.
  unfold walk_activity. destruct turn as [i activity].
  apply emits_bind; [apply emits_of_outcome|intro aid].
  apply emits_bind; [now apply emits_console|intro].
  apply emits_try_catch.
  - unfold submit_activity.
    apply emits_bind; [apply emits_of_outcome|intro steps].
    destruct steps as [| | | | |[|s0 rest]|]; try apply walk_whole_no_visit.
    apply emits_for_each. intro. apply walk_step_no_visit.
  - intros e h. reflexivity.
Qed.

Lemma fetch_and_walk_no_visit locale courseId slug :
  emits no_visit (fetch_and_walk_sequence W locale courseId slug).
Proof.
  unfold fetch_and_walk_sequence.
  apply emits_bind; [now apply emits_console|intro].
  apply emits_bind.
  { eapply emits_weaken; [exact backstage_no_visit|].
    apply getSequence_backstage. }
  intro sequenceData. cbv zeta.
  destruct (negb (truthy (opt_prop (opt_prop sequenceData "data") "sequence")));
    [now apply emits_console|].
  apply emits_bind; [apply emits_of_outcome|intro raw].
  apply emits_bind.
  { unfold decode_activities. destruct raw; try apply emits_ret.
    apply emits_try_catch; [apply emits_of_outcome|]. intro e.
    apply emits_bind; [now apply emits_console|intro; apply emits_ret]. }
  intro activities.
  destruct activities as [| | | | |[|a0 rest]|]; try now apply emits_console.
  apply emits_bind; [now apply emits_console|intro].
  apply emits_for_each. intro. apply walk_activity_no_visit.
Qed.

(** One turn of the sequence loop shows as exactly one visit. *)
Lemma walk_sequence_visit locale courseId sq h :
  wf_summary sq = true ->
  fst (walk_sequence W locale courseId sq h) = Ret tt
  /\ sequence_visits (snd (walk_sequence W locale courseId sq h))
     = listed_visit W sq.
Proof.
  intro Hwf.
  destruct (walk_sequence_returns W locale courseId sq h Hwf)
    as (Hr & title & start & Ht & Hev).
  split; [exact Hr|]. unfold listed_visit. rewrite Ht.
  revert Hev. unfold walk_sequence. rewrite Ht, bind_of_outcome_ret.
  cbn [titleToSlug_any]. rewrite bind_of_outcome_ret, bind_console.
  cbn [snd]. intros _.
  change (sequence_visits (?e :: ?l)) with (visit_of e ++ sequence_visits l).
  cbn [visit_of app]. f_equal.
  apply quiet_visits. rewrite try_catch_unfold.
  set (h1 := h ++ _).
  pose proof (fetch_and_walk_no_visit locale courseId (titleToSlug W title) h1)
    as Hq.
  destruct (fetch_and_walk_sequence W locale courseId (titleToSlug W title) h1)
    as [[u|e] e1]; cbn [snd] in *; [exact Hq|].
  cbn [emit snd]. rewrite forallb_app, Hq. reflexivity.
Qed.

Lemma sequence_loop_visits locale courseId items :
  forallb wf_summary items = true ->
  forall h,
  fst (for_each items (walk_sequence W locale courseId) h) = Ret tt
  /\ sequence_visits (snd (for_each items (walk_sequence W locale courseId) h))
     = flat_map (listed_visit W) items.
Proof.
  induction items as [|sq r IH]; intros Hwf h; [split; reflexivity|].
  cbn [forallb] in Hwf. apply andb_true_iff in Hwf as [Hsq Hr].
  cbn [for_each flat_map]. rewrite bind_unfold.
  destruct (walk_sequence_visit locale courseId sq h Hsq) as [H1 H2].
  destruct (walk_sequence W locale courseId sq h) as [o e1].
  cbn [fst snd] in H1, H2. subst o.
  destruct (IH Hr (h ++ e1)) as [K1 K2].
  destruct (for_each r (walk_sequence W locale courseId) (h ++ e1)) as [o2 e2].
  cbn [fst snd] in *. split; [exact K1|].
  now rewrite visits_app, H2, K2.
Qed.

Lemma walk_course_visits locale course h :
  wf_course course = true ->
  fst (walk_course W locale course h) = Ret tt
  /\ sequence_visits (snd (walk_course W locale course h))
     = visits_of_course W course.
Proof.
  intro Hwf. split; [now apply walk_course_returns|].
  unfold walk_course, wf_course, visits_of_course in *.
  destruct (get_prop course "sequences") as [sequences|e] eqn:Hs;
    [|discriminate].
  destruct (get_prop course "courseId") as [cid|e] eqn:Hc;
    [|destruct course; discriminate].
  destruct (get_prop course "title") as [title|e] eqn:Ht;
    [|destruct course; discriminate].
  rewrite !bind_of_outcome_ret, bind_console. cbn [snd].
  rewrite bind_of_outcome_ret.
  change (sequence_visits (?e :: ?l)) with (visit_of e ++ sequence_visits l).
  cbn [visit_of app].
  destruct (negb (truthy sequences) || is_zero (opt_prop sequences "length"))
    eqn:Hnone.
  - cbn [console emit snd].
    change (sequence_visits [?e]) with (visit_of e ++ []).
    cbn [visit_of app].
    destruct sequences as [| | | | |[|sq r]|]; try reflexivity.
    discriminate Hnone.
  - destruct sequences as [| | | | |items|]; try discriminate.
    cbn [iterate]. rewrite bind_of_outcome_ret.
    now apply sequence_loop_visits.
Qed.

Lemma course_loop_visits locale cs :
  forallb wf_course cs = true ->
  forall h,
  fst (for_each cs (walk_course W locale) h) = Ret tt
  /\ sequence_visits (snd (for_each cs (walk_course W locale) h))
     = flat_map (visits_of_course W) cs.
Proof.
  induction cs as [|course r IH]; intros Hwf h; [split; reflexivity|].
  cbn [forallb] in Hwf. apply andb_true_iff in Hwf as [Hc Hr].
  cbn [for_each flat_map]. rewrite bind_unfold.
  destruct (walk_course_visits locale course h Hc) as [H1 H2].
  destruct (walk_course W locale course h) as [o e1].
  cbn [fst snd] in H1, H2. subst o.
  destruct (IH Hr (h ++ e1)) as [K1 K2].
  destruct (for_each r (walk_course W locale) (h ++ e1)) as [o2 e2].
  cbn [fst snd] in *. split; [exact K1|].
  now rewrite visits_app, H2, K2.
Qed.

Lemma run_visits locale h data cs :
  fst (top_fetch W locale h) = Ret data ->
  assigned_courses data = JArr cs ->
  forallb wf_course cs = true ->
  sequence_visits (snd (processAllProgress W locale h))
  = flat_map (visits_of_course W) cs.
Proof.
  unfold top_fetch, processAllProgress, assigned_courses. intros H Hc Hwf.
  rewrite try_catch_unfold, bind_console.
  set (h1 := h ++ _) in *. rewrite bind_unfold.
  pose proof (getCourses_backstage W
                (match locale with JUndef => str "fr-FR" | v => v end) h1) as Hq.
  destruct (getCoursesAndProgress W _ h1) as [[data'|e'] e1]; cbn [fst] in H;
    [|discriminate]. injection H as ->. cbn [snd] in Hq.
  rewrite Hc. cbn [truthy negb get_prop iterate].
  rewrite bind_of_outcome_ret, bind_console, bind_of_outcome_ret.
  cbn [fst snd]. rewrite bind_unfold.
  match goal with |- context [for_each cs (walk_course W ?l) ?hh] =>
    destruct (course_loop_visits l cs Hwf hh) as [K1 K2];
    destruct (for_each cs (walk_course W l) hh) as [o e2]
  end.
  cbn [fst snd] in K1, K2. subst o. cbn [console emit fst snd].
  change (sequence_visits (?e :: ?l)) with (visit_of e ++ sequence_visits l).
  cbn [visit_of app]. rewrite !visits_app.
  change (sequence_visits (?e :: ?l)) with (visit_of e ++ sequence_visits l).
  cbn [visit_of app]. rewrite !visits_app, K2.
  rewrite (quiet_visits e1).
  - cbn [app]. apply app_nil_r.
  - eapply TraceFacts.forallb_weaken; [exact backstage_no_visit|exact Hq].
Qed.

(** An activity without a step list, or with an empty one. *)
Lemma stepless_activity courseId sequence activity steps h :
  get_prop activity "steps" = Ret steps ->
  match steps with JArr (_ :: _) => false | _ => true end = true ->
  let x := submit_activity W courseId sequence activity h in
  submissions (snd x) = expected_whole courseId sequence activity
  /\ returned (snd x) = (if is_ret (fst x) then 1 else 0).
Proof.
  intros Hsteps Hnone x. subst x. unfold submit_activity.
  rewrite Hsteps, bind_of_outcome_ret.
  assert (Hw : let x := walk_whole W courseId sequence activity h in
               submissions (snd x) = expected_whole courseId sequence activity
               /\ returned (snd x) = (if is_ret (fst x) then 1 else 0)).
  { intro x. subst x. unfold walk_whole, expected_whole.
    destruct (get_prop sequence "sequenceId") as [sid|e];
      [rewrite bind_of_outcome_ret | rewrite bind_of_outcome_throw; now cbn].
    destruct (get_prop activity "activityId") as [aid|e];
      [rewrite bind_of_outcome_ret | rewrite bind_of_outcome_throw; now cbn].
    rewrite bind_unfold.
    pose proof (addProgress_bracket W courseId sid aid aid (num 1) h) as [Hs Hr].
    destruct (addProgressForActivity W courseId sid aid aid (num 1) h)
      as [[v|e] evs]; cbn [fst snd is_ret] in Hs, Hr.
    - cbn [console emit fst snd is_ret].
      rewrite TraceFacts.submissions_app, TraceFacts.returned_app, Hs, Hr.
      now cbn.
    - cbn [fst snd is_ret]. auto. }
  destruct steps as [| | | | |[|s0 rest]|]; try exact Hw.
  discriminate Hnone.
Qed.

End WithWorld.
End VisitFacts.

(** When the course query returns a list of course objects whose sequences
    are lists of objects with a string title, a run of [processAllProgress]
    opens one turn of its sequence loop for every sequence of every course,
    in the order of the payload and each under its title and slug, whatever
    fails inside the turns. *)
Theorem every_listed_sequence_is_visited
    (W : World) (locale : jsval) (h : list event) (data : jsval)
    (courses : list jsval) :
  fst (AddProgress.top_fetch W locale h) = Ret data ->
  AddProgress.assigned_courses data = JArr courses ->
  AddProgress.wf_courses (JArr courses) = true ->
  fst (AddProgress.processAllProgress W locale h) = Ret tt
  /\ AddProgress.sequence_visits (snd (AddProgress.processAllProgress W locale h))
     = flat_map (AddProgress.visits_of_course W) courses.
Proof.
  intros Hdata Hcourses Hwf. split.
  - apply (WalkFacts.process_returns W locale h Hdata);
      rewrite Hcourses; [reflexivity|exact Hwf].
  - exact (VisitFacts.run_visits W locale h Hdata Hcourses Hwf).
Qed.

(** The same at the run on the example course list, every submission being
    rejected. *)
Lemma every_listed_sequence_is_visited_witness :
  fst Examples.rejected_walk = Ret tt
  /\ AddProgress.sequence_visits (snd Examples.rejected_walk)
     = flat_map
         (AddProgress.visits_of_course (Examples.rejecting_world Examples.two_steps))
         [Examples.obj [("courseId", str "c1"); ("title", str "Intro");
                        ("sequences",
                         JArr [Examples.obj [("id", str "s1");
                                             ("title", str "Saludos")]])]].
Proof.
  apply (@every_listed_sequence_is_visited
           (Examples.rejecting_world Examples.two_steps) JUndef []
           Examples.courses_payload).
  - vm_compute. reflexivity.
  - reflexivity.
  - reflexivity.
Defined.

Example the_example_run_visits_saludos :
  AddProgress.sequence_visits (snd Examples.rejected_walk)
  = [(str "Saludos", js "saludos")].
Proof. vm_compute. reflexivity. Qed.

(** In [processAllProgress] an activity whose [steps] is absent, not a list,
    or an empty list is submitted exactly once, as its own step with score 1,
    and the body of its [try] returns exactly when that submission does. *)
Theorem stepless_activity_is_walked_once
    (W : World) (courseId sequence activity steps : jsval) (h : list event) :
  get_prop activity "steps" = Ret steps ->
  match steps with JArr (_ :: _) => false | _ => true end = true ->
  let x := AddProgress.submit_activity W courseId sequence activity h in
  submissions (snd x) = AddProgress.expected_whole courseId sequence activity
  /\ returned (snd x) = (if is_ret (fst x) then 1 else 0).
Proof.
  intros Hsteps Hnone. now apply (@VisitFacts.stepless_activity W _ _ _ steps).
Qed.

(** The same at an activity without steps whose submission is rejected. *)
Lemma stepless_activity_is_walked_once_witness :
  submissions (snd Examples.stepless_walk)
  = AddProgress.expected_whole (str "c1") (Examples.sequence_record (JArr []))
      (Examples.activity_without_steps "a1")
  /\ returned (snd Examples.stepless_walk)
     = (if is_ret (fst Examples.stepless_walk) then 1 else 0).
Proof.
  apply (@stepless_activity_is_walked_once
           (Examples.rejecting_world Examples.two_steps) (str "c1")
           (Examples.sequence_record (JArr []))
           (Examples.activity_without_steps "a1") JUndef []).
  - reflexivity.
  - reflexivity.
Defined.

(** ** [components/TimeForm.tsx]: loading and selecting *)

Module StateFacts.
Import TimeFormState.

Lemma panel_bind_unfold {A B} (m : M A) (k : A -> M B) h st :
  bind m k h st =
  match m h st with
  | (Ret a, e1, st1) =>
      match k a (h ++ e1) st1 with
      | (r, e2, st2) => (r, e1 ++ e2, st2)
      end
  | (Throw e, e1, st1) => (Throw e, e1, st1)
  end.
Proof. reflexivity. Qed.

Lemma sum_cons x l : list_sum (x :: l) = x + list_sum l.
Proof. reflexivity. Qed.

Lemma sum_nil : list_sum [] = 0.
Proof. reflexivity. Qed.

Lemma fold_count {A} (f : A -> nat) xs n :
  fold_left (fun count x => count + f x) xs n = n + list_sum (map f xs).
Proof.
  revert n. induction xs as [|x r IH]; intro n; cbn [fold_left map]; rewrite ?sum_cons, ?sum_nil.
  - lia.
  - rewrite IH. lia.
Qed.

Lemma count_sum rows :
  selectedActivitiesCount rows = list_sum (map selected_count rows).
Proof. unfold selectedActivitiesCount. now rewrite fold_count. Qed.

Lemma fold_total xs n :
  fold_left
    (fun total sq =>
       if TimeForm.sequence_selected sq
       then total + List.length (TimeForm.selected_of sq) else total) xs n
  = n + list_sum (map (fun sq => if TimeForm.sequence_selected sq
                                 then List.length (TimeForm.selected_of sq)
                                 else 0) xs).
Proof.
  revert n. induction xs as [|x r IH]; intro n; cbn [fold_left map]; rewrite ?sum_cons, ?sum_nil.
  - lia.
  - rewrite IH. destruct (TimeForm.sequence_selected x); lia.
Qed.

Lemma total_sum items :
  TimeForm.totalActivities items
  = list_sum (map (fun sq => if TimeForm.sequence_selected sq
                             then List.length (TimeForm.selected_of sq)
                             else 0) items).
Proof. unfold TimeForm.totalActivities. now rewrite fold_total. Qed.

(** *** The typed view keeps the flags *)

Lemma typed_activities_count acts typed :
  all_some typed_activity acts = Some typed ->
  List.length (filter TimeForm.selected typed)
  = List.length (filter act_selected acts).
Proof.
  revert typed. induction acts as [|a r IH]; intros typed H; cbn [all_some] in H.
  - injection H as <-. reflexivity.
  - destruct (typed_activity a) as [t|] eqn:Ha; [|discriminate H].
    destruct (all_some typed_activity r) as [ts|]; [|discriminate H].
    injection H as <-. cbn [filter].
    unfold typed_activity in Ha.
    destruct (act_id a); try discriminate Ha.
    destruct (act_type a); try discriminate Ha.
    injection Ha as <-. cbn [TimeForm.selected].
    destruct (act_selected a); cbn [List.length]; now rewrite (IH ts eq_refl).
Qed.

Lemma typed_row_flags row sq :
  typed_row row = Some sq ->
  TimeForm.sequence_selected sq = row_selected row
  /\ List.length (TimeForm.selected_of sq) = selected_count row.
Proof.
  unfold typed_row. intro H.
  destruct (row_courseId row); try discriminate H.
  destruct (row_courseName row); try discriminate H.
  destruct (row_sequenceId row); try discriminate H.
  destruct (row_sequenceTitle row); try discriminate H.
  destruct (all_some typed_activity (row_activities row)) as [acts|] eqn:Ha;
    [|discriminate H].
  injection H as <-. split; [reflexivity|].
  unfold TimeForm.selected_of, selected_count. cbn [TimeForm.activities].
  now apply typed_activities_count.
Qed.

Lemma typed_total rows items :
  typed_rows rows = Some items ->
  TimeForm.totalActivities items
  = list_sum (map (fun row => if row_selected row then selected_count row else 0)
                  rows).
Proof.
  rewrite total_sum. unfold typed_rows.
  revert items. induction rows as [|row r IH]; intros items H; cbn [all_some] in H.
  - injection H as <-. reflexivity.
  - destruct (typed_row row) as [sq|] eqn:Hr; [|discriminate H].
    destruct (all_some typed_row r) as [sqs|]; [|discriminate H].
    injection H as <-. cbn [map]; rewrite ?sum_cons, ?sum_nil.
    destruct (typed_row_flags _ Hr) as [-> ->]. now rewrite (IH sqs eq_refl).
Qed.

Lemma consistent_sum rows :
  consistent rows = true ->
  list_sum (map (fun row => if row_selected row then selected_count row else 0)
                rows)
  = list_sum (map selected_count rows).
Proof.
  unfold consistent. induction rows as [|row r IH]; [reflexivity|].
  cbn [forallb map]; rewrite ?sum_cons, ?sum_nil. intro H. apply andb_true_iff in H as [Hrow Hr].
  rewrite (IH Hr). unfold consistent_row in Hrow.
  destruct (row_selected row); [reflexivity|].
  cbn [orb] in Hrow. apply Nat.eqb_eq in Hrow. now rewrite Hrow.
Qed.

Lemma total_le_count rows :
  list_sum (map (fun row => if row_selected row then selected_count row else 0)
                rows)
  <= list_sum (map selected_count rows).
Proof.
  induction rows as [|row r IH]; [reflexivity|]. cbn [map]; rewrite ?sum_cons, ?sum_nil.
  destruct (row_selected row); lia.
Qed.

(** *** The pure updaters *)

Lemma deselected_count acts :
  List.length (filter act_selected (map deselect_activity acts)) = 0.
Proof. induction acts as [|a r IH]; [reflexivity|exact IH]. Qed.

Lemma select_all_consistent rows : consistent (select_all rows) = true.
Proof.
  unfold consistent, select_all. induction rows as [|row r IH]; [reflexivity|].
  cbn [map forallb]. now rewrite IH.
Qed.

Lemma select_all_count rows :
  selectedActivitiesCount (select_all rows) = selectedActivitiesCount rows.
Proof.
  rewrite !count_sum. unfold select_all. rewrite map_map. reflexivity.
Qed.

Lemma deselect_all_consistent rows : consistent (deselect_all rows) = true.
Proof.
  unfold consistent, deselect_all. induction rows as [|row r IH]; [reflexivity|].
  cbn [map forallb]. rewrite IH, andb_true_r.
  unfold consistent_row, selected_count. cbn [row_selected row_activities
    with_activities with_selected orb].
  now rewrite deselected_count.
Qed.

Lemma deselect_all_count rows : selectedActivitiesCount (deselect_all rows) = 0.
Proof.
  rewrite count_sum. unfold deselect_all. rewrite map_map.
  induction rows as [|row r IH]; [reflexivity|]. cbn [map]; rewrite ?sum_cons, ?sum_nil.
  rewrite IH. unfold selected_count at 1.
  cbn [row_activities with_activities]. now rewrite deselected_count.
Qed.

Lemma replace_at_length {A} i (x : A) xs :
  List.length (replace_at i x xs) = List.length xs.
Proof.
  revert i. induction xs as [|y r IH]; intros [|j]; cbn [replace_at List.length];
    auto.
Qed.

Lemma replace_at_same {A} i (x : A) xs :
  i < List.length xs -> nth_error (replace_at i x xs) i = Some x.
Proof.
  revert i. induction xs as [|y r IH]; intros [|j] H; cbn [List.length] in H;
    try lia; cbn [replace_at nth_error]; [reflexivity|].
  apply IH. lia.
Qed.

Lemma replace_at_other {A} i j (x : A) xs :
  i <> j -> nth_error (replace_at i x xs) j = nth_error xs j.
Proof.
  revert i j. induction xs as [|y r IH]; intros [|i] [|j] H;
    cbn [replace_at nth_error]; try reflexivity; try contradiction.
  apply IH. congruence.
Qed.

Lemma replace_at_self {A} i (x : A) xs :
  nth_error xs i = Some x -> replace_at i x xs = xs.
Proof.
  revert i. induction xs as [|y r IH]; intros [|j] H; cbn [nth_error] in H;
    try discriminate H; cbn [replace_at].
  - now injection H as ->.
  - now rewrite (IH _ H).
Qed.

Lemma replace_at_twice {A} i (x y : A) xs :
  replace_at i x (replace_at i y xs) = replace_at i x xs.
Proof.
  revert i. induction xs as [|z r IH]; intros [|j]; cbn [replace_at];
    try reflexivity. now rewrite IH.
Qed.

Lemma nth_error_some_lt {A} (xs : list A) i x :
  nth_error xs i = Some x -> i < List.length xs.
Proof. intro H. apply nth_error_Some. congruence. Qed.

(** The sum of a measure over a list in which one element is replaced. *)
Lemma replace_at_sum {A} (f : A -> nat) i (x y : A) xs :
  nth_error xs i = Some y ->
  list_sum (map f (replace_at i x xs)) + f y = list_sum (map f xs) + f x.
Proof.
  revert i. induction xs as [|z r IH]; intros [|j] H; cbn [nth_error] in H;
    try discriminate H; cbn [replace_at map]; rewrite ?sum_cons, ?sum_nil.
  - injection H as ->. lia.
  - specialize (IH _ H). lia.
Qed.

Lemma replace_at_forallb {A} (P : A -> bool) i (x : A) xs :
  forallb P xs = true -> P x = true -> forallb P (replace_at i x xs) = true.
Proof.
  revert i. induction xs as [|z r IH]; intros [|j] H Hx; cbn [replace_at forallb] in *;
    try reflexivity; apply andb_true_iff in H as [Hz Hr].
  - now rewrite Hx, Hr.
  - now rewrite Hz, (IH _ Hr Hx).
Qed.

Lemma flip_count acts i a :
  nth_error acts i = Some a ->
  List.length (filter act_selected (replace_at i (flip_activity a) acts))
  + (if act_selected a then 1 else 0)
  = List.length (filter act_selected acts)
    + (if act_selected a then 0 else 1).
Proof.
  revert i. induction acts as [|b r IH]; intros [|j] H; cbn [nth_error] in H;
    try discriminate H; cbn [replace_at filter].
  - injection H as ->. cbn [flip_activity act_selected].
    destruct (act_selected a); cbn [negb List.length]; lia.
  - specialize (IH _ H). destruct (act_selected b); cbn [List.length]; lia.
Qed.

Lemma flip_flip a : flip_activity (flip_activity a) = a.
Proof.
  destruct a as [i t sel]. unfold flip_activity. cbn. now rewrite negb_involutive.
Qed.

Lemma with_activities_same row :
  with_activities row (row_activities row) = row.
Proof. now destruct row. Qed.

End StateFacts.

(** The number the counter shows never falls below the total the validation
    of [handleProcessSelected] computes, and the two agree whenever no
    activity is selected in a sequence that is not; Select All leaves the
    counter as it is, and Deselect All brings it to 0. *)
Theorem counter_bounds_the_validation_total
    (rows : list TimeFormState.SequenceRow) (items : list TimeForm.SequenceItem) :
  TimeFormState.typed_rows rows = Some items ->
  TimeForm.totalActivities items <= TimeFormState.selectedActivitiesCount rows
  /\ (TimeFormState.consistent rows = true ->
      TimeForm.totalActivities items = TimeFormState.selectedActivitiesCount rows)
  /\ TimeFormState.selectedActivitiesCount (TimeFormState.select_all rows)
     = TimeFormState.selectedActivitiesCount rows
  /\ TimeFormState.selectedActivitiesCount (TimeFormState.deselect_all rows) = 0.
Proof.
  intro Ht. rewrite (StateFacts.typed_total _ Ht), StateFacts.count_sum.
  split; [apply StateFacts.total_le_count|].
  split; [apply StateFacts.consistent_sum|].
  split; [rewrite <- StateFacts.count_sum; apply StateFacts.select_all_count
         |apply StateFacts.deselect_all_count].
Qed.

(** The same at a sequence that is not selected although its activity is:
    the counter shows 1 and the validation counts 0. *)
Lemma counter_bounds_the_validation_total_witness :
  TimeForm.totalActivities [Examples.saludos false]
  <= TimeFormState.selectedActivitiesCount
       [Examples.saludos_row false true [Examples.a1_row true]]
  /\ (TimeFormState.consistent
        [Examples.saludos_row false true [Examples.a1_row true]] = true ->
      TimeForm.totalActivities [Examples.saludos false]
      = TimeFormState.selectedActivitiesCount
          [Examples.saludos_row false true [Examples.a1_row true]])
  /\ TimeFormState.selectedActivitiesCount
       (TimeFormState.select_all
          [Examples.saludos_row false true [Examples.a1_row true]])
     = TimeFormState.selectedActivitiesCount
         [Examples.saludos_row false true [Examples.a1_row true]]
  /\ TimeFormState.selectedActivitiesCount
       (TimeFormState.deselect_all
          [Examples.saludos_row false true [Examples.a1_row true]]) = 0.
Proof.
  apply (@counter_bounds_the_validation_total
           [Examples.saludos_row false true [Examples.a1_row true]]
           [Examples.saludos false]).
  reflexivity.
Defined.

Example counter_and_validation_can_differ :
  TimeFormState.selectedActivitiesCount
    [Examples.saludos_row false true [Examples.a1_row true]] = 1
  /\ TimeForm.totalActivities [Examples.saludos false] = 0.
Proof. split; reflexivity. Qed.

Module HandlerFacts.
Import TimeFormState StateFacts.
Local Open Scope panel_scope.

#[local] Opaque AddProgress.getSequence AddProgress.getCoursesAndProgress.

Lemma with_activities_twice row xs ys :
  with_activities (with_activities row xs) ys = with_activities row ys.
Proof. reflexivity. Qed.

Lemma toggle_activity_back si ai rows rows' :
  toggle_activity si ai rows = Ret rows' -> toggle_activity si ai rows' = Ret rows.
Proof.
  unfold toggle_activity.
  destruct (nth_error rows si) as [row|] eqn:Hrow; [|discriminate].
  destruct (nth_error (row_activities row) ai) as [a|] eqn:Ha; [|discriminate].
  intro H. injection H as <-.
  rewrite (replace_at_same _ _ (nth_error_some_lt _ _ Hrow)).
  cbn [row_activities with_activities].
  rewrite (replace_at_same _ _ (nth_error_some_lt _ _ Ha)).
  rewrite flip_flip, !replace_at_twice, with_activities_twice.
  rewrite (replace_at_self _ _ Ha), with_activities_same.
  now rewrite (replace_at_self _ _ Hrow).
Qed.

Lemma toggle_activity_count si ai rows rows' :
  toggle_activity si ai rows = Ret rows' ->
  exists row a,
    nth_error rows si = Some row
    /\ nth_error (row_activities row) ai = Some a
    /\ selectedActivitiesCount rows' + (if act_selected a then 1 else 0)
       = selectedActivitiesCount rows + (if act_selected a then 0 else 1).
Proof.
  unfold toggle_activity.
  destruct (nth_error rows si) as [row|] eqn:Hrow; [|discriminate].
  destruct (nth_error (row_activities row) ai) as [a|] eqn:Ha; [|discriminate].
  intro H. injection H as <-. exists row, a. split; [reflexivity|].
  split; [exact Ha|]. rewrite !count_sum.
  pose proof (@replace_at_sum _ selected_count si
                (with_activities row
                   (replace_at ai (flip_activity a) (row_activities row)))
                row rows Hrow) as Hsum.
  pose proof (flip_count _ _ Ha) as Hflip.
  change (selected_count
            (with_activities row
               (replace_at ai (flip_activity a) (row_activities row))))
    with (List.length
            (filter act_selected
               (replace_at ai (flip_activity a) (row_activities row)))) in Hsum.
  change (selected_count row)
    with (List.length (filter act_selected (row_activities row))) in Hsum.
  destruct (act_selected a); lia.
Qed.

Lemma toggle_activity_consistent si ai rows rows' row :
  toggle_activity si ai rows = Ret rows' ->
  nth_error rows si = Some row -> row_selected row = true ->
  consistent rows = true -> consistent rows' = true.
Proof.
  unfold toggle_activity. intros H Hrow Hsel Hc. rewrite Hrow in H.
  destruct (nth_error (row_activities row) ai) as [a|] eqn:Ha; [|discriminate].
  injection H as <-. apply replace_at_forallb; [exact Hc|].
  unfold consistent_row. cbn [row_selected with_activities]. now rewrite Hsel.
Qed.

(** *** Reading the payloads *)

Lemma map_outcome_all {A B} (f : A -> outcome B) (P : B -> bool) xs ys :
  (forall x y, f x = Ret y -> P y = true) ->
  map_outcome f xs = Ret ys -> forallb P ys = true.
Proof.
  intro Hf. revert ys. induction xs as [|x r IH]; intros ys H; cbn [map_outcome] in H.
  - injection H as <-. reflexivity.
  - destruct (f x) as [y|e] eqn:Hx; [|discriminate H]. cbn [and_then] in H.
    destruct (map_outcome f r) as [zs|e]; [|discriminate H].
    cbn [and_then] in H. injection H as <-. cbn [forallb].
    now rewrite (Hf _ _ Hx), (IH zs eq_refl).
Qed.

Lemma gather_all {A B} (f : A -> outcome (list B)) (P : B -> bool) xs ys :
  (forall x zs, f x = Ret zs -> forallb P zs = true) ->
  gather f xs = Ret ys -> forallb P ys = true.
Proof.
  intro Hf. revert ys. induction xs as [|x r IH]; intros ys H; cbn [gather] in H.
  - injection H as <-. reflexivity.
  - destruct (f x) as [zs|e] eqn:Hx; [|discriminate H]. cbn [and_then] in H.
    destruct (gather f r) as [ws|e]; [|discriminate H].
    cbn [and_then] in H. injection H as <-.
    rewrite forallb_app. now rewrite (Hf _ _ Hx), (IH ws eq_refl).
Qed.

End HandlerFacts.

Module HandlerRuns.
Import TimeFormState StateFacts HandlerFacts.
Local Open Scope panel_scope.

#[local] Opaque AddProgress.getSequence AddProgress.getCoursesAndProgress.

Section WithWorld.
Variable W : World.

Lemma activity_row_unselected act a :
  activity_row act = Ret a -> unselected a = true.
Proof.
  unfold activity_row.
  destruct (get_prop act "activityId") as [i|e]; [|discriminate].
  destruct (get_prop act "activityType") as [t|e]; [|discriminate].
  cbn [and_then]. intro H. now injection H as <-.
Qed.

Lemma loaded_activities_cases row seqData acts :
  loaded_activities W row seqData = Ret acts ->
  acts = row_activities row \/ forallb unselected acts = true.
Proof.
  unfold loaded_activities.
  destruct (negb (truthy (opt_prop (opt_prop seqData "data") "sequence")));
    [intro H; injection H as <-; now left|].
  destruct (get_prop _ "activities") as [raw|e]; [|discriminate].
  cbn [and_then].
  destruct (match raw with JStr s => parse W s | _ => Ret raw end)
    as [activities|e]; [|discriminate].
  cbn [and_then].
  destruct activities as [| | | | |items|];
    try (intro H; injection H as <-; now left).
  intro H. right. revert H. apply map_outcome_all.
  exact activity_row_unselected.
Qed.

(** The [try] of [handleToggleSequence] and its [catch] always hand a
    row back: the expanded row, or the row as it was with the failure
    logged; they make at most one request and leave the state alone. *)
Lemma expand_row_cases row h st :
  exists row' evs,
    expand_row W row h st = (Ret row', evs, st)
    /\ List.length (filter is_fetch evs) <= 1
    /\ reported evs = []
    /\ ((exists acts,
           row' = with_loading (with_expanded (with_activities row acts) true)
                    false
           /\ (acts = row_activities row \/ forallb unselected acts = true))
        \/ (exists err pre,
              row' = with_loading row false
              /\ evs = pre ++ [load_failed_line (row_sequenceTitle row) err])).
Proof.
  unfold expand_row, try_catch. rewrite panel_bind_unfold. unfold of_outcome at 1.
  destruct (AddProgress.titleToSlug_any W (row_sequenceTitle row)) as [slug|e].
  2:{ eexists _, _. split; [reflexivity|]. split; [cbn; lia|].
      split; [reflexivity|]. right. exists e, []. split; reflexivity. }
  rewrite panel_bind_unfold. unfold lift at 1.
  pose proof (QueryFacts.getSequence_events W (row_courseId row) (JStr slug)
                (str "fr-FR") (h ++ [])) as Hev.
  destruct (AddProgress.getSequence W (row_courseId row) (JStr slug)
              (str "fr-FR") (h ++ [])) as [[seqData|e] evs].
  2:{ cbn [snd] in Hev.
      destruct Hev as [->|(i & an & ->)].
      - eexists _, _. split; [reflexivity|]. split; [cbn; lia|].
        split; [reflexivity|]. right. exists e, []. split; reflexivity.
      - eexists _, _. split; [reflexivity|]. split; [cbn; lia|].
        split; [reflexivity|]. right.
        exists e, [EvFetch AddProgress.GRAPHQL_ENDPOINT i an].
        split; reflexivity. }
  cbn [snd] in Hev. rewrite panel_bind_unfold. unfold of_outcome at 1.
  destruct (loaded_activities W row seqData) as [acts|e] eqn:Hacts.
  - cbn [ret app].
    destruct Hev as [->|(i & an & ->)].
    + eexists _, _. split; [reflexivity|]. split; [cbn; lia|].
      split; [reflexivity|]. left. exists acts. split; [reflexivity|].
      now apply (loaded_activities_cases row seqData).
    + eexists _, _. split; [reflexivity|]. split; [cbn; lia|].
      split; [reflexivity|]. left. exists acts. split; [reflexivity|].
      now apply (loaded_activities_cases row seqData).
  - destruct Hev as [->|(i & an & ->)].
    + eexists _, _. split; [reflexivity|]. split; [cbn; lia|].
      split; [reflexivity|]. right. exists e, []. split; reflexivity.
    + eexists _, _. split; [reflexivity|]. split; [cbn; lia|].
      split; [reflexivity|]. right.
      exists e, [EvFetch AddProgress.GRAPHQL_ENDPOINT i an].
      split; reflexivity.
Qed.

(** *** [handleToggleSequence] *)

Lemma toggle_sequence_run index h st row0 :
  nth_error (sequences st) index = Some row0 ->
  exists row evs,
    handleToggleSequence W index h st
    = (Ret tt, evs,
       {| sequences := replace_at index row (sequences st);
          loading := loading st; error := error st; result := result st |})
    /\ List.length (filter is_fetch evs) <= 1
    /\ reported evs = []
    /\ (if row_selected row0 then
          evs = []
          /\ row = with_activities (with_selected row0 false)
                     (map deselect_activity (row_activities row0))
        else if row_expanded row0 then
          evs = [] /\ row = with_selected row0 true
        else
          (exists acts,
             row = with_loading
                     (with_expanded
                        (with_activities (with_selected row0 true) acts) true)
                     false
             /\ (acts = row_activities row0
                 \/ forallb unselected acts = true))
          \/ (exists err pre,
                row = with_loading (with_selected row0 true) false
                /\ evs = pre ++ [load_failed_line (row_sequenceTitle row0) err])).
Proof.
  intro Hrow. unfold handleToggleSequence. rewrite Hrow. cbv zeta.
  cbn [row_selected row_expanded with_selected].
  destruct (row_selected row0) eqn:Hsel; cbn [negb andb].
  - eexists _, []. split; [reflexivity|]. split; [cbn; lia|].
    split; [reflexivity|]. split; reflexivity.
  - destruct (row_expanded row0) eqn:Hexp; cbn [negb].
    + eexists _, []. split; [reflexivity|]. split; [cbn; lia|].
      split; [reflexivity|]. split; reflexivity.
    + rewrite panel_bind_unfold. unfold setSequences at 1, modify at 1.
      rewrite panel_bind_unfold.
      match goal with |- context [expand_row W ?r ?hh ?s] =>
        destruct (expand_row_cases r hh s)
          as (row' & evs & Hrun & Hcount & Hrep & Hcases);
        rewrite Hrun end.
      unfold setSequences, modify.
      cbn [sequences loading error result app].
      rewrite app_nil_r.
      exists row', evs. split; [reflexivity|].
      split; [exact Hcount|]. split; [exact Hrep|].
      destruct Hcases as [(acts & -> & Hacts)|(err & pre & -> & ->)].
      * left. exists acts. split; [reflexivity|exact Hacts].
      * right. exists err, pre. split; reflexivity.
Qed.

Lemma toggle_sequence_outside index h st :
  nth_error (sequences st) index = None ->
  handleToggleSequence W index h st = (Throw TypeError, [], st).
Proof. intro H. unfold handleToggleSequence. now rewrite H. Qed.

(** The row a toggle leaves is consistent, whatever it was. *)
Lemma toggled_row_consistent index h st row0 :
  nth_error (sequences st) index = Some row0 ->
  consistent (sequences st) = true ->
  consistent (sequences (snd (handleToggleSequence W index h st))) = true.
Proof.
  intros Hrow Hc.
  destruct (toggle_sequence_run index h st Hrow)
    as (row & evs & Hrun & _ & _ & Hcases).
  rewrite Hrun. cbn [snd sequences].
  apply replace_at_forallb; [exact Hc|].
  unfold consistent_row.
  destruct (row_selected row0).
  - destruct Hcases as [_ ->]. unfold selected_count.
    cbn [row_selected row_activities with_activities with_selected orb].
    now rewrite deselected_count.
  - destruct (row_expanded row0).
    + destruct Hcases as [_ ->]. reflexivity.
    + destruct Hcases as [(acts & -> & _)|(err & pre & -> & _)]; reflexivity.
Qed.

(** *** [handleLoadSequences] *)

Variable coerced_gt_zero : jsval -> outcome bool.

Lemma new_row_fresh course sq row :
  new_row course sq = Ret row -> fresh_row row = true.
Proof.
  unfold new_row.
  destruct (get_prop course "courseId"); [|discriminate].
  destruct (get_prop course "title"); [|discriminate].
  destruct (get_prop sq "id"); [|discriminate].
  destruct (get_prop sq "title"); [|discriminate].
  cbn [and_then]. intro H. now injection H as <-.
Qed.

Lemma rows_of_course_fresh course rows :
  rows_of_course coerced_gt_zero course = Ret rows ->
  forallb fresh_row rows = true.
Proof.
  unfold rows_of_course.
  destruct (get_prop course "sequences") as [seqs|e]; [|discriminate].
  cbn [and_then].
  destruct (negb (truthy seqs)); [intro H; now injection H as <-|].
  destruct (gt_zero coerced_gt_zero (opt_prop seqs "length")) as [[|]|e];
    cbn [and_then]; try discriminate; [|intro H; now injection H as <-].
  destruct (iterate seqs) as [items|e]; [|discriminate].
  cbn [and_then]. apply map_outcome_all. exact (new_row_fresh course).
Qed.

Lemma collect_rows_fresh courses rows :
  collect_rows coerced_gt_zero courses = Ret rows ->
  forallb fresh_row rows = true.
Proof.
  unfold collect_rows.
  destruct (iterate courses) as [items|e]; [|discriminate].
  cbn [and_then]. apply gather_all. exact rows_of_course_fresh.
Qed.

Lemma new_row_plain course sq :
  nullish course = false -> nullish sq = false ->
  new_row course sq = Ret (row_of course sq).
Proof.
  intros Hc Hs. unfold new_row, row_of, opt_prop.
  destruct course; try discriminate Hc; destruct sq; try discriminate Hs;
    reflexivity.
Qed.

Lemma map_new_rows course items :
  nullish course = false ->
  forallb (fun sq => negb (nullish sq)) items = true ->
  map_outcome (new_row course) items = Ret (map (row_of course) items).
Proof.
  intro Hc. induction items as [|sq r IH]; [reflexivity|].
  cbn [forallb map_outcome map]. intro H. apply andb_true_iff in H as [Hs Hr].
  apply negb_true_iff in Hs.
  now rewrite (new_row_plain _ _ Hc Hs), (IH Hr).
Qed.

Lemma rows_of_plain_course course :
  plain_course course = true ->
  rows_of_course coerced_gt_zero course
  = Ret (map (row_of course) (listed_sequences course)).
Proof.
  unfold plain_course, rows_of_course, listed_sequences. intro H.
  apply andb_true_iff in H as [Hc Hs]. apply negb_true_iff in Hc.
  assert (Hget : get_prop course "sequences"
                 = Ret (opt_prop course "sequences")).
  { unfold opt_prop. destruct course; try discriminate Hc; reflexivity. }
  rewrite Hget. cbn [and_then].
  destruct (opt_prop course "sequences") as [| |b|q|t|items|ps] eqn:Hseqs;
    try (rewrite Hs; reflexivity).
  cbn [truthy negb opt_prop get_prop String.eqb Ascii.eqb Bool.eqb].
  destruct items as [|sq r]; [reflexivity|].
  cbn [gt_zero num List.length Qnum inject_Z and_then iterate].
  change (0 <? Z.of_nat (S (List.length r)))%Z with true.
  cbv iota. now apply map_new_rows.
Qed.

Lemma gather_plain courses :
  forallb plain_course courses = true ->
  gather (rows_of_course coerced_gt_zero) courses = Ret (expected_rows courses).
Proof.
  unfold expected_rows. induction courses as [|course r IH]; [reflexivity|].
  cbn [forallb gather flat_map]. intro H. apply andb_true_iff in H as [Hc Hr].
  now rewrite (rows_of_plain_course _ Hc), (IH Hr).
Qed.

Lemma load_unfold h st :
  handleLoadSequences W coerced_gt_zero h st
  = let st0 := {| sequences := sequences st; loading := true;
                  error := None; result := None |} in
    match AddProgress.getCoursesAndProgress W (str "fr-FR") h with
    | (Ret data, evs) =>
        let courses := opt_prop (opt_prop data "data") "assignedCourses" in
        if negb (truthy courses) then
          (Ret tt, evs,
           {| sequences := sequences st; loading := false;
              error := Some NoCoursesFound; result := None |})
        else
          match collect_rows coerced_gt_zero courses with
          | Ret rows =>
              (Ret tt, evs,
               {| sequences := rows; loading := false; error := None;
                  result := Some (Loaded (List.length rows)) |})
          | Throw err =>
              (Ret tt, evs ++ [EvOnError err],
               {| sequences := sequences st; loading := false;
                  error := Some (MessageOf err); result := None |})
          end
    | (Throw err, evs) =>
        (Ret tt, evs ++ [EvOnError err],
         {| sequences := sequences st; loading := false;
            error := Some (MessageOf err); result := None |})
    end.
Proof.
  unfold handleLoadSequences, try_finally, try_catch, bind, setError,
    setResult, setLoading, setSequences, onError, emit, modify, lift,
    of_outcome.
  cbn [app sequences loading error result]. rewrite !app_nil_r.
  destruct (AddProgress.getCoursesAndProgress W (str "fr-FR") h)
    as [[data|err] evs]; cbv zeta.
  - destruct (negb (truthy (opt_prop (opt_prop data "data") "assignedCourses"))).
    + cbn [app]. now rewrite !app_nil_r.
    + destruct (collect_rows coerced_gt_zero _) as [rows|err].
      * cbn [app sequences loading error result]. now rewrite !app_nil_r.
      * cbn [app sequences loading error result]. now rewrite !app_nil_r.
  - cbn [app sequences loading error result]. now rewrite !app_nil_r.
Qed.

Lemma load_fetch h :
  exists init answer,
    snd (AddProgress.getCoursesAndProgress W (str "fr-FR") h)
    = [EvFetch AddProgress.GRAPHQL_ENDPOINT init answer].
Proof.
  pose proof (QueryFacts.getCourses_cases W (str "fr-FR") h) as H.
  change (truthy (str "fr-FR")) with true in H. cbv zeta iota in H.
  rewrite H. eexists _, _. reflexivity.
Qed.

End WithWorld.
End HandlerRuns.

Module LoadFacts.
Import TimeFormState StateFacts HandlerFacts.

#[local] Opaque AddProgress.getCoursesAndProgress.

Lemma fresh_rows_consistent rows :
  forallb fresh_row rows = true -> consistent rows = true.
Proof.
  unfold consistent. induction rows as [|row r IH]; [reflexivity|].
  cbn [forallb]. intro H. apply andb_true_iff in H as [Hrow Hr].
  rewrite (IH Hr), andb_true_r.
  unfold fresh_row in Hrow. unfold consistent_row, selected_count.
  destruct (row_activities row); [apply orb_true_r|].
  rewrite andb_false_r in Hrow. discriminate.
Qed.

Lemma load_rows_cases W coerced_gt_zero h st :
  forallb fresh_row
    (sequences (snd (handleLoadSequences W coerced_gt_zero h st))) = true
  \/ sequences (snd (handleLoadSequences W coerced_gt_zero h st)) = sequences st.
Proof.
  rewrite HandlerRuns.load_unfold. cbv zeta.
  destruct (AddProgress.getCoursesAndProgress W (str "fr-FR") h)
    as [[data|err] evs]; [|now right].
  destruct (negb (truthy (opt_prop (opt_prop data "data") "assignedCourses")));
    [now right|].
  destruct (collect_rows coerced_gt_zero _) as [rows|err] eqn:Hc; [|now right].
  left. exact (HandlerRuns.collect_rows_fresh _ _ Hc).
Qed.
End LoadFacts.

(** [handleLoadSequences] always returns with [loading] back to false,
    having made exactly one request.  Either it stored rows, all of them
    unselected, unexpanded, not loading and without activities, announced
    their number and reported no error; or it left the rows as they were and
    set the error text, handing the error to [onError] too unless the error
    is that no courses were found. *)
Theorem load_always_settles
    (W : World) (coerced_gt_zero : jsval -> outcome bool)
    (h : list event) (st : TimeFormState.panel) :
  let x := TimeFormState.handleLoadSequences W coerced_gt_zero h st in
  outcome_of x = Ret tt
  /\ TimeFormState.loading (state_of x) = false
  /\ List.length (filter is_fetch (events_of x)) = 1
  /\ ((TimeFormState.error (state_of x) = None
       /\ TimeFormState.result (state_of x)
          = Some (TimeFormState.Loaded
                    (List.length (TimeFormState.sequences (state_of x))))
       /\ forallb TimeFormState.fresh_row
            (TimeFormState.sequences (state_of x)) = true
       /\ reported (events_of x) = [])
      \/ (TimeFormState.sequences (state_of x) = TimeFormState.sequences st
          /\ TimeFormState.result (state_of x) = None
          /\ ((TimeFormState.error (state_of x)
               = Some TimeFormState.NoCoursesFound
               /\ reported (events_of x) = [])
              \/ exists err,
                   TimeFormState.error (state_of x)
                   = Some (TimeFormState.MessageOf err)
                   /\ reported (events_of x) = [err]))).
Proof.
  intro x. subst x. rewrite HandlerRuns.load_unfold. cbv zeta.
  destruct (HandlerRuns.load_fetch W h) as (init & answer & Hev).
  destruct (AddProgress.getCoursesAndProgress W (str "fr-FR") h)
    as [[data|err] evs]; cbn [snd] in Hev; subst evs.
  - destruct (negb (truthy (opt_prop (opt_prop data "data") "assignedCourses"))).
    + cbn. repeat split. right. repeat split. left. split; reflexivity.
    + destruct (TimeFormState.collect_rows coerced_gt_zero _) as [rows|err] eqn:Hc.
      * cbn [outcome_of events_of state_of fst snd TimeFormState.loading
             TimeFormState.error TimeFormState.result TimeFormState.sequences].
        repeat split. left. repeat split.
        exact (HandlerRuns.collect_rows_fresh _ _ Hc).
      * cbn. repeat split. right. repeat split. right. exists err.
        split; reflexivity.
  - cbn. repeat split. right. repeat split. right. exists err. split; reflexivity.
Qed.

(** When the course query returns a course list whose courses are objects
    with a list of sequences (or none), [handleLoadSequences] stores one row
    per sequence, in the order of the payload, each with the identifier and
    title of its course and its own, and announces their number. *)
Theorem loaded_rows_follow_the_payload
    (W : World) (coerced_gt_zero : jsval -> outcome bool)
    (h : list event) (st : TimeFormState.panel)
    (data : jsval) (courses : list jsval) :
  fst (AddProgress.getCoursesAndProgress W (str "fr-FR") h) = Ret data ->
  opt_prop (opt_prop data "data") "assignedCourses" = JArr courses ->
  forallb TimeFormState.plain_course courses = true ->
  let x := TimeFormState.handleLoadSequences W coerced_gt_zero h st in
  TimeFormState.sequences (state_of x) = TimeFormState.expected_rows courses
  /\ TimeFormState.result (state_of x)
     = Some (TimeFormState.Loaded
               (List.length (TimeFormState.expected_rows courses)))
  /\ TimeFormState.error (state_of x) = None
  /\ TimeFormState.loading (state_of x) = false.
Proof.
  intros Hdata Hcourses Hplain x. subst x. rewrite HandlerRuns.load_unfold.
  cbv zeta.
  destruct (AddProgress.getCoursesAndProgress W (str "fr-FR") h) as [o evs].
  cbn [fst] in Hdata. subst o. rewrite Hcourses. cbn [truthy negb].
  unfold TimeFormState.collect_rows. cbn [iterate TimeFormState.and_then].
  rewrite (HandlerRuns.gather_plain coerced_gt_zero _ Hplain).
  cbn. auto.
Qed.

(** The same at the example course list: one course with one sequence. *)
Lemma loaded_rows_follow_the_payload_witness :
  TimeFormState.sequences (state_of Examples.load_run)
  = TimeFormState.expected_rows
      [Examples.obj [("courseId", str "c1"); ("title", str "Intro");
                     ("sequences",
                      JArr [Examples.obj [("id", str "s1");
                                          ("title", str "Saludos")]])]]
  /\ TimeFormState.result (state_of Examples.load_run)
     = Some (TimeFormState.Loaded
               (List.length
                  (TimeFormState.expected_rows
                     [Examples.obj [("courseId", str "c1"); ("title", str "Intro");
                                    ("sequences",
                                     JArr [Examples.obj [("id", str "s1");
                                                         ("title", str "Saludos")]])]])))
  /\ TimeFormState.error (state_of Examples.load_run) = None
  /\ TimeFormState.loading (state_of Examples.load_run) = false.
Proof.
  apply (@loaded_rows_follow_the_payload
           (Examples.rejecting_world Examples.two_steps) Examples.no_coercion
           [] Examples.empty_panel Examples.courses_payload).
  - vm_compute. reflexivity.
  - reflexivity.
  - reflexivity.
Defined.

Example load_of_the_example_courses :
  TimeFormState.sequences (state_of Examples.load_run)
  = [Examples.saludos_row false false []]
  /\ TimeFormState.result (state_of Examples.load_run)
     = Some (TimeFormState.Loaded 1).
Proof. vm_compute. auto. Qed.

(** A failed load keeps the rows, and the selection in them. *)
Example failed_load_keeps_the_rows :
  TimeFormState.sequences (state_of Examples.failed_load_run)
  = [Examples.saludos_row true true [Examples.a1_row true]]
  /\ TimeFormState.error (state_of Examples.failed_load_run)
     = Some (TimeFormState.MessageOf
               (HttpError 500 (js "Internal Server Error")))
  /\ reported (events_of Examples.failed_load_run)
     = [HttpError 500 (js "Internal Server Error")].
Proof. vm_compute. auto. Qed.

(** [handleToggleSequence] at an index outside the list throws and changes
    nothing.  At a row of the list it returns, touches only that row, makes
    at most one request and never calls [onError].  Deselecting makes no
    request and deselects every activity of the row; selecting a row that is
    expanded makes no request and only sets the flag; selecting one that is
    not ends with the row selected and not loading: expanded, with its
    activities as they were or replaced by unselected ones, or, when
    anything threw, not expanded, with its activities as they were and the
    failure logged. *)
Theorem toggling_a_sequence_settles
    (W : World) (index : nat) (h : list event) (st : TimeFormState.panel) :
  let x := TimeFormState.handleToggleSequence W index h st in
  match nth_error (TimeFormState.sequences st) index with
  | None => x = (Throw TypeError, [], st)
  | Some row0 =>
      exists row,
        outcome_of x = Ret tt
        /\ state_of x
           = {| TimeFormState.sequences :=
                  TimeFormState.replace_at index row (TimeFormState.sequences st);
                TimeFormState.loading := TimeFormState.loading st;
                TimeFormState.error := TimeFormState.error st;
                TimeFormState.result := TimeFormState.result st |}
        /\ List.length (filter is_fetch (events_of x)) <= 1
        /\ reported (events_of x) = []
        /\ (if TimeFormState.row_selected row0 then
              events_of x = []
              /\ row = TimeFormState.with_activities
                         (TimeFormState.with_selected row0 false)
                         (map TimeFormState.deselect_activity
                              (TimeFormState.row_activities row0))
            else if TimeFormState.row_expanded row0 then
              events_of x = [] /\ row = TimeFormState.with_selected row0 true
            else
              (exists acts,
                 row = TimeFormState.with_loading
                         (TimeFormState.with_expanded
                            (TimeFormState.with_activities
                               (TimeFormState.with_selected row0 true) acts)
                            true)
                         false
                 /\ (acts = TimeFormState.row_activities row0
                     \/ forallb TimeFormState.unselected acts = true))
              \/ (exists err pre,
                    row = TimeFormState.with_loading
                            (TimeFormState.with_selected row0 true) false
                    /\ events_of x
                       = pre ++ [TimeFormState.load_failed_line
                                   (TimeFormState.row_sequenceTitle row0) err]))
  end.
Proof.
  intro x. subst x.
  destruct (nth_error (TimeFormState.sequences st) index) as [row0|] eqn:Hrow.
  - destruct (HandlerRuns.toggle_sequence_run W index h st Hrow)
      as (row & evs & Hrun & Hcount & Hrep & Hcases).
    rewrite Hrun. exists row.
    cbn [outcome_of events_of state_of fst snd]. auto.
  - now apply HandlerRuns.toggle_sequence_outside.
Qed.

Example selecting_loads_the_activities :
  TimeFormState.sequences (state_of Examples.expand_run)
  = [Examples.saludos_row true true [Examples.a1_row false]]
  /\ List.length (filter is_fetch (events_of Examples.expand_run)) = 1.
Proof. vm_compute. auto. Qed.

Example failed_expansion_leaves_the_row_selected :
  TimeFormState.sequences (state_of Examples.failed_expand_run)
  = [Examples.saludos_row true false []]
  /\ outcome_of Examples.failed_expand_run = Ret tt.
Proof. vm_compute. auto. Qed.

Example deselecting_clears_the_activities :
  Examples.collapse_run
  = (Ret tt, [],
     Examples.panel_of [Examples.saludos_row false true [Examples.a1_row false]]).
Proof. vm_compute. reflexivity. Qed.

(** When [toggle_activity], the updater of [handleToggleActivity], returns,
    both indices are within their lists, the counter moves by exactly one,
    up when the activity was not selected and down when it was, the rows
    other than the one at the index are as they were, and toggling the same
    activity again gives back the list it started from. *)
Theorem toggle_activity_flips_one_flag
    (seqIndex actIndex : nat) (rows rows' : list TimeFormState.SequenceRow) :
  TimeFormState.toggle_activity seqIndex actIndex rows = Ret rows' ->
  TimeFormState.toggle_activity seqIndex actIndex rows' = Ret rows
  /\ List.length rows' = List.length rows
  /\ (forall j, j <> seqIndex -> nth_error rows' j = nth_error rows j)
  /\ exists row a,
       nth_error rows seqIndex = Some row
       /\ nth_error (TimeFormState.row_activities row) actIndex = Some a
       /\ TimeFormState.selectedActivitiesCount rows'
          + (if TimeFormState.act_selected a then 1 else 0)
          = TimeFormState.selectedActivitiesCount rows
            + (if TimeFormState.act_selected a then 0 else 1).
Proof.
  intro H. split; [now apply HandlerFacts.toggle_activity_back|].
  split; [|split; [|now apply HandlerFacts.toggle_activity_count]].
  - unfold TimeFormState.toggle_activity in H.
    destruct (nth_error rows seqIndex) as [row|]; [|discriminate].
    destruct (nth_error (TimeFormState.row_activities row) actIndex);
      [|discriminate].
    injection H as <-. apply StateFacts.replace_at_length.
  - intros j Hj. unfold TimeFormState.toggle_activity in H.
    destruct (nth_error rows seqIndex) as [row|]; [|discriminate].
    destruct (nth_error (TimeFormState.row_activities row) actIndex);
      [|discriminate].
    injection H as <-. apply StateFacts.replace_at_other. congruence.
Qed.

(** The same at the one activity of the one sequence. *)
Lemma toggle_activity_flips_one_flag_witness :
  TimeFormState.toggle_activity 0 0
    [Examples.saludos_row true true [Examples.a1_row true]]
  = Ret [Examples.saludos_row true true [Examples.a1_row false]]
  /\ List.length [Examples.saludos_row true true [Examples.a1_row true]]
     = List.length [Examples.saludos_row true true [Examples.a1_row false]]
  /\ (forall j, j <> 0 ->
        nth_error [Examples.saludos_row true true [Examples.a1_row true]] j
        = nth_error [Examples.saludos_row true true [Examples.a1_row false]] j)
  /\ exists row a,
       nth_error [Examples.saludos_row true true [Examples.a1_row false]] 0
       = Some row
       /\ nth_error (TimeFormState.row_activities row) 0 = Some a
       /\ TimeFormState.selectedActivitiesCount
            [Examples.saludos_row true true [Examples.a1_row true]]
          + (if TimeFormState.act_selected a then 1 else 0)
          = TimeFormState.selectedActivitiesCount
              [Examples.saludos_row true true [Examples.a1_row false]]
            + (if TimeFormState.act_selected a then 0 else 1).
Proof.
  apply (@toggle_activity_flips_one_flag 0 0
           [Examples.saludos_row true true [Examples.a1_row false]]
           [Examples.saludos_row true true [Examples.a1_row true]]).
  reflexivity.
Defined.

(** No handler selects an activity in a sequence that is not selected: when
    no such activity is in the list, none is after Select All, Deselect All,
    a toggle of a sequence, a load, or the toggle of an activity of a
    selected sequence.  (Select All, Deselect All and the toggle of a
    sequence do not even need the assumption for the rows they write.) *)
Theorem selection_stays_consistent
    (W : World) (coerced_gt_zero : jsval -> outcome bool)
    (rows : list TimeFormState.SequenceRow) :
  TimeFormState.consistent rows = true ->
  TimeFormState.consistent (TimeFormState.select_all rows) = true
  /\ TimeFormState.consistent (TimeFormState.deselect_all rows) = true
  /\ (forall index h st,
        TimeFormState.sequences st = rows ->
        TimeFormState.consistent
          (TimeFormState.sequences
             (state_of (TimeFormState.handleToggleSequence W index h st))) = true)
  /\ (forall h st,
        TimeFormState.sequences st = rows ->
        TimeFormState.consistent
          (TimeFormState.sequences
             (state_of (TimeFormState.handleLoadSequences W coerced_gt_zero h st)))
        = true)
  /\ (forall seqIndex actIndex row rows',
        nth_error rows seqIndex = Some row ->
        TimeFormState.row_selected row = true ->
        TimeFormState.toggle_activity seqIndex actIndex rows = Ret rows' ->
        TimeFormState.consistent rows' = true).
Proof.
  intro Hc.
  split; [apply StateFacts.select_all_consistent|].
  split; [apply StateFacts.deselect_all_consistent|].
  split; [|split].
  - intros index h st Hst. subst rows.
    destruct (nth_error (TimeFormState.sequences st) index) as [row0|] eqn:Hrow.
    + now apply (HandlerRuns.toggled_row_consistent W index h st Hrow).
    + now rewrite (HandlerRuns.toggle_sequence_outside W index h st Hrow).
  - intros h st Hst. subst rows.
    destruct (LoadFacts.load_rows_cases W coerced_gt_zero h st) as [H|H].
    + now apply LoadFacts.fresh_rows_consistent.
    + unfold state_of. now rewrite H.
  - intros seqIndex actIndex row rows' Hrow Hsel Ht.
    exact (HandlerFacts.toggle_activity_consistent _ _ _ Ht Hrow Hsel Hc).
Qed.

(** The same at a list with one selected sequence and one selected
    activity. *)
Lemma selection_stays_consistent_witness :
  TimeFormState.consistent
    (TimeFormState.select_all
       [Examples.saludos_row true true [Examples.a1_row true]]) = true
  /\ TimeFormState.consistent
       (TimeFormState.deselect_all
          [Examples.saludos_row true true [Examples.a1_row true]]) = true
  /\ (forall index h st,
        TimeFormState.sequences st
        = [Examples.saludos_row true true [Examples.a1_row true]] ->
        TimeFormState.consistent
          (TimeFormState.sequences
             (state_of (TimeFormState.handleToggleSequence
                          (Examples.rejecting_world Examples.two_steps)
                          index h st))) = true)
  /\ (forall h st,
        TimeFormState.sequences st
        = [Examples.saludos_row true true [Examples.a1_row true]] ->
        TimeFormState.consistent
          (TimeFormState.sequences
             (state_of (TimeFormState.handleLoadSequences
                          (Examples.rejecting_world Examples.two_steps)
                          Examples.no_coercion h st)))
        = true)
  /\ (forall seqIndex actIndex row rows',
        nth_error [Examples.saludos_row true true [Examples.a1_row true]] seqIndex
        = Some row ->
        TimeFormState.row_selected row = true ->
        TimeFormState.toggle_activity seqIndex actIndex
          [Examples.saludos_row true true [Examples.a1_row true]] = Ret rows' ->
        TimeFormState.consistent rows' = true).
Proof.
  apply (@selection_stays_consistent
           (Examples.rejecting_world Examples.two_steps) Examples.no_coercion
           [Examples.saludos_row true true [Examples.a1_row true]]).
  reflexivity.
Defined.

(** ** The report of [handleProcessSelected] *)

Module ReportFacts.
Import TimeForm TimeFormFacts.
Local Open Scope form_scope.

Lemma ui_kept_refl st : ui_kept st st.
Proof. repeat split. Qed.

Lemma ui_kept_trans st st1 st2 : ui_kept st st1 -> ui_kept st1 st2 -> ui_kept st st2.
Proof. unfold ui_kept. intros (A & B & C) (D & E & G). repeat split; congruence. Qed.

Section Discreet.
Variable P : event -> bool.

Lemma discreet_ret {A} (a : A) : discreet P (ret a).
Proof. intros h st. split; [apply ui_kept_refl|reflexivity]. Qed.

Lemma discreet_of_outcome {A} (o : outcome A) : discreet P (of_outcome o).
Proof. intros h st. split; [apply ui_kept_refl|reflexivity]. Qed.

Lemma discreet_get : discreet P get.
Proof. intros h st. split; [apply ui_kept_refl|reflexivity]. Qed.

Lemma discreet_counters f :
  (forall st, ui_kept st (f st)) -> discreet P (modify f).
Proof. intros Hf h st. split; [apply Hf|reflexivity]. Qed.

Lemma discreet_lift {A} (m : IO A) : IOMonad.emits P m -> discreet P (lift m).
Proof.
  intros Hm h st. unfold lift. specialize (Hm h).
  destruct (m h) as [r e]. split; [apply ui_kept_refl|exact Hm].
Qed.

Lemma discreet_bind {A B} (m : F A) (k : A -> F B) :
  discreet P m -> (forall a, discreet P (k a)) -> discreet P (bind m k).
Proof.
  intros Hm Hk h st. unfold bind. destruct (Hm h st) as [Hu He].
  destruct (m h st) as [[[a|e] e1] st1]; cbn [fst snd] in *; [|now split].
  destruct (Hk a (h ++ e1) st1) as [Hu2 He2].
  destruct (k a (h ++ e1) st1) as [[r e2] st2]; cbn [fst snd] in *.
  split; [exact (ui_kept_trans Hu Hu2)|now rewrite forallb_app, He, He2].
Qed.

Lemma discreet_try_catch {A} (m : F A) handler :
  discreet P m -> (forall e, discreet P (handler e)) ->
  discreet P (try_catch m handler).
Proof.
  intros Hm Hk h st. unfold try_catch. destruct (Hm h st) as [Hu He].
  destruct (m h st) as [[[a|e] e1] st1]; cbn [fst snd] in *; [now split|].
  destruct (Hk e (h ++ e1) st1) as [Hu2 He2].
  destruct (handler e (h ++ e1) st1) as [[r e2] st2]; cbn [fst snd] in *.
  split; [exact (ui_kept_trans Hu Hu2)|now rewrite forallb_app, He, He2].
Qed.

Lemma discreet_for_each {A} (xs : list A) (f : A -> F unit) :
  (forall x, discreet P (f x)) -> discreet P (for_each xs f).
Proof.
  intro Hf. induction xs as [|x r IH]; [apply discreet_ret|].
  cbn [for_each]. apply discreet_bind; [apply Hf|intro; exact IH].
Qed.
End Discreet.

Lemma discreet_add_steps P n : discreet P (add_steps n).
Proof. apply discreet_counters. intro st. repeat split. Qed.

Lemma discreet_add_success P n : discreet P (add_success n).
Proof. apply discreet_counters. intro st. repeat split. Qed.

Lemma discreet_add_error P n : discreet P (add_error n).
Proof. apply discreet_counters. intro st. repeat split. Qed.

Lemma discreet_reset_steps P : discreet P reset_steps.
Proof. apply discreet_counters. intro st. repeat split. Qed.

#[local] Opaque AddProgress.addProgressForActivity AddProgress.getSequence.

Section WithWorld.
Variable W : World.

Lemma submit_step_discreet sq sequence activity step :
  discreet not_a_report (submit_step W sq sequence activity step).
Proof.
  unfold submit_step. apply discreet_try_catch; [|intro; apply discreet_ret].
  apply discreet_bind; [apply discreet_of_outcome|intro sid].
  apply discreet_bind; [apply discreet_of_outcome|intro aid].
  apply discreet_bind; [apply discreet_of_outcome|intro stepId].
  apply discreet_bind; [|intro; apply discreet_add_steps].
  apply discreet_lift. apply QuietFacts.addProgress_reports_nothing.
Qed.

Lemma submit_whole_discreet sq sequence activity :
  discreet not_a_report (submit_whole W sq sequence activity).
Proof.
  unfold submit_whole.
  apply discreet_try_catch; [|intro; apply discreet_add_error].
  apply discreet_bind; [apply discreet_of_outcome|intro sid].
  apply discreet_bind; [apply discreet_of_outcome|intro aid].
  apply discreet_bind.
  { apply discreet_lift. apply QuietFacts.addProgress_reports_nothing. }
  intro. apply discreet_bind; [apply discreet_add_steps|].
  intro. apply discreet_add_success.
Qed.

Lemma process_selected_discreet sq sequence fresh a :
  discreet not_a_report (process_selected W sq sequence fresh a).
Proof.
  unfold process_selected.
  apply discreet_bind; [apply discreet_of_outcome|intro activity].
  destruct (negb (truthy activity)); [apply discreet_ret|].
  unfold process_activity.
  apply discreet_bind; [apply discreet_of_outcome|intro steps].
  destruct (truthy steps && Array_isArray steps);
    [|apply submit_whole_discreet].
  apply discreet_bind; [apply discreet_of_outcome|intro items].
  apply discreet_bind; [|intro; apply discreet_add_success].
  apply discreet_for_each. intro. apply submit_step_discreet.
Qed.

(** What the body of the per-sequence [try] does to the report: one line
    when it returns, none when it throws. *)
Lemma fetch_and_process_report sq chosen h st :
  chosen = selected_of sq ->
  let x := fetch_and_process W sq chosen h st in
  error (state_of x) = error st
  /\ processing (state_of x) = processing st
  /\ forallb not_a_report (events_of x) = true
  /\ match outcome_of x with
     | Ret _ => exists line,
                  result (state_of x) = appended (result st) line
                  /\ line_about sq line
     | Throw _ => result (state_of x) = result st
     end.
Proof.
  intros Hchosen x. subst x. unfold fetch_and_process.
  rewrite form_bind_unfold. unfold lift.
  pose proof (QuietFacts.getSequence_quiet W (JStr (courseId sq))
                (JStr (AddProgress.titleToSlug W (sequenceTitle sq)))
                (str "fr-FR") h) as Hq.
  destruct (AddProgress.getSequence W (JStr (courseId sq))
              (JStr (AddProgress.titleToSlug W (sequenceTitle sq)))
              (str "fr-FR") h) as [[seqData|e] evs]; cbn [snd] in Hq.
  2:{ cbn [outcome_of events_of state_of fst snd]. repeat split; auto. }
  cbv zeta.
  destruct (negb (truthy (opt_prop (opt_prop seqData "data") "sequence"))).
  { unfold appendResult. rewrite bind_modify.
    cbn [add_error modify outcome_of events_of state_of fst snd].
    rewrite app_nil_r. repeat split; auto.
    eexists. split; [reflexivity|]. cbn. auto. }
  destruct (get_prop (opt_prop (opt_prop seqData "data") "sequence") "activities")
    as [raw|e].
  2:{ rewrite bind_outcome_throw.
      cbn [outcome_of events_of state_of fst snd]. rewrite app_nil_r.
      repeat split; auto. }
  rewrite bind_outcome_ret.
  destruct (normalize_activities W raw) as [fresh|e].
  2:{ rewrite bind_outcome_throw.
      cbn [outcome_of events_of state_of fst snd]. rewrite app_nil_r.
      repeat split; auto. }
  rewrite bind_outcome_ret. unfold reset_steps. rewrite bind_modify.
  rewrite form_bind_unfold.
  set (st0 := set_counters (successCount st) (errorCount st) 0 st).
  destruct (@discreet_for_each not_a_report _ chosen
              (process_selected W sq (opt_prop (opt_prop seqData "data") "sequence") fresh)
              (process_selected_discreet sq _ fresh) (h ++ evs) st0)
    as [(Hu1 & Hu2 & Hu3) He].
  destruct (for_each chosen _ (h ++ evs) st0) as [[[u|e] e1] st1];
    cbn [fst snd] in *.
  - cbn [get bind appendResult modify outcome_of events_of state_of fst snd
         with_result error result processing].
    rewrite !app_nil_r, forallb_app, Hq, He, Hu1, Hu2, Hu3.
    repeat split.
    eexists. split; [reflexivity|]. cbn. subst chosen. auto.
  - cbn [outcome_of events_of state_of fst snd].
    rewrite forallb_app, Hq, He, Hu1, Hu2, Hu3. repeat split; auto.
Qed.

Lemma process_sequence_report sq h st :
  let x := process_sequence W sq h st in
  outcome_of x = Ret tt
  /\ error (state_of x) = error st
  /\ processing (state_of x) = processing st
  /\ forallb not_a_report (events_of x) = true
  /\ (if processed sq
      then exists line,
             result (state_of x) = appended (result st) line
             /\ line_about sq line
      else result (state_of x) = result st /\ events_of x = []).
Proof.
  intro x. subst x. unfold process_sequence, processed.
  destruct (sequence_selected sq); cbn [negb andb];
    [|cbn; repeat split; reflexivity].
  destruct (selected_of sq) as [|a0 chosen] eqn:Hc;
    [cbn; repeat split; reflexivity|].
  unfold try_catch.
  pose proof (@fetch_and_process_report sq (a0 :: chosen) h st (eq_sym Hc))
    as (H1 & H2 & H3 & H4). cbv zeta in *.
  destruct (fetch_and_process W sq (a0 :: chosen) h st) as [[[u|e] e1] st1];
    cbn [outcome_of events_of state_of fst snd] in *.
  - destruct u. repeat split; auto.
  - unfold appendResult. rewrite bind_modify.
    cbn [add_error modify outcome_of events_of state_of fst snd
         with_result set_counters error result processing].
    rewrite app_nil_r. repeat split; auto.
    eexists. rewrite H4. split; [reflexivity|]. cbn. auto.
Qed.

Lemma sequence_loop_report sequences :
  forall h st ls,
  result st = Some ls ->
  let x := for_each sequences (process_sequence W) h st in
  outcome_of x = Ret tt
  /\ error (state_of x) = error st
  /\ processing (state_of x) = processing st
  /\ forallb not_a_report (events_of x) = true
  /\ exists lines,
       result (state_of x) = Some (ls ++ lines)
       /\ Forall2 line_about (filter processed sequences) lines.
Proof.
  induction sequences as [|sq rest IH]; intros h st ls Hres x; subst x.
  - cbn. repeat split; auto. exists []. rewrite app_nil_r. auto.
  - rewrite form_for_each_cons, form_bind_unfold.
    pose proof (process_sequence_report sq h st) as (H1 & H2 & H3 & H4 & H5).
    cbv zeta in *.
    destruct (process_sequence W sq h st) as [[r e1] st1].
    cbn [outcome_of events_of state_of fst snd] in *. subst r.
    cbn [filter].
    destruct (processed sq).
    + destruct H5 as (line & Hline & Habout).
      rewrite Hres in Hline. cbn [appended] in Hline.
      specialize (IH (h ++ e1) st1 (ls ++ [line]) Hline). cbv zeta in IH.
      destruct IH as (K1 & K2 & K3 & K4 & lines & K5 & K6).
      destruct (for_each rest (process_sequence W) (h ++ e1) st1)
        as [[r2 e2] st2].
      cbn [outcome_of events_of state_of fst snd] in *.
      rewrite forallb_app, H4, K4. repeat split; try congruence.
      exists (line :: lines). rewrite K5, <- app_assoc.
      split; [reflexivity|now constructor].
    + destruct H5 as [Hsame _]. rewrite Hres in Hsame.
      specialize (IH (h ++ e1) st1 ls Hsame). cbv zeta in IH.
      destruct IH as (K1 & K2 & K3 & K4 & lines & K5 & K6).
      destruct (for_each rest (process_sequence W) (h ++ e1) st1)
        as [[r2 e2] st2].
      cbn [outcome_of events_of state_of fst snd] in *.
      rewrite forallb_app, H4, K4. repeat split; try congruence.
      exists lines. auto.
Qed.

End WithWorld.
End ReportFacts.

Module CountFacts.
Import TimeForm TimeFormFacts.
Local Open Scope form_scope.

Lemma find_listed fresh id :
  forallb (fun x => negb (nullish x)) fresh = true ->
  if existsb (fun x => strict_eq_string (opt_prop x "activityId") id) fresh
  then exists ps, find_activity fresh id = Ret (JObj ps)
  else find_activity fresh id = Ret JUndef.
Proof.
  induction fresh as [|x r IH]; [reflexivity|].
  cbn [forallb existsb find_activity]. intro H.
  apply andb_true_iff in H as [Hx Hr]. apply negb_true_iff in Hx.
  specialize (IH Hr). unfold opt_prop.
  destruct x as [| |b|q|t|items|ps]; try discriminate Hx;
    cbn [get_prop strict_eq_string orb]; try exact IH.
  match goal with |- context [strict_eq_string ?v id || _] =>
      destruct (strict_eq_string v id) end; cbn [orb];
      [now exists ps|exact IH].
Qed.

#[local] Opaque AddProgress.addProgressForActivity.

Section WithWorld.
Variable W : World.

Lemma object_is_counted_once sq sequence ps h st :
  let x := process_activity W sq sequence (JObj ps) h st in
  outcome_of x = Ret tt
  /\ successCount (state_of x) + errorCount (state_of x)
     = successCount st + errorCount st + 1
  /\ successCount st <= successCount (state_of x)
  /\ errorCount st <= errorCount (state_of x).
Proof.
  intro x. subst x.
  destruct (truthy (lookup (js "steps") ps)
            && Array_isArray (lookup (js "steps") ps)) eqn:Hs.
  - apply andb_true_iff in Hs as [_ Harr].
    destruct (lookup (js "steps") ps) as [| | | | |items|] eqn:Hsteps;
      try discriminate Harr.
    destruct (@process_activity_steps W sq sequence (JObj ps) items h st)
      as (Hr & (H1 & H2 & _) & _); [cbn [get_prop]; now rewrite Hsteps|].
    repeat split; [exact Hr|lia|lia|lia].
  - destruct (@activity_without_step_list_is_submitted_once W sq sequence
                (JObj ps) (lookup (js "steps") ps) h st eq_refl Hs)
      as (Hr & _ & Hle & (H1 & H2 & _)).
    repeat split; [exact Hr|lia|lia|lia].
Qed.

Lemma selected_is_counted_once sq sequence fresh a h st :
  forallb (fun x => negb (nullish x)) fresh = true ->
  let x := process_selected W sq sequence fresh a h st in
  outcome_of x = Ret tt
  /\ successCount (state_of x) + errorCount (state_of x)
     = successCount st + errorCount st + (if listed_in fresh a then 1 else 0)
  /\ successCount st <= successCount (state_of x)
  /\ errorCount st <= errorCount (state_of x).
Proof.
  intros Hfresh x. subst x. unfold process_selected, listed_in.
  pose proof (find_listed fresh (activityId a) Hfresh) as Hfind.
  destruct (existsb _ fresh).
  - destruct Hfind as (ps & ->). rewrite bind_outcome_ret.
    cbn [truthy negb]. apply object_is_counted_once.
  - rewrite Hfind, bind_outcome_ret. cbn. repeat split; lia.
Qed.

Lemma selected_loop_counts sq sequence fresh chosen :
  forallb (fun x => negb (nullish x)) fresh = true ->
  forall h st,
  let x := for_each chosen (process_selected W sq sequence fresh) h st in
  outcome_of x = Ret tt
  /\ successCount (state_of x) + errorCount (state_of x)
     = successCount st + errorCount st
       + List.length (filter (listed_in fresh) chosen)
  /\ successCount st <= successCount (state_of x)
  /\ errorCount st <= errorCount (state_of x).
Proof.
  intro Hfresh. induction chosen as [|a r IH]; intros h st x; subst x.
  - cbn. repeat split; lia.
  - rewrite form_for_each_cons, form_bind_unfold.
    pose proof (selected_is_counted_once sq sequence fresh a h st Hfresh)
      as (H1 & H2 & H3 & H4). cbv zeta in *.
    destruct (process_selected W sq sequence fresh a h st) as [[o e1] st1].
    cbn [outcome_of events_of state_of fst snd] in *. subst o.
    specialize (IH (h ++ e1) st1). cbv zeta in IH.
    destruct IH as (K1 & K2 & K3 & K4).
    destruct (for_each r (process_selected W sq sequence fresh) (h ++ e1) st1)
      as [[o2 e2] st2].
    cbn [outcome_of events_of state_of fst snd] in *.
    cbn [filter]. destruct (listed_in fresh a); cbn [List.length];
      repeat split; try assumption; lia.
Qed.

Lemma handler_unfold sequences h st :
  totalActivities sequences <> 0 ->
  handleProcessSelected W sequences h st
  = let st0 := {| error := error st;
                  result := Some [Processing (totalActivities sequences)];
                  processing := true; successCount := 0; errorCount := 0;
                  stepsProcessed := stepsProcessed st |} in
    match for_each sequences (process_sequence W) h st0 with
    | (Ret _, evs, st1) =>
        (Ret tt, evs,
         {| error := error st1;
            result := appended (result st1)
                        (Complete (successCount st1) (errorCount st1));
            processing := false; successCount := successCount st1;
            errorCount := errorCount st1;
            stepsProcessed := stepsProcessed st1 |})
    | (Throw err, evs, st1) =>
        (Ret tt, evs ++ [EvOnError err],
         {| error := Some (MessageOf err); result := result st1;
            processing := false; successCount := successCount st1;
            errorCount := errorCount st1;
            stepsProcessed := stepsProcessed st1 |})
    end.
Proof.
  intro Hne. unfold handleProcessSelected.
  apply Nat.eqb_neq in Hne. rewrite Hne.
  unfold setProcessing, setResult, reset_counts.
  rewrite !bind_modify. unfold try_finally, try_catch.
  rewrite form_bind_unfold. cbv zeta.
  cbn [with_result set_counters error result processing successCount
       errorCount stepsProcessed].
  destruct (for_each sequences (process_sequence W) h _) as [[[u|err] evs] st1].
  - cbn [bind get appendResult modify with_result setProcessing app
         error result processing successCount errorCount stepsProcessed].
    now rewrite !app_nil_r.
  - cbn [bind setError onError modify app
         error result processing successCount errorCount stepsProcessed].
    now rewrite !app_nil_r.
Qed.
End WithWorld.
End CountFacts.

(** Once the validation has passed, [handleProcessSelected] returns with
    [processing] back to false, never calls [onError] and leaves the error
    text as it was; the report starts with the announced total, has one line
    for each selected sequence in which an activity is selected, in their
    order and naming them, and ends with the two counters. *)
Theorem processing_always_settles
    (W : World) (sequences : list TimeForm.SequenceItem)
    (h : list event) (st : TimeForm.form) :
  TimeForm.totalActivities sequences <> 0 ->
  let x := TimeForm.handleProcessSelected W sequences h st in
  outcome_of x = Ret tt
  /\ TimeForm.processing (state_of x) = false
  /\ TimeForm.error (state_of x) = TimeForm.error st
  /\ reported (events_of x) = []
  /\ exists lines,
       TimeForm.result (state_of x)
       = Some (TimeForm.Processing (TimeForm.totalActivities sequences)
                 :: lines
                 ++ [TimeForm.Complete (TimeForm.successCount (state_of x))
                                       (TimeForm.errorCount (state_of x))])
       /\ Forall2 TimeForm.line_about
            (filter TimeForm.processed sequences) lines.
Proof.
  intros Hne x. subst x. rewrite (CountFacts.handler_unfold W _ h st Hne).
  cbv zeta.
  set (st0 := {| TimeForm.error := TimeForm.error st;
                 TimeForm.result := Some [TimeForm.Processing
                                            (TimeForm.totalActivities sequences)];
                 TimeForm.processing := true; TimeForm.successCount := 0;
                 TimeForm.errorCount := 0;
                 TimeForm.stepsProcessed := TimeForm.stepsProcessed st |}).
  destruct (@ReportFacts.sequence_loop_report W sequences h st0 _ eq_refl)
    as (H1 & H2 & H3 & H4 & lines & H5 & H6).
  destruct (TimeForm.for_each sequences (TimeForm.process_sequence W) h st0)
    as [[o evs] st1].
  cbn [outcome_of events_of state_of fst snd] in *. subst o.
  cbn [outcome_of events_of state_of fst snd TimeForm.processing TimeForm.error
       TimeForm.result TimeForm.successCount TimeForm.errorCount].
  split; [reflexivity|]. split; [reflexivity|]. split; [exact H2|].
  split; [now apply QuietFacts.quiet_reported|].
  exists lines. rewrite H5. cbn [TimeForm.appended app].
  split; [reflexivity|exact H6].
Qed.

(** The same at the run on one selected activity with two rejected steps. *)
Lemma processing_always_settles_witness :
  outcome_of Examples.two_rejected_steps_report = Ret tt
  /\ TimeForm.processing (state_of Examples.two_rejected_steps_report) = false
  /\ TimeForm.error (state_of Examples.two_rejected_steps_report)
     = TimeForm.error Examples.idle
  /\ reported (events_of Examples.two_rejected_steps_report) = []
  /\ exists lines,
       TimeForm.result (state_of Examples.two_rejected_steps_report)
       = Some (TimeForm.Processing
                 (TimeForm.totalActivities [Examples.saludos true])
                 :: lines
                 ++ [TimeForm.Complete
                       (TimeForm.successCount
                          (state_of Examples.two_rejected_steps_report))
                       (TimeForm.errorCount
                          (state_of Examples.two_rejected_steps_report))])
       /\ Forall2 TimeForm.line_about
            (filter TimeForm.processed [Examples.saludos true]) lines.
Proof.
  apply (@processing_always_settles (Examples.rejecting_world Examples.two_steps)
           [Examples.saludos true] [] Examples.idle).
  discriminate.
Defined.

(** When the fresh list of a sequence has no [null] entry, the loop over
    the selected activities returns, and each selected activity the list
    names is counted exactly once, as succeeded or as failed; a selected
    activity the list does not name is counted as neither. *)
Theorem listed_activities_are_counted_once
    (W : World) (sq : TimeForm.SequenceItem) (sequence : jsval)
    (fresh : list jsval) (chosen : list TimeForm.Activity)
    (h : list event) (st : TimeForm.form) :
  forallb (fun x => negb (nullish x)) fresh = true ->
  let x := TimeForm.for_each chosen
             (TimeForm.process_selected W sq sequence fresh) h st in
  outcome_of x = Ret tt
  /\ TimeForm.successCount (state_of x) + TimeForm.errorCount (state_of x)
     = TimeForm.successCount st + TimeForm.errorCount st
       + List.length (filter (TimeForm.listed_in fresh) chosen)
  /\ TimeForm.successCount st <= TimeForm.successCount (state_of x)
  /\ TimeForm.errorCount st <= TimeForm.errorCount (state_of x).
Proof.
  intros Hfresh x. now apply CountFacts.selected_loop_counts.
Qed.

(** The same at two selected activities of which the fresh list names one. *)
Lemma listed_activities_are_counted_once_witness :
  outcome_of Examples.one_listed_run = Ret tt
  /\ TimeForm.successCount (state_of Examples.one_listed_run)
     + TimeForm.errorCount (state_of Examples.one_listed_run)
     = TimeForm.successCount Examples.idle + TimeForm.errorCount Examples.idle
       + List.length (filter (TimeForm.listed_in [Examples.a1_two_steps])
                             [Examples.a1_selected; Examples.a2_selected])
  /\ TimeForm.successCount Examples.idle
     <= TimeForm.successCount (state_of Examples.one_listed_run)
  /\ TimeForm.errorCount Examples.idle
     <= TimeForm.errorCount (state_of Examples.one_listed_run).
Proof.
  apply (@listed_activities_are_counted_once
           (Examples.rejecting_world Examples.two_steps) Examples.saludos_two
           (Examples.sequence_record Examples.two_steps) [Examples.a1_two_steps]
           [Examples.a1_selected; Examples.a2_selected] [] Examples.idle).
  reflexivity.
Defined.

Example unlisted_activity_is_not_counted :
  TimeForm.successCount (state_of Examples.one_listed_run) = 1
  /\ TimeForm.errorCount (state_of Examples.one_listed_run) = 0.
Proof. vm_compute. auto. Qed.

(** With a [null] entry in the fresh list the look-up of the second
    activity throws after the first was counted: the sequence is then
    counted as failed for both, and the report shows three failures for two
    selected activities. *)
Example null_entry_counts_an_activity_twice :
  TimeForm.result (state_of Examples.null_entry_run)
  = Some [TimeForm.Processing 2;
          TimeForm.SequenceFailed (js "Intro") (js "Saludos") TypeError;
          TimeForm.Complete 0 3].
Proof. vm_compute. reflexivity. Qed.

(** A selected sequence whose title has no letter or digit, once lower-cased
    and decomposed, is never fetched: its slug is empty, the argument check
    of [getSequence] throws, and the turn of the loop ends with the sequence
    reported as failed and its selected activities counted as errors, without
    any request. *)
Theorem title_without_letters_is_never_fetched
    (W : World) (sq : TimeForm.SequenceItem) (h : list event) (st : TimeForm.form) :
  filter Slug.is_alnum
    (String_normalize_NFD W (String_toLowerCase W (TimeForm.sequenceTitle sq)))
  = [] ->
  TimeForm.sequence_selected sq = true ->
  TimeForm.selected_of sq <> [] ->
  let x := TimeForm.process_sequence W sq h st in
  outcome_of x = Ret tt
  /\ events_of x = []
  /\ TimeForm.errorCount (state_of x)
     = TimeForm.errorCount st + List.length (TimeForm.selected_of sq)
  /\ TimeForm.successCount (state_of x) = TimeForm.successCount st
  /\ TimeForm.result (state_of x)
     = TimeForm.appended (TimeForm.result st)
         (TimeForm.SequenceFailed (TimeForm.courseName sq)
            (TimeForm.sequenceTitle sq)
            (JsError "courseId, sequenceSlug, and locale are required")).
Proof.
  intros Hempty Hsel Hne x. subst x.
  apply SlugContent.titleToSlug_empty in Hempty.
  assert (Hfetch : TimeForm.sequence_fetch W sq h
                   = (Throw (JsError "courseId, sequenceSlug, and locale are required"),
                      [])).
  { unfold TimeForm.sequence_fetch, AddProgress.titleToSlug. rewrite Hempty.
    pose proof (QueryFacts.getSequence_cases W (JStr (TimeForm.courseId sq))
                  (JStr []) (str "fr-FR") h) as H.
    cbn [truthy] in H. rewrite andb_false_r in H. exact H. }
  rewrite (@TimeFormFacts.process_sequence_fetch_failed W sq
             (TimeForm.SequenceFailed (TimeForm.courseName sq)
                (TimeForm.sequenceTitle sq)
                (JsError "courseId, sequenceSlug, and locale are required"))
             h st Hsel Hne).
  - rewrite Hfetch. cbn. auto.
  - now rewrite Hfetch.
Qed.

(** The same at a selected sequence titled with punctuation only. *)
Lemma title_without_letters_is_never_fetched_witness :
  outcome_of Examples.punctuation_only_run = Ret tt
  /\ events_of Examples.punctuation_only_run = []
  /\ TimeForm.errorCount (state_of Examples.punctuation_only_run)
     = TimeForm.errorCount Examples.idle
       + List.length (TimeForm.selected_of Examples.punctuation_only)
  /\ TimeForm.successCount (state_of Examples.punctuation_only_run)
     = TimeForm.successCount Examples.idle
  /\ TimeForm.result (state_of Examples.punctuation_only_run)
     = TimeForm.appended (TimeForm.result Examples.idle)
         (TimeForm.SequenceFailed
            (TimeForm.courseName Examples.punctuation_only)
            (TimeForm.sequenceTitle Examples.punctuation_only)
            (JsError "courseId, sequenceSlug, and locale are required")).
Proof.
  apply (@title_without_letters_is_never_fetched
           (Examples.rejecting_world Examples.two_steps)
           Examples.punctuation_only [] Examples.idle).
  - reflexivity.
  - reflexivity.
  - discriminate.
Defined.

(** ** What [handleProcessSelected] submits *)

Module SelectionFacts.
Import TimeForm TimeFormFacts.
Local Open Scope form_scope.

Lemma find_matches fresh id act :
  find_activity fresh id = Ret act -> truthy act = true ->
  get_prop act "activityId" = Ret (JStr id).
Proof.
  induction fresh as [|x r IH]; cbn [find_activity].
  - intros H Ht. injection H as <-. discriminate Ht.
  - destruct (get_prop x "activityId") as [v|e] eqn:Hv; [|discriminate].
    destruct (strict_eq_string v id) eqn:Heq; [|exact IH].
    intros H _. injection H as <-. rewrite Hv. f_equal.
    destruct v; try discriminate Heq. cbn [strict_eq_string] in Heq.
    apply jsstring_eqb_eq in Heq. now subst.
Qed.

Lemma backstage_fetch_submissions evs :
  evs = [] \/ (exists init answer,
                 evs = [EvFetch AddProgress.GRAPHQL_ENDPOINT init answer]) ->
  submissions evs = [].
Proof. intros [->|(i & a & ->)]; reflexivity. Qed.

#[local] Opaque AddProgress.addProgressForActivity AddProgress.getSequence.

Section WithWorld.
Variable W : World.

(** The submissions made for one selected activity name it, and the
    course of its sequence, with score 1. *)
Lemma process_selected_submits sq sequence fresh a h st :
  Forall (fun s => sub_course s = JStr (courseId sq)
                   /\ sub_activity s = JStr (activityId a)
                   /\ sub_score s = num 1)
         (submissions (events_of (process_selected W sq sequence fresh a h st))).
Proof.
  unfold process_selected.
  destruct (find_activity fresh (activityId a)) as [act|e] eqn:Hfind;
    [rewrite bind_outcome_ret|rewrite bind_outcome_throw; constructor].
  destruct (truthy act) eqn:Ht; cbn [negb]; [|constructor].
  pose proof (find_matches _ _ Hfind Ht) as Hid.
  destruct (get_prop act "steps") as [steps|e] eqn:Hsteps.
  2:{ unfold process_activity. rewrite Hsteps, bind_outcome_throw. constructor. }
  destruct (truthy steps && Array_isArray steps) eqn:Hs.
  - apply andb_true_iff in Hs as [_ Harr].
    destruct steps as [| | | | |items|]; try discriminate Harr.
    destruct (@process_activity_steps W sq sequence act items h st Hsteps)
      as (_ & _ & Hsub).
    rewrite Hsub. apply Forall_flat_map, Forall_forall. intros step _.
    unfold expected_step. rewrite Hid.
    destruct (get_prop sequence "sequenceId"); [|constructor].
    destruct (get_prop step "activityStepId"); constructor; [|constructor].
    cbn. auto.
  - destruct (@activity_without_step_list_is_submitted_once W sq sequence
                act steps h st Hsteps Hs) as (_ & Hsub & _).
    rewrite Hsub. unfold expected_whole. rewrite Hid.
    destruct (get_prop sequence "sequenceId"); constructor; [|constructor].
    cbn. auto.
Qed.

Lemma selected_loop_submits sq sequence fresh chosen :
  forall h st,
  Forall (fun s => exists a, In a chosen
                             /\ sub_course s = JStr (courseId sq)
                             /\ sub_activity s = JStr (activityId a)
                             /\ sub_score s = num 1)
         (submissions
            (events_of (for_each chosen (process_selected W sq sequence fresh)
                          h st))).
Proof.
  induction chosen as [|a r IH]; intros h st; [constructor|].
  rewrite form_for_each_cons, form_bind_unfold.
  pose proof (process_selected_submits sq sequence fresh a h st) as Ha.
  destruct (process_selected W sq sequence fresh a h st) as [[[u|e] e1] st1];
    cbn [events_of fst snd] in Ha.
  - specialize (IH (h ++ e1) st1).
    destruct (for_each r (process_selected W sq sequence fresh) (h ++ e1) st1)
      as [[o e2] st2].
    cbn [events_of fst snd] in *. rewrite TraceFacts.submissions_app.
    apply Forall_app. split.
    + eapply Forall_impl; [|exact Ha]. intros s Hs. exists a.
      split; [now left|exact Hs].
    + eapply Forall_impl; [|exact IH]. intros s (b & Hb & Hs). exists b.
      split; [now right|exact Hs].
  - cbn [events_of fst snd].
    eapply Forall_impl; [|exact Ha]. intros s Hs. exists a.
    split; [now left|exact Hs].
Qed.

Lemma process_sequence_submits sq h st :
  Forall (fun s => sequence_selected sq = true
                   /\ exists a, In a (activities sq) /\ selected a = true
                                /\ sub_course s = JStr (courseId sq)
                                /\ sub_activity s = JStr (activityId a)
                                /\ sub_score s = num 1)
         (submissions (events_of (process_sequence W sq h st))).
Proof.
  unfold process_sequence.
  destruct (sequence_selected sq) eqn:Hsel; cbn [negb]; [|constructor].
  destruct (selected_of sq) as [|a0 chosen] eqn:Hc; [constructor|].
  assert (Hin : forall a, In a (a0 :: chosen) ->
                  In a (activities sq) /\ selected a = true).
  { intros a Ha. rewrite <- Hc in Ha. unfold selected_of in Ha.
    now apply filter_In in Ha. }
  assert (Hbody : Forall (fun s => exists a, In a (a0 :: chosen)
                             /\ sub_course s = JStr (courseId sq)
                             /\ sub_activity s = JStr (activityId a)
                             /\ sub_score s = num 1)
            (submissions (events_of (fetch_and_process W sq (a0 :: chosen) h st)))).
  { unfold fetch_and_process. rewrite form_bind_unfold. unfold lift.
    pose proof (QueryFacts.getSequence_events W (JStr (courseId sq))
                  (JStr (AddProgress.titleToSlug W (sequenceTitle sq)))
                  (str "fr-FR") h) as Hev.
    destruct (AddProgress.getSequence W (JStr (courseId sq))
                (JStr (AddProgress.titleToSlug W (sequenceTitle sq)))
                (str "fr-FR") h) as [[seqData|e] evs]; cbn [snd] in Hev.
    2:{ cbn [events_of fst snd]. rewrite (backstage_fetch_submissions Hev).
        constructor. }
    cbv zeta.
    destruct (negb (truthy (opt_prop (opt_prop seqData "data") "sequence"))).
    { unfold appendResult. rewrite bind_modify.
      cbn [add_error modify events_of fst snd]. rewrite app_nil_r.
      rewrite (backstage_fetch_submissions Hev). constructor. }
    destruct (get_prop (opt_prop (opt_prop seqData "data") "sequence") "activities")
      as [raw|e].
    2:{ rewrite bind_outcome_throw. cbn [events_of fst snd].
        rewrite app_nil_r, (backstage_fetch_submissions Hev). constructor. }
    rewrite bind_outcome_ret.
    destruct (normalize_activities W raw) as [fresh|e].
    2:{ rewrite bind_outcome_throw. cbn [events_of fst snd].
        rewrite app_nil_r, (backstage_fetch_submissions Hev). constructor. }
    rewrite bind_outcome_ret. unfold reset_steps. rewrite bind_modify.
    rewrite form_bind_unfold.
    match goal with |- context [for_each (a0 :: chosen) ?f ?hh ?s0] =>
      pose proof (selected_loop_submits sq
                    (opt_prop (opt_prop seqData "data") "sequence") fresh
                    (a0 :: chosen) hh s0) as Hloop;
      destruct (for_each (a0 :: chosen) f hh s0) as [[[u|e] e1] st1]
    end; cbn [events_of fst snd] in *.
    - cbn [get bind appendResult modify events_of fst snd].
      rewrite !app_nil_r, TraceFacts.submissions_app,
        (backstage_fetch_submissions Hev). exact Hloop.
    - rewrite TraceFacts.submissions_app, (backstage_fetch_submissions Hev).
      exact Hloop. }
  unfold try_catch.
  destruct (fetch_and_process W sq (a0 :: chosen) h st) as [[[u|e] e1] st1];
    cbn [events_of fst snd] in *.
  - eapply Forall_impl; [|exact Hbody]. intros s (a & Ha & Hs).
    split; [reflexivity|]. exists a. destruct (Hin a Ha). auto.
  - unfold appendResult. rewrite bind_modify.
    cbn [add_error modify fst snd]. rewrite app_nil_r.
    eapply Forall_impl; [|exact Hbody]. intros s (a & Ha & Hs).
    split; [reflexivity|]. exists a. destruct (Hin a Ha). auto.
Qed.

Lemma sequence_loop_submits sequences :
  forall h st,
  Forall (fun s => exists sq a,
                     In sq sequences /\ sequence_selected sq = true
                     /\ In a (activities sq) /\ selected a = true
                     /\ sub_course s = JStr (courseId sq)
                     /\ sub_activity s = JStr (activityId a)
                     /\ sub_score s = num 1)
         (submissions
            (events_of (for_each sequences (process_sequence W) h st))).
Proof.
  induction sequences as [|sq r IH]; intros h st; [constructor|].
  rewrite form_for_each_cons, form_bind_unfold.
  pose proof (process_sequence_submits sq h st) as Hsq.
  assert (Hhere : Forall (fun s => exists sq' a,
                     In sq' (sq :: r) /\ sequence_selected sq' = true
                     /\ In a (activities sq') /\ selected a = true
                     /\ sub_course s = JStr (courseId sq')
                     /\ sub_activity s = JStr (activityId a)
                     /\ sub_score s = num 1)
            (submissions (events_of (process_sequence W sq h st)))).
  { eapply Forall_impl; [|exact Hsq]. intros s (Hsel & a & Ha).
    exists sq, a. split; [now left|]. split; [exact Hsel|exact Ha]. }
  destruct (process_sequence W sq h st) as [[[u|e] e1] st1];
    cbn [events_of fst snd] in *; [|exact Hhere].
  specialize (IH (h ++ e1) st1).
  destruct (for_each r (process_sequence W) (h ++ e1) st1) as [[o e2] st2].
  cbn [events_of fst snd] in *. rewrite TraceFacts.submissions_app.
  apply Forall_app. split; [exact Hhere|].
  eapply Forall_impl; [|exact IH]. intros s (sq' & a & Hin & Hrest).
  exists sq', a. split; [now right|exact Hrest].
Qed.
End WithWorld.
End SelectionFacts.

(** [handleProcessSelected] submits progress for selected activities only:
    every submission it makes names an activity that is selected in a
    selected sequence of the list and the course of that sequence, with
    score 1. *)
Theorem only_selected_activities_are_submitted
    (W : World) (sequences : list TimeForm.SequenceItem)
    (h : list event) (st : TimeForm.form) (s : submission) :
  In s (submissions (events_of (TimeForm.handleProcessSelected W sequences h st))) ->
  exists sq a,
    In sq sequences
    /\ TimeForm.sequence_selected sq = true
    /\ In a (TimeForm.activities sq)
    /\ TimeForm.selected a = true
    /\ sub_course s = JStr (TimeForm.courseId sq)
    /\ sub_activity s = JStr (TimeForm.activityId a)
    /\ sub_score s = num 1.
Proof.
  destruct (Nat.eq_dec (TimeForm.totalActivities sequences) 0) as [Hz|Hnz].
  { rewrite (TimeFormFacts.validation_guard W _ h st Hz). intros []. }
  rewrite (CountFacts.handler_unfold W _ h st Hnz). cbv zeta.
  match goal with |- context [TimeForm.for_each sequences ?f h ?s0] =>
    pose proof (SelectionFacts.sequence_loop_submits W sequences h s0) as Hloop;
    destruct (TimeForm.for_each sequences f h s0) as [[[u|e] evs] st1]
  end; cbn [events_of fst snd] in *.
  - intro Hin. rewrite Forall_forall in Hloop. exact (Hloop s Hin).
  - rewrite TraceFacts.submissions_app. cbn [submissions flat_map submission_of].
    rewrite app_nil_r. intro Hin. rewrite Forall_forall in Hloop.
    exact (Hloop s Hin).
Qed.

(** The same at the first submission of the run with two rejected steps. *)
Lemma only_selected_activities_are_submitted_witness :
  exists sq a,
    In sq [Examples.saludos true]
    /\ TimeForm.sequence_selected sq = true
    /\ In a (TimeForm.activities sq)
    /\ TimeForm.selected a = true
    /\ sub_course (Examples.submission_of_a1 "s1") = JStr (TimeForm.courseId sq)
    /\ sub_activity (Examples.submission_of_a1 "s1") = JStr (TimeForm.activityId a)
    /\ sub_score (Examples.submission_of_a1 "s1") = num 1.
Proof.
  apply (@only_selected_activities_are_submitted
           (Examples.rejecting_world Examples.two_steps)
           [Examples.saludos true] [] Examples.idle
           (Examples.submission_of_a1 "s1")).
  vm_compute. left. reflexivity.
Defined.
